(** * Hades GBA emulator: memory bus and run loop

    A shallow embedding of [source/core/bus.c] (the byte-addressed memory bus
    of the ARM7TDMI core) and of [source/gba/gba.c] (reset, the command queue
    and the run loop), with the properties of the specification that concern
    them. *)

From Stdlib Require Import ZArith Lia Bool.
From Stdlib Require Strings.Byte.
From stdpp Require Import base option list.

Local Open Scope Z_scope.

(** ** Machine integers and bytes *)

Abbreviation byte := Init.Byte.byte.

Definition byte_to_Z (b : byte) : Z := Z.of_N (Byte.to_N b).

(** Conversion of an integer to [uint8_t]: the value modulo 256. *)
Definition byte_of_Z (z : Z) : byte :=
  default Byte.x00 (Byte.of_N (Z.to_N (z mod 256))).

(** Conversion to [uint32_t]. *)
Definition u32 (z : Z) : Z := z mod 2 ^ 32.

(** [memory_size - k] on a [size_t]: [core.h] is not among the sources, the
    field is taken to be the [size_t] of the 64-bit hosts the project builds
    for, so that the subtraction wraps around modulo [2 ^ 64]. *)
Definition SIZE_BITS : Z := 64.
Definition size_sub (n k : Z) : Z := (n - k) mod 2 ^ SIZE_BITS.

(** C leaves [value << 32] on a 32-bit operand undefined, and both bus reads
    evaluate it when the address is aligned ([rotate = 0]).  The two behaviours
    of the hosts are kept as a parameter: the count is taken modulo 32 (x86),
    or the shift is as wide as asked and everything is shifted out (ARM). *)
Inductive shifter : Set := ShiftCountMasked | ShiftCountWide.

Definition shl32 (sh : shifter) (v n : Z) : Z :=
  if n <? 32 then u32 (Z.shiftl v n)
  else match sh with
       | ShiftCountMasked => u32 (Z.shiftl v (n mod 32))
       | ShiftCountWide => 0
       end.

Definition shr32 (v n : Z) : Z := Z.shiftr v n.

(** Rotation to the right of a 32-bit word, as the specification means it:
    the [n] low bits leave on the right and come back on the left. *)
Definition ror32 (v n : Z) : Z :=
  v / 2 ^ n + (v mod 2 ^ n) * 2 ^ (32 - n).

(** ** The memory bus, [source/core/bus.c] *)

Module Bus.

(** What a bus access does: it returns, it stops the emulator through
    [panic], or it leaves the buffer [core->memory] points to, which C does
    not define. [panic] comes from [hades.h], which is not among the sources:
    the accessors return nothing after it, it reports and ends the process. *)
Inductive result (A : Type) : Type :=
  | Ok (a : A)
  | Panic
  | Undefined.
Arguments Ok {A} a.
Arguments Panic {A}.
Arguments Undefined {A}.

Record core : Type := {
  memory : list byte;
  memory_size : Z;
  big_endian : bool
}.

Definition set_memory (c : core) (m : list byte) : core :=
  {| memory := m; memory_size := memory_size c; big_endian := big_endian c |}.

(** A core whose [memory_size] is the size of the buffer. *)
Definition wf_core (c : core) : Prop :=
  memory_size c = Z.of_nat (length (memory c)) /\ memory_size c < 2 ^ SIZE_BITS.

(** *** Loads and stores through a cast pointer

    [*(uint16_t * )(core->memory + addr)] and its 32-bit sibling read or write
    the bytes at [addr], [addr + 1], ...; [le16toh], [be16toh] and the others
    give them the same weights on every host. *)

Definition load_bytes (m : list byte) (addr : Z) (n : nat) : option (list byte) :=
  if (0 <=? addr) && (addr + Z.of_nat n <=? Z.of_nat (length m))
  then Some (take n (drop (Z.to_nat addr) m))
  else None.

Fixpoint le_value (bs : list byte) : Z :=
  match bs with
  | [] => 0
  | b :: bs' => byte_to_Z b + 256 * le_value bs'
  end.

Definition be_value (bs : list byte) : Z := le_value (rev bs).

Definition load_value (big : bool) (m : list byte) (addr : Z) (n : nat) : option Z :=
  (if big then be_value else le_value) <$> load_bytes m addr n.

Fixpoint le_bytes (n : nat) (v : Z) : list byte :=
  match n with
  | O => []
  | S n' => byte_of_Z v :: le_bytes n' (v / 256)
  end.

Definition be_bytes (n : nat) (v : Z) : list byte := rev (le_bytes n v).

Definition store_bytes (m : list byte) (addr : Z) (bs : list byte) : option (list byte) :=
  if (0 <=? addr) && (addr + Z.of_nat (length bs) <=? Z.of_nat (length m))
  then Some (take (Z.to_nat addr) m ++ bs ++ drop (Z.to_nat addr + length bs) m)
  else None.

Definition store_value (big : bool) (m : list byte) (addr : Z) (n : nat) (v : Z)
  : option (list byte) :=
  store_bytes m addr ((if big then be_bytes else le_bytes) n v).

(** *** The six accessors *)

Definition core_bus_read8 (c : core) (addr : Z) : result byte :=
  if memory_size c <=? addr then Panic
  else match memory c !! Z.to_nat addr with
       | Some b => Ok b
       | None => Undefined
       end.

Definition core_bus_write8 (c : core) (addr : Z) (val : byte) : result core :=
  if memory_size c <=? addr then Panic
  else if (Z.to_nat addr <? length (memory c))%nat
       then Ok (set_memory c (<[Z.to_nat addr := val]> (memory c)))
       else Undefined.

Definition core_bus_write16 (c : core) (addr : Z) (val : Z) : result core :=
  if size_sub (memory_size c) 1 <=? addr then Panic
  else match store_value (big_endian c) (memory c) addr 2 val with
       | Some m => Ok (set_memory c m)
       | None => Undefined
       end.

Definition core_bus_write32 (c : core) (addr : Z) (val : Z) : result core :=
  if size_sub (memory_size c) 3 <=? addr then Panic
  else match store_value (big_endian c) (memory c) addr 4 val with
       | Some m => Ok (set_memory c m)
       | None => Undefined
       end.

Section Reads.

Variable sh : shifter.

Definition core_bus_read16 (c : core) (addr : Z) : result Z :=
  let rotate := Z.shiftl (addr mod 2) 3 in
  let addr := Z.land addr 0xFFFFFFFE in
  if size_sub (memory_size c) 1 <=? addr then Panic
  else match load_value (big_endian c) (memory c) addr 2 with
       | Some value => Ok (Z.lor (shr32 value rotate) (shl32 sh value (32 - rotate)))
       | None => Undefined
       end.

Definition core_bus_read32 (c : core) (addr : Z) : result Z :=
  let rotate := Z.shiftl (addr mod 4) 3 in
  let addr := Z.land addr 0xFFFFFFFE in
  if size_sub (memory_size c) 3 <=? addr then Panic
  else match load_value (big_endian c) (memory c) addr 4 with
       | Some value => Ok (Z.lor (shr32 value rotate) (shl32 sh value (32 - rotate)))
       | None => Undefined
       end.

End Reads.

(** [c'] is [c] with the bytes [bs] at the addresses [a], [a + 1], ... and
    nothing else changed, as the byte reads of the bus see it. *)
Definition stored_at (c c' : core) (a : Z) (bs : list byte) : Prop :=
  memory_size c' = memory_size c /\
  big_endian c' = big_endian c /\
  (forall (k : nat) (b : byte),
     bs !! k = Some b -> core_bus_read8 c' (a + Z.of_nat k) = Ok b) /\
  (forall i : Z,
     0 <= i -> i < a \/ a + Z.of_nat (length bs) <= i ->
     core_bus_read8 c' i = core_bus_read8 c i).

End Bus.

(** ** Reset, command queue and run loop, [source/gba/gba.c] *)

Module Gba.

(** *** Constants and enumerations of the headers

    [gba.c] includes [gba/gba.h] and the headers behind it, none of which is
    among the sources. The enumerations below list the constants the code
    names; the three macros are given the values the specification states. *)

(** Modelled from the spec: [BIOS_MASK] (gba/memory.h is missing) is the
    mask over the offsets of the BIOS region, 16 KiB at [0x00000000], whose
    offsets are masked to the region size. *)
Definition BIOS_MASK : Z := 0x3FFF.

(** Modelled from the spec: [CART_SIZE] (gba/memory.h is missing), the
    largest cartridge ROM, 32 MiB. *)
Definition CART_SIZE : Z := 0x2000000.

(** Modelled from the spec: [CYCLES_PER_FRAME] (gba/gba.h is missing), one
    frame of 228 scanlines of 1232 cycles. *)
Definition CYCLES_PER_FRAME : Z := 280896.

Inductive keys : Set :=
  | KEY_A | KEY_B | KEY_L | KEY_R | KEY_UP | KEY_DOWN
  | KEY_RIGHT | KEY_LEFT | KEY_START | KEY_SELECT.

Inductive device_states : Set :=
  | DEVICE_AUTO_DETECT | DEVICE_ENABLED | DEVICE_DISABLED.

Inductive gba_states : Set := GBA_STATE_PAUSE | GBA_STATE_RUN.

(** Modelled from the spec: the backup storage types (gba/memory.h is
    missing) are None, SRAM, Flash 64/128 KiB and EEPROM 512 B / 8 KiB, next
    to the [BACKUP_AUTO_DETECT] request the code tests for. *)
Inductive backup_storage_types : Set :=
  | BACKUP_AUTO_DETECT | BACKUP_NONE | BACKUP_EEPROM_4K | BACKUP_EEPROM_64K
  | BACKUP_SRAM | BACKUP_FLASH64 | BACKUP_FLASH128.

Inductive backup_storage_sources : Set :=
  | BACKUP_SOURCE_AUTO_DETECT | BACKUP_SOURCE_MANUAL.

Definition backup_storage_types_eqb (x y : backup_storage_types) : bool :=
  match x, y with
  | BACKUP_AUTO_DETECT, BACKUP_AUTO_DETECT | BACKUP_NONE, BACKUP_NONE
  | BACKUP_EEPROM_4K, BACKUP_EEPROM_4K | BACKUP_EEPROM_64K, BACKUP_EEPROM_64K
  | BACKUP_SRAM, BACKUP_SRAM | BACKUP_FLASH64, BACKUP_FLASH64
  | BACKUP_FLASH128, BACKUP_FLASH128 => true
  | _, _ => false
  end.

(** *** The emulator state *)

(** The one-bit fields of [gba->io.keyinput], one per button. *)
Record keyinput : Set := {
  keyinput_a : bool; keyinput_b : bool;
  keyinput_select : bool; keyinput_start : bool;
  keyinput_right : bool; keyinput_left : bool;
  keyinput_up : bool; keyinput_down : bool;
  keyinput_r : bool; keyinput_l : bool
}.

(** The fields of [gba->memory] the run loop names. *)
Record memory : Type := {
  bios : list byte;
  rom : list byte;
  rom_size : Z;
  backup_storage_data : list byte;
  backup_storage_type : backup_storage_types;
  backup_storage_source : backup_storage_sources
}.

(** [struct gba] without its message queue: the fields [gba.c] names, and
    [hardware] for everything else (scheduler, CPU, PPU, APU, ...), which only
    the functions of other files read or write. *)
Record gba (Hw : Type) : Type := {
  mem : memory;
  io_keyinput : keyinput;
  apu_resample_frequency : Z;
  color_correction : bool;
  rtc_auto_detect : bool;
  rtc_enabled : bool;
  started : bool;
  state : gba_states;
  speed : Z;
  hardware : Hw
}.
Arguments mem {Hw} _.
Arguments io_keyinput {Hw} _.
Arguments apu_resample_frequency {Hw} _.
Arguments color_correction {Hw} _.
Arguments rtc_auto_detect {Hw} _.
Arguments rtc_enabled {Hw} _.
Arguments started {Hw} _.
Arguments state {Hw} _.
Arguments speed {Hw} _.
Arguments hardware {Hw} _.

(** *** Messages *)

(** A message that owns a buffer: [data] is what the pointer gives access
    to, [data_size] the [size] field of [struct message_data], [cleanup] the
    callback (an identifier of the function, [None] for a null pointer). *)
Record message_data : Type := {
  data : list byte;
  data_size : Z;
  cleanup : option nat
}.

Inductive message_type : Type :=
  | MESSAGE_EXIT
  | MESSAGE_LOAD_BIOS (d : message_data)
  | MESSAGE_LOAD_ROM (d : message_data)
  | MESSAGE_LOAD_BACKUP (d : message_data)
  | MESSAGE_BACKUP_TYPE (type : backup_storage_types)
  | MESSAGE_RESET
  | MESSAGE_RUN (run_speed : Z)
  | MESSAGE_PAUSE
  | MESSAGE_KEYINPUT (key : keys) (pressed : bool)
  | MESSAGE_QUICKLOAD (d : message_data)
  | MESSAGE_QUICKSAVE (d : message_data)
  | MESSAGE_AUDIO_RESAMPLE_FREQ (refill_frequency : Z)
  | MESSAGE_COLOR_CORRECTION (correction : bool)
  | MESSAGE_RTC (device : device_states).

(** A record of the queue: its tag with the payload, and [size], the number
    of bytes the record takes in the buffer. *)
Record message : Type := {
  type : message_type;
  size : Z
}.

(** [gba->message_queue]: the buffer ([None] for a null pointer), the number
    of messages and the number of bytes. The C fields are [messages],
    [length] and [allocated_size]. *)
Record message_queue : Type := {
  messages : option (list message);
  mq_length : Z;
  allocated_size : Z
}.

(** What the emulator thread does to the host: calls whose effect lies
    outside [struct gba], and the calls to the scheduler. *)
Inductive event : Type :=
  | EvLock
  | EvUnlock
  | EvCleanup (f : nat) (d : list byte)
  | EvFreeQueue
  | EvSchedRunFor (cycles : Z).

(** The local variables of [gba_run] that pace the frames. *)
Record pacing : Set := {
  last_measured_time : Z;
  accumulated_time : Z;
  time_per_frame : Z
}.

(** Everything [gba_run] works on. *)
Record machine (Hw Host : Type) : Type := {
  emu : gba Hw;
  mqueue : message_queue;
  pace : pacing;
  host : Host;
  log : list event
}.
Arguments emu {Hw Host} _.
Arguments mqueue {Hw Host} _.
Arguments pace {Hw Host} _.
Arguments host {Hw Host} _.
Arguments log {Hw Host} _.

(** *** Functions of other files

    [gba.c] calls into the scheduler, the memory, the I/O registers, the PPU,
    the APU, the CPU core, the GPIO, the game database, the quicksaves and the
    host clock. None of their files is among the sources: they are taken as
    parameters, any function of the emulator state (of the host for the clock).
    [mem_reset] and [io_init] receive [&gba->memory] and [&gba->io] and are
    given the whole state here, which only allows them more. None of them is
    handed the message queue. [backup_storage_sizes] is the table of
    [gba/memory.h], and [frame_period] stands for the single-precision
    expression [1.f/59.737f * 1000.f * 1000.f / (float)speed] converted to
    [uint64_t]. *)
Class Hardware (Hw Host : Type) : Type := {
  sched_cleanup : gba Hw -> gba Hw;
  sched_init : gba Hw -> gba Hw;
  mem_reset : gba Hw -> gba Hw;
  io_init : gba Hw -> gba Hw;
  ppu_init : gba Hw -> gba Hw;
  apu_init : gba Hw -> gba Hw;
  core_init : gba Hw -> gba Hw;
  gpio_init : gba Hw -> gba Hw;
  db_lookup_game : gba Hw -> gba Hw;
  mem_backup_storage_detect : gba Hw -> gba Hw;
  mem_backup_storage_init : gba Hw -> gba Hw;
  io_scan_keypad_irq : gba Hw -> gba Hw;
  quickload : gba Hw -> list byte -> gba Hw;
  quicksave : gba Hw -> list byte -> gba Hw;
  sched_run_for : gba Hw -> Z -> gba Hw;
  backup_storage_sizes : backup_storage_types -> Z;
  frame_period : Z -> Z;
  hs_tick_count : Host -> Z * Host;
  hs_usleep : Z -> Host -> Host
}.

(** *** Field updates *)

Definition set_bios (m : memory) (v : list byte) : memory :=
  {| bios := v; rom := rom m; rom_size := rom_size m;
     backup_storage_data := backup_storage_data m;
     backup_storage_type := backup_storage_type m;
     backup_storage_source := backup_storage_source m |}.

Definition set_rom (m : memory) (v : list byte) : memory :=
  {| bios := bios m; rom := v; rom_size := rom_size m;
     backup_storage_data := backup_storage_data m;
     backup_storage_type := backup_storage_type m;
     backup_storage_source := backup_storage_source m |}.

Definition set_rom_size (m : memory) (v : Z) : memory :=
  {| bios := bios m; rom := rom m; rom_size := v;
     backup_storage_data := backup_storage_data m;
     backup_storage_type := backup_storage_type m;
     backup_storage_source := backup_storage_source m |}.

Definition set_backup_storage_data (m : memory) (v : list byte) : memory :=
  {| bios := bios m; rom := rom m; rom_size := rom_size m;
     backup_storage_data := v;
     backup_storage_type := backup_storage_type m;
     backup_storage_source := backup_storage_source m |}.

Definition set_backup_storage_type (m : memory) (v : backup_storage_types) : memory :=
  {| bios := bios m; rom := rom m; rom_size := rom_size m;
     backup_storage_data := backup_storage_data m;
     backup_storage_type := v;
     backup_storage_source := backup_storage_source m |}.

Definition set_backup_storage_source (m : memory) (v : backup_storage_sources) : memory :=
  {| bios := bios m; rom := rom m; rom_size := rom_size m;
     backup_storage_data := backup_storage_data m;
     backup_storage_type := backup_storage_type m;
     backup_storage_source := v |}.

Section State.

Context {Hw : Type}.

Definition set_mem (g : gba Hw) (v : memory) : gba Hw :=
  {| mem := v; io_keyinput := io_keyinput g;
     apu_resample_frequency := apu_resample_frequency g;
     color_correction := color_correction g;
     rtc_auto_detect := rtc_auto_detect g; rtc_enabled := rtc_enabled g;
     started := started g; state := state g; speed := speed g;
     hardware := hardware g |}.

Definition set_io_keyinput (g : gba Hw) (v : keyinput) : gba Hw :=
  {| mem := mem g; io_keyinput := v;
     apu_resample_frequency := apu_resample_frequency g;
     color_correction := color_correction g;
     rtc_auto_detect := rtc_auto_detect g; rtc_enabled := rtc_enabled g;
     started := started g; state := state g; speed := speed g;
     hardware := hardware g |}.

Definition set_apu_resample_frequency (g : gba Hw) (v : Z) : gba Hw :=
  {| mem := mem g; io_keyinput := io_keyinput g;
     apu_resample_frequency := v;
     color_correction := color_correction g;
     rtc_auto_detect := rtc_auto_detect g; rtc_enabled := rtc_enabled g;
     started := started g; state := state g; speed := speed g;
     hardware := hardware g |}.

Definition set_color_correction (g : gba Hw) (v : bool) : gba Hw :=
  {| mem := mem g; io_keyinput := io_keyinput g;
     apu_resample_frequency := apu_resample_frequency g;
     color_correction := v;
     rtc_auto_detect := rtc_auto_detect g; rtc_enabled := rtc_enabled g;
     started := started g; state := state g; speed := speed g;
     hardware := hardware g |}.

Definition set_rtc (g : gba Hw) (auto_detect enabled : bool) : gba Hw :=
  {| mem := mem g; io_keyinput := io_keyinput g;
     apu_resample_frequency := apu_resample_frequency g;
     color_correction := color_correction g;
     rtc_auto_detect := auto_detect; rtc_enabled := enabled;
     started := started g; state := state g; speed := speed g;
     hardware := hardware g |}.

Definition set_started (g : gba Hw) (v : bool) : gba Hw :=
  {| mem := mem g; io_keyinput := io_keyinput g;
     apu_resample_frequency := apu_resample_frequency g;
     color_correction := color_correction g;
     rtc_auto_detect := rtc_auto_detect g; rtc_enabled := rtc_enabled g;
     started := v; state := state g; speed := speed g;
     hardware := hardware g |}.

Definition set_state (g : gba Hw) (v : gba_states) : gba Hw :=
  {| mem := mem g; io_keyinput := io_keyinput g;
     apu_resample_frequency := apu_resample_frequency g;
     color_correction := color_correction g;
     rtc_auto_detect := rtc_auto_detect g; rtc_enabled := rtc_enabled g;
     started := started g; state := v; speed := speed g;
     hardware := hardware g |}.

Definition set_speed (g : gba Hw) (v : Z) : gba Hw :=
  {| mem := mem g; io_keyinput := io_keyinput g;
     apu_resample_frequency := apu_resample_frequency g;
     color_correction := color_correction g;
     rtc_auto_detect := rtc_auto_detect g; rtc_enabled := rtc_enabled g;
     started := started g; state := state g; speed := v;
     hardware := hardware g |}.

Context {Host : Type}.

Definition set_emu (M : machine Hw Host) (g : gba Hw) : machine Hw Host :=
  {| emu := g; mqueue := mqueue M; pace := pace M; host := host M; log := log M |}.

Definition set_mqueue (M : machine Hw Host) (q : message_queue) : machine Hw Host :=
  {| emu := emu M; mqueue := q; pace := pace M; host := host M; log := log M |}.

Definition set_pace (M : machine Hw Host) (p : pacing) : machine Hw Host :=
  {| emu := emu M; mqueue := mqueue M; pace := p; host := host M; log := log M |}.

Definition set_host (M : machine Hw Host) (h : Host) : machine Hw Host :=
  {| emu := emu M; mqueue := mqueue M; pace := pace M; host := h; log := log M |}.

(** The call is appended to the log. *)
Definition emit (M : machine Hw Host) (e : event) : machine Hw Host :=
  {| emu := emu M; mqueue := mqueue M; pace := pace M; host := host M;
     log := log M ++ [e] |}.

End State.

(** *** [memset] and [memcpy] on buffers

    Both are what C does as long as [n] bytes fit in the buffers involved,
    which is when C defines them. *)

Definition memset (dst : list byte) (c : byte) (n : Z) : list byte :=
  replicate (Z.to_nat n) c ++ drop (Z.to_nat n) dst.

Definition memcpy (dst src : list byte) (n : Z) : list byte :=
  take (Z.to_nat n) src ++ drop (Z.to_nat n) dst.

(** Arithmetic on [uint64_t] and [size_t]. *)
Definition u64 (z : Z) : Z := z mod 2 ^ 64.

(** *** The switch of [MESSAGE_KEYINPUT] *)

Definition set_key (k : keys) (v : bool) (ki : keyinput) : keyinput :=
  match k with
  | KEY_A =>
    {| keyinput_a := v; keyinput_b := keyinput_b ki;
       keyinput_select := keyinput_select ki; keyinput_start := keyinput_start ki;
       keyinput_right := keyinput_right ki; keyinput_left := keyinput_left ki;
       keyinput_up := keyinput_up ki; keyinput_down := keyinput_down ki;
       keyinput_r := keyinput_r ki; keyinput_l := keyinput_l ki |}
  | KEY_B =>
    {| keyinput_a := keyinput_a ki; keyinput_b := v;
       keyinput_select := keyinput_select ki; keyinput_start := keyinput_start ki;
       keyinput_right := keyinput_right ki; keyinput_left := keyinput_left ki;
       keyinput_up := keyinput_up ki; keyinput_down := keyinput_down ki;
       keyinput_r := keyinput_r ki; keyinput_l := keyinput_l ki |}
  | KEY_L =>
    {| keyinput_a := keyinput_a ki; keyinput_b := keyinput_b ki;
       keyinput_select := keyinput_select ki; keyinput_start := keyinput_start ki;
       keyinput_right := keyinput_right ki; keyinput_left := keyinput_left ki;
       keyinput_up := keyinput_up ki; keyinput_down := keyinput_down ki;
       keyinput_r := keyinput_r ki; keyinput_l := v |}
  | KEY_R =>
    {| keyinput_a := keyinput_a ki; keyinput_b := keyinput_b ki;
       keyinput_select := keyinput_select ki; keyinput_start := keyinput_start ki;
       keyinput_right := keyinput_right ki; keyinput_left := keyinput_left ki;
       keyinput_up := keyinput_up ki; keyinput_down := keyinput_down ki;
       keyinput_r := v; keyinput_l := keyinput_l ki |}
  | KEY_UP =>
    {| keyinput_a := keyinput_a ki; keyinput_b := keyinput_b ki;
       keyinput_select := keyinput_select ki; keyinput_start := keyinput_start ki;
       keyinput_right := keyinput_right ki; keyinput_left := keyinput_left ki;
       keyinput_up := v; keyinput_down := keyinput_down ki;
       keyinput_r := keyinput_r ki; keyinput_l := keyinput_l ki |}
  | KEY_DOWN =>
    {| keyinput_a := keyinput_a ki; keyinput_b := keyinput_b ki;
       keyinput_select := keyinput_select ki; keyinput_start := keyinput_start ki;
       keyinput_right := keyinput_right ki; keyinput_left := keyinput_left ki;
       keyinput_up := keyinput_up ki; keyinput_down := v;
       keyinput_r := keyinput_r ki; keyinput_l := keyinput_l ki |}
  | KEY_RIGHT =>
    {| keyinput_a := keyinput_a ki; keyinput_b := keyinput_b ki;
       keyinput_select := keyinput_select ki; keyinput_start := keyinput_start ki;
       keyinput_right := v; keyinput_left := keyinput_left ki;
       keyinput_up := keyinput_up ki; keyinput_down := keyinput_down ki;
       keyinput_r := keyinput_r ki; keyinput_l := keyinput_l ki |}
  | KEY_LEFT =>
    {| keyinput_a := keyinput_a ki; keyinput_b := keyinput_b ki;
       keyinput_select := keyinput_select ki; keyinput_start := keyinput_start ki;
       keyinput_right := keyinput_right ki; keyinput_left := v;
       keyinput_up := keyinput_up ki; keyinput_down := keyinput_down ki;
       keyinput_r := keyinput_r ki; keyinput_l := keyinput_l ki |}
  | KEY_START =>
    {| keyinput_a := keyinput_a ki; keyinput_b := keyinput_b ki;
       keyinput_select := keyinput_select ki; keyinput_start := v;
       keyinput_right := keyinput_right ki; keyinput_left := keyinput_left ki;
       keyinput_up := keyinput_up ki; keyinput_down := keyinput_down ki;
       keyinput_r := keyinput_r ki; keyinput_l := keyinput_l ki |}
  | KEY_SELECT =>
    {| keyinput_a := keyinput_a ki; keyinput_b := keyinput_b ki;
       keyinput_select := v; keyinput_start := keyinput_start ki;
       keyinput_right := keyinput_right ki; keyinput_left := keyinput_left ki;
       keyinput_up := keyinput_up ki; keyinput_down := keyinput_down ki;
       keyinput_r := keyinput_r ki; keyinput_l := keyinput_l ki |}
  end.

(** The KEYINPUT bit of a button, to state what the switch does. *)
Definition key_bit (k : keys) (ki : keyinput) : bool :=
  match k with
  | KEY_A => keyinput_a ki
  | KEY_B => keyinput_b ki
  | KEY_L => keyinput_l ki
  | KEY_R => keyinput_r ki
  | KEY_UP => keyinput_up ki
  | KEY_DOWN => keyinput_down ki
  | KEY_RIGHT => keyinput_right ki
  | KEY_LEFT => keyinput_left ki
  | KEY_START => keyinput_start ki
  | KEY_SELECT => keyinput_select ki
  end.

(** *** [gba_reset], the messages and the loop *)

(** How the work on a machine ends: the loop goes on, [gba_run] has
    returned, or the code has read outside the buffer of the queue. *)
Inductive outcome (Hw Host : Type) : Type :=
  | Running (M : machine Hw Host)
  | Returned (M : machine Hw Host)
  | Undefined.
Arguments Running {Hw Host} M.
Arguments Returned {Hw Host} M.
Arguments Undefined {Hw Host}.

Section Run.

Context {Hw Host : Type} `{HW : Hardware Hw Host}.

Definition gba_reset (g : gba Hw) : gba Hw :=
  let g := sched_cleanup g in
  let g := sched_init g in
  let g := mem_reset g in
  let g := io_init g in
  let g := ppu_init g in
  let g := apu_init g in
  let g := core_init g in
  let g := gpio_init g in
  set_started g false.

(** [if (message_data->cleanup) message_data->cleanup(message_data->data)] *)
Definition run_cleanup (d : message_data) (M : machine Hw Host) : machine Hw Host :=
  match cleanup d with
  | Some f => emit M (EvCleanup f (data d))
  | None => M
  end.

(** The body of one case of the switch on [message->type]. *)
Definition exec_message (m : message) (M : machine Hw Host) : outcome Hw Host :=
  let g := emu M in
  match type m with
  | MESSAGE_EXIT => Returned (emit M EvUnlock)
  | MESSAGE_LOAD_BIOS d =>
    let b := memset (bios (mem g)) Byte.x00 BIOS_MASK in
    let b := memcpy b (data d) (Z.min (data_size d) BIOS_MASK) in
    Running (run_cleanup d (set_emu M (set_mem g (set_bios (mem g) b))))
  | MESSAGE_LOAD_ROM d =>
    let r := memset (rom (mem g)) Byte.x00 CART_SIZE in
    let n := Z.min (data_size d) CART_SIZE in
    let r := memcpy r (data d) n in
    let g := set_mem g (set_rom (set_rom_size (mem g) n) r) in
    let M := run_cleanup d (set_emu M g) in
    Running (set_emu M (db_lookup_game (emu M)))
  | MESSAGE_LOAD_BACKUP d =>
    let n := backup_storage_sizes (backup_storage_type (mem g)) in
    let s := memset (backup_storage_data (mem g)) Byte.x00 n in
    let s := memcpy s (data d) (Z.min (data_size d) n) in
    Running (run_cleanup d (set_emu M (set_mem g (set_backup_storage_data (mem g) s))))
  | MESSAGE_BACKUP_TYPE t =>
    if started g then Running M
    else
      let g :=
        if backup_storage_types_eqb t BACKUP_AUTO_DETECT
        then mem_backup_storage_detect g
        else set_mem g (set_backup_storage_source
                          (set_backup_storage_type (mem g) t) BACKUP_SOURCE_MANUAL) in
      Running (set_emu M (mem_backup_storage_init g))
  | MESSAGE_RESET => Running (set_emu M (gba_reset g))
  | MESSAGE_RUN s =>
    let g := set_speed (set_state (set_started g true) GBA_STATE_RUN) s in
    let p := pace M in
    let p :=
      if s =? 0
      then {| last_measured_time := last_measured_time p;
              accumulated_time := accumulated_time p;
              time_per_frame := 0 |}
      else {| last_measured_time := last_measured_time p;
              accumulated_time := 0;
              time_per_frame := frame_period s |} in
    Running (set_pace (set_emu M g) p)
  | MESSAGE_PAUSE => Running (set_emu M (set_state g GBA_STATE_PAUSE))
  | MESSAGE_KEYINPUT k pressed =>
    let g := set_io_keyinput g (set_key k (negb pressed) (io_keyinput g)) in
    Running (set_emu M (io_scan_keypad_irq g))
  | MESSAGE_QUICKLOAD d =>
    Running (run_cleanup d (set_emu M (quickload g (data d))))
  | MESSAGE_QUICKSAVE d =>
    Running (run_cleanup d (set_emu M (quicksave g (data d))))
  | MESSAGE_AUDIO_RESAMPLE_FREQ f =>
    Running (set_emu M (set_apu_resample_frequency g f))
  | MESSAGE_COLOR_CORRECTION c =>
    Running (set_emu M (set_color_correction g c))
  | MESSAGE_RTC d =>
    if started g then Running M
    else
      match d with
      | DEVICE_AUTO_DETECT => Running (set_emu M (set_rtc g true false))
      | DEVICE_ENABLED => Running (set_emu M (set_rtc g false true))
      | DEVICE_DISABLED => Running (set_emu M (set_rtc g false false))
      end
  end.

(** The three statements after the switch:
    [mqueue->allocated_size -= message->size; --mqueue->length;] and the move
    of the cursor, which [drain] does by passing to the rest of the buffer. *)
Definition consume (m : message) (M : machine Hw Host) : machine Hw Host :=
  let q := mqueue M in
  set_mqueue M {| messages := messages q;
                  mq_length := u64 (mq_length q - 1);
                  allocated_size := u64 (allocated_size q - size m) |}.

(** [while (mqueue->length) { switch ... }], [cursor] being what [message]
    points to: the records from there to the end of the buffer. *)
Fixpoint drain (cursor : list message) (M : machine Hw Host) : outcome Hw Host :=
  if mq_length (mqueue M) =? 0 then Running M
  else
    match cursor with
    | [] => Undefined
    | m :: rest =>
      match exec_message m M with
      | Running M' => drain rest (consume m M')
      | o => o
      end
    end.

(** The block under the comment "Limit FPS". *)
Definition limit_fps (M : machine Hw Host) : machine Hw Host :=
  let p := pace M in
  if speed (emu M) =? 0
  then
    let (now, h) := hs_tick_count (host M) in
    set_host (set_pace M {| last_measured_time := now;
                            accumulated_time := 0;
                            time_per_frame := time_per_frame p |}) h
  else
    let (now, h) := hs_tick_count (host M) in
    let acc := u64 (accumulated_time p + u64 (now - last_measured_time p)) in
    let last := now in
    let '(acc, last, h) :=
      if acc <? time_per_frame p
      then
        let h := hs_usleep (u64 (time_per_frame p - acc)) h in
        let (now, h) := hs_tick_count h in
        (u64 (acc + u64 (now - last)), now, h)
      else (acc, last, h) in
    set_host (set_pace M {| last_measured_time := last;
                            accumulated_time := u64 (acc - time_per_frame p);
                            time_per_frame := time_per_frame p |}) h.

(** One turn of the [while (true)] of [gba_run]. *)
Definition gba_run_iteration (M : machine Hw Host) : outcome Hw Host :=
  let M := emit M EvLock in
  match drain (default [] (messages (mqueue M))) M with
  | Running M =>
    let M := emit M EvFreeQueue in
    let q := mqueue M in
    let M := set_mqueue M {| messages := None;
                             mq_length := mq_length q;
                             allocated_size := allocated_size q |} in
    let M := emit M EvUnlock in
    let M :=
      match state (emu M) with
      | GBA_STATE_RUN =>
        emit (set_emu M (sched_run_for (emu M) CYCLES_PER_FRAME))
             (EvSchedRunFor CYCLES_PER_FRAME)
      | GBA_STATE_PAUSE => M
      end in
    Running (limit_fps M)
  | o => o
  end.

(** *** [gba_message_push]

    [realloc] keeps the bytes below [allocated_size] and the new record is
    copied right after them. Read again as records, the buffer is then the
    records that end at [allocated_size] followed by the new one; when no
    record ends there the bytes are no sequence of records any more
    ([None]). [hs_assert] on the result of [realloc] is taken to pass. *)
Fixpoint buffer_prefix (n : Z) (buf : list message) : option (list message) :=
  if n =? 0 then Some []
  else
    match buf with
    | [] => None
    | m :: rest =>
      if (0 <? size m) && (size m <=? n)
      then cons m <$> buffer_prefix (n - size m) rest
      else None
    end.

Definition gba_message_push (q : message_queue) (m : message) : option message_queue :=
  if 0 <? size m then
    let new_size := u64 (allocated_size q + size m) in
    match buffer_prefix (allocated_size q) (default [] (messages q)) with
    | Some buf =>
      Some {| messages := Some (buf ++ [m]);
              mq_length := u64 (mq_length q + 1);
              allocated_size := new_size |}
    | None => None
    end
  else None.

(** The front-end pushes a batch of messages, one call each. *)
Fixpoint push_all (batch : list message) (q : message_queue) : option message_queue :=
  match batch with
  | [] => Some q
  | m :: rest =>
    match gba_message_push q m with
    | Some q' => push_all rest q'
    | None => None
    end
  end.

(** *** [gba_run]

    The front-end thread pushes while the emulator thread is outside the
    lock: [batches] gives, turn after turn of the loop, the messages that were
    pushed before the emulator takes the lock. The loop has no end of its own;
    [Running] is the state in which the batches given leave it. *)
Fixpoint gba_run_loop (batches : list (list message)) (M : machine Hw Host)
  : outcome Hw Host :=
  match batches with
  | [] => Running M
  | batch :: later =>
    match push_all batch (mqueue M) with
    | None => Undefined
    | Some q =>
      match gba_run_iteration (set_mqueue M q) with
      | Running M' => gba_run_loop later M'
      | o => o
      end
    end
  end.

Definition gba_run (batches : list (list message)) (M : machine Hw Host)
  : outcome Hw Host :=
  let (now, h) := hs_tick_count (host M) in
  let M := set_host (set_pace M {| last_measured_time := now;
                                   accumulated_time := 0;
                                   time_per_frame := 0 |}) h in
  gba_run_loop batches M.

End Run.

(** *** Queues in their normal state *)

Definition total_size (buf : list message) : Z :=
  foldr (fun m acc => size m + acc) 0 buf.

(** The queue holds exactly the records of [buf]: what pushing them one by
    one on an empty queue gives. *)
Definition holds (q : message_queue) (buf : list message) : Prop :=
  default [] (messages q) = buf /\
  mq_length q = Z.of_nat (length buf) /\
  allocated_size q = total_size buf /\
  Forall (fun m => 0 < size m) buf /\
  total_size buf < 2 ^ 64.

Definition empty_queue : message_queue :=
  {| messages := None; mq_length := 0; allocated_size := 0 |}.

(** The queue after the records of [buf] were pushed on an empty queue. *)
Definition queue_of (buf : list message) : message_queue :=
  {| messages := Some buf;
     mq_length := Z.of_nat (length buf);
     allocated_size := total_size buf |}.

Definition is_exit (m : message) : bool :=
  match type m with MESSAGE_EXIT => true | _ => false end.

(** [cleanup_events buf]: the calls to the cleanup callbacks of the records
    of [buf], in the order of the buffer. *)
Definition cleanup_of (m : message) : list event :=
  match type m with
  | MESSAGE_LOAD_BIOS d | MESSAGE_LOAD_ROM d | MESSAGE_LOAD_BACKUP d
  | MESSAGE_QUICKLOAD d | MESSAGE_QUICKSAVE d =>
    match cleanup d with
    | Some f => [EvCleanup f (data d)]
    | None => []
    end
  | _ => []
  end.

Definition cleanup_events (buf : list message) : list event :=
  concat (map cleanup_of buf).

(** *** The messages of a buffer, one after the other

    [apply_message] is the effect of the case of the switch for one record and
    [run_messages] that of a whole buffer from its first record to its last,
    the order in which [gba_message_push] laid them. *)
Definition apply_message {Hw Host : Type} `{HW : Hardware Hw Host}
    (M : machine Hw Host) (m : message) : machine Hw Host :=
  match exec_message m M with
  | Running M' => M'
  | Returned M' => M'
  | Undefined => M
  end.

Definition run_messages {Hw Host : Type} `{HW : Hardware Hw Host}
    (buf : list message) (M : machine Hw Host) : machine Hw Host :=
  fold_left apply_message buf M.

(** The calls of the emulator thread after the drain of a turn. *)
Definition frame_events (s : gba_states) : list event :=
  match s with
  | GBA_STATE_RUN => [EvFreeQueue; EvUnlock; EvSchedRunFor CYCLES_PER_FRAME]
  | GBA_STATE_PAUSE => [EvFreeQueue; EvUnlock]
  end.

(** The machine once a Reset message was processed. *)
Definition after_reset {Hw Host : Type} `{HW : Hardware Hw Host}
    (M : machine Hw Host) : machine Hw Host :=
  set_emu M (gba_reset (emu M)).

(** *** What a message leaves alone

    The relations below compare two states field by field: [M'] is [M] apart
    from the emulator state, and [g'] is [g] apart from the two RTC flags,
    from the type and the source of the backup storage, or from [state]. *)
Definition same_but_emu {Hw Host : Type} (M M' : machine Hw Host) : Prop :=
  mqueue M' = mqueue M /\ pace M' = pace M /\ host M' = host M /\ log M' = log M.

Definition same_but_rtc {Hw : Type} (g g' : gba Hw) : Prop :=
  mem g' = mem g /\ io_keyinput g' = io_keyinput g /\
  apu_resample_frequency g' = apu_resample_frequency g /\
  color_correction g' = color_correction g /\
  started g' = started g /\ state g' = state g /\ speed g' = speed g /\
  hardware g' = hardware g.

Definition same_but_backup_type {Hw : Type} (g g' : gba Hw) : Prop :=
  bios (mem g') = bios (mem g) /\ rom (mem g') = rom (mem g) /\
  rom_size (mem g') = rom_size (mem g) /\
  backup_storage_data (mem g') = backup_storage_data (mem g) /\
  io_keyinput g' = io_keyinput g /\
  apu_resample_frequency g' = apu_resample_frequency g /\
  color_correction g' = color_correction g /\
  rtc_auto_detect g' = rtc_auto_detect g /\ rtc_enabled g' = rtc_enabled g /\
  started g' = started g /\ state g' = state g /\ speed g' = speed g /\
  hardware g' = hardware g.

Definition same_but_state {Hw : Type} (g g' : gba Hw) : Prop :=
  mem g' = mem g /\ io_keyinput g' = io_keyinput g /\
  apu_resample_frequency g' = apu_resample_frequency g /\
  color_correction g' = color_correction g /\
  rtc_auto_detect g' = rtc_auto_detect g /\ rtc_enabled g' = rtc_enabled g /\
  started g' = started g /\ speed g' = speed g /\
  hardware g' = hardware g.

(** A turn of the loop as the specification describes it: every message of
    the batch applied in the order of the pushes, the queue emptied and the
    lock released, then one frame of [CYCLES_PER_FRAME] cycles exactly when
    the state is Run, then the pacing. *)
Definition after_frame {Hw Host : Type} `{HW : Hardware Hw Host}
    (M : machine Hw Host) (batch : list message) : machine Hw Host :=
  let D := run_messages batch M in
  limit_fps
    {| emu := match state (emu D) with
              | GBA_STATE_RUN => sched_run_for (emu D) CYCLES_PER_FRAME
              | GBA_STATE_PAUSE => emu D
              end;
       mqueue := empty_queue;
       pace := pace D;
       host := host M;
       log := log M ++ [EvLock] ++ cleanup_events batch
                    ++ frame_events (state (emu D)) |}.

Definition drains_then_runs_frame {Hw Host : Type} `{HW : Hardware Hw Host}
    (M : machine Hw Host) (batch : list message) : Prop :=
  exists q,
    push_all batch (mqueue M) = Some q /\
    gba_run_iteration (set_mqueue M q) = Running (after_frame M batch).

End Gba.

(** ** Concrete states

    A core of eight bytes for the bus, and for the run loop a board whose
    hardware is a cycle counter and whose host is a clock in microseconds. *)

Module Samples.

Import Bus Gba.

Definition core8 (big : bool) : core :=
  {| Bus.memory := [Byte.x11; Byte.x22; Byte.x33; Byte.x44;
                    Byte.x55; Byte.x66; Byte.x77; Byte.x88];
     memory_size := 8;
     big_endian := big |}.

Definition released : keyinput :=
  {| keyinput_a := true; keyinput_b := true;
     keyinput_select := true; keyinput_start := true;
     keyinput_right := true; keyinput_left := true;
     keyinput_up := true; keyinput_down := true;
     keyinput_r := true; keyinput_l := true |}.

Definition set_hardware (g : gba Z) (v : Z) : gba Z :=
  {| mem := mem g; io_keyinput := io_keyinput g;
     apu_resample_frequency := apu_resample_frequency g;
     color_correction := color_correction g;
     rtc_auto_detect := rtc_auto_detect g; rtc_enabled := rtc_enabled g;
     started := started g; state := state g; speed := speed g;
     hardware := v |}.

Definition board_sizes (t : backup_storage_types) : Z :=
  match t with
  | BACKUP_AUTO_DETECT | BACKUP_NONE => 0
  | BACKUP_EEPROM_4K => 512
  | BACKUP_EEPROM_64K => 8192
  | BACKUP_SRAM => 32768
  | BACKUP_FLASH64 => 65536
  | BACKUP_FLASH128 => 131072
  end.

#[export] Instance board : Hardware Z Z := {|
  sched_cleanup := fun g => g;
  sched_init := fun g => set_hardware g 0;
  mem_reset := fun g => g;
  io_init := fun g => set_io_keyinput g released;
  ppu_init := fun g => g;
  apu_init := fun g => g;
  core_init := fun g => g;
  gpio_init := fun g => g;
  db_lookup_game := fun g => g;
  mem_backup_storage_detect := fun g =>
    set_mem g (set_backup_storage_source
                 (set_backup_storage_type (mem g) BACKUP_NONE)
                 BACKUP_SOURCE_AUTO_DETECT);
  mem_backup_storage_init := fun g =>
    set_mem g (set_backup_storage_data (mem g)
                 (replicate (Z.to_nat (board_sizes (backup_storage_type (mem g))))
                            Byte.x00));
  io_scan_keypad_irq := fun g => g;
  quickload := fun g _ => g;
  quicksave := fun g _ => g;
  sched_run_for := fun g n => set_hardware g (hardware g + n);
  backup_storage_sizes := board_sizes;
  frame_period := fun s => 16740 / s;
  hs_tick_count := fun h => (h, h);
  hs_usleep := fun d h => h + d
|}.

(** An emulator that was initialised and reset: the BIOS region, an array of
    16 KiB, is zero, no button is down, the state is Pause. *)
Definition gba0 : gba Z :=
  {| mem := {| bios := replicate (Z.to_nat 0x4000) Byte.x00;
               rom := [];
               rom_size := 0;
               backup_storage_data := [];
               backup_storage_type := BACKUP_NONE;
               backup_storage_source := BACKUP_SOURCE_AUTO_DETECT |};
     io_keyinput := released;
     apu_resample_frequency := 0;
     color_correction := false;
     rtc_auto_detect := false;
     rtc_enabled := false;
     started := false;
     state := GBA_STATE_PAUSE;
     speed := 0;
     hardware := 0 |}.

Definition machine0 : machine Z Z :=
  {| emu := gba0;
     mqueue := empty_queue;
     pace := {| last_measured_time := 0; accumulated_time := 0; time_per_frame := 0 |};
     host := 0;
     log := [] |}.

(** The same machine once a Run message was processed. *)
Definition running0 : machine Z Z :=
  set_emu machine0 (set_state (set_started gba0 true) GBA_STATE_RUN).

Definition msg (t : message_type) : message := {| type := t; size := 16 |}.

(** Run at speed 1, press A, pause. *)
Definition batch0 : list message :=
  [msg (MESSAGE_RUN 1); msg (MESSAGE_KEYINPUT KEY_A true); msg MESSAGE_PAUSE].

(** A BIOS image of 16,384 bytes, every byte [0xff]. *)
Definition bios_image : message_data :=
  {| data := replicate (Z.to_nat 0x4000) Byte.xff;
     data_size := 0x4000;
     cleanup := Some 1%nat |}.

End Samples.

(** ** Views of the run loop used by the further properties *)

Module GbaViews.

Import Gba.

(** The machine [gba_run] returns with when the drain of the batch
    [pre ++ ex :: post] meets the Exit [ex]. *)
Definition at_exit {Hw Host : Type} `{HW : Hardware Hw Host}
    (M : machine Hw Host) (pre : list message) (ex : message) (post : list message)
  : machine Hw Host :=
  {| emu := emu (run_messages pre M);
     mqueue := {| messages := Some (pre ++ ex :: post);
                  mq_length := Z.of_nat (length (ex :: post));
                  allocated_size := total_size (ex :: post) |};
     pace := pace (run_messages pre M);
     host := host M;
     log := log M ++ [EvLock] ++ cleanup_events pre ++ [EvUnlock] |}.

(** A batch the front-end can push: every record takes at least one byte
    and the batch fits the counters of the queue. *)
Definition pushable (batch : list message) : Prop :=
  Forall (fun m => 0 < size m) batch /\ total_size batch < 2 ^ 64.

(** The discipline of the queue lock, read off a log of calls: [held] tells
    whether the emulator thread holds the lock. The lock is taken when free
    and released when held, the cleanup callbacks and the release of the
    buffer happen under the lock, the scheduler runs outside it. The result
    is the state of the lock after the log, [None] when a call broke the
    discipline. *)
Fixpoint lock_walk (held : bool) (l : list event) : option bool :=
  match l with
  | [] => Some held
  | e :: l' =>
    match e, held with
    | EvLock, false => lock_walk true l'
    | EvUnlock, true => lock_walk false l'
    | EvCleanup _ _, true => lock_walk true l'
    | EvFreeQueue, true => lock_walk true l'
    | EvSchedRunFor _, false => lock_walk false l'
    | _, _ => None
    end
  end.

(** The calls of a complete turn of the loop on a batch, in their order:
    the lock, the cleanup callbacks of the batch, the release of the buffer,
    the unlock, and one run of the scheduler when [frame] is set. *)
Definition turn_calls (batch : list message) (frame : bool) : list event :=
  [EvLock] ++ cleanup_events batch ++ [EvFreeQueue; EvUnlock]
  ++ (if frame then [EvSchedRunFor CYCLES_PER_FRAME] else []).

(** The calls of the turn that meets an Exit behind the records [pre]. *)
Definition exit_calls (pre : list message) : list event :=
  [EvLock] ++ cleanup_events pre ++ [EvUnlock].

End GbaViews.

(** ** The front-end of the emulator, [source/platform/gui/game/game.c]

    The functions of the GUI thread that load the images and turn the events
    of SDL into messages for the emulator. *)

Module Gui.

Import Gba.

(** The content of a C string, without its final zero. *)
Abbreviation path := (list byte).

(** A file as the loaders see one: [file_len] is what [ftell] reports at the
    end of the file and [file_bytes] what [fread] delivers from its start,
    fewer bytes than [file_len] when the read fails part way. *)
Record file : Type := {
  file_len : Z;
  file_bytes : list byte
}.

(** The messages handed to [gui_new_error], by the call that builds them
    (the text holds the path and [strerror(errno)]). *)
Inductive gui_error : Set :=
  | ERR_OPEN_BIOS | ERR_INVALID_BIOS | ERR_READ_BIOS
  | ERR_OPEN_ROM | ERR_INVALID_ROM | ERR_READ_ROM
  | ERR_CREATE_SAVE.

(** The key codes the handler names; [SDLK_OTHER] is any other key. *)
Inductive SDL_Keycode : Set :=
  | SDLK_UP | SDLK_w | SDLK_DOWN | SDLK_s | SDLK_LEFT | SDLK_a
  | SDLK_RIGHT | SDLK_d | SDLK_p | SDLK_l | SDLK_e | SDLK_o
  | SDLK_BACKSPACE | SDLK_RETURN | SDLK_F1 | SDLK_F2 | SDLK_F5 | SDLK_F8
  | SDLK_OTHER.

Inductive SDL_GameControllerButton : Set :=
  | SDL_CONTROLLER_BUTTON_B | SDL_CONTROLLER_BUTTON_A
  | SDL_CONTROLLER_BUTTON_Y | SDL_CONTROLLER_BUTTON_X
  | SDL_CONTROLLER_BUTTON_DPAD_LEFT | SDL_CONTROLLER_BUTTON_DPAD_RIGHT
  | SDL_CONTROLLER_BUTTON_DPAD_UP | SDL_CONTROLLER_BUTTON_DPAD_DOWN
  | SDL_CONTROLLER_BUTTON_LEFTSHOULDER | SDL_CONTROLLER_BUTTON_RIGHTSHOULDER
  | SDL_CONTROLLER_BUTTON_START | SDL_CONTROLLER_BUTTON_BACK
  | SDL_CONTROLLER_BUTTON_MISC1 | SDL_CONTROLLER_BUTTON_OTHER.

(** The events the handler looks at, with the fields it reads:
    [key.repeat] and [key.keysym.sym], [cbutton.button], [jaxis.axis] and
    [jaxis.value]. *)
Inductive SDL_Event : Set :=
  | SDL_KEYDOWN (key_repeat : Z) (sym : SDL_Keycode)
  | SDL_KEYUP (key_repeat : Z) (sym : SDL_Keycode)
  | SDL_CONTROLLERBUTTONDOWN (button : SDL_GameControllerButton)
  | SDL_CONTROLLERBUTTONUP (button : SDL_GameControllerButton)
  | SDL_CONTROLLERAXISMOTION (axis value : Z)
  | SDL_OTHER_EVENT.

(** [app->emulation]. The two derived paths are null until a game is
    loaded; [backup_file] is the open save file, named by its path. *)
Record emulation : Type := {
  bios_path : path;
  game_path : path;
  qsave_path : option path;
  backup_path : option path;
  backup_file : option path;
  enabled : bool;
  pause : bool;
  speed : Z;
  unbounded : bool;
  backup_type : backup_storage_types;
  rtc_autodetect : bool;
  rtc_enabled : bool
}.

(** [struct app], as far as [game.c] goes: the emulation, the four flags of
    the joystick, the errors handed to [gui_new_error] and the messages
    handed to [gba_message_push], both in the order of the calls. *)
Record app : Type := {
  app_emulation : emulation;
  joystick_right : bool;
  joystick_left : bool;
  joystick_down : bool;
  joystick_up : bool;
  errors : list gui_error;
  pushed : list message
}.

(** What [game.c] takes from elsewhere: the sizes of the records the
    [NEW_MESSAGE_...] macros of [gba/gba.h] build and the two macros that wrap
    a path, two functions of the GUI, whether SDL is 2.0.14 or later, and the
    disk: what [fopen] answers in the modes "rb", "rb+" and "wb+". *)
Class Frontend : Type := {
  sizeof_message : message_type -> Z;
  new_message_quicksave : option path -> message;
  new_message_quickload : option path -> message;
  gui_game_screenshot : app -> app;
  gui_push_recent_roms : app -> app;
  sdl_has_misc1 : bool;
  fopen_rb : path -> option file;
  fopen_rb_plus : path -> option file;
  fopen_wb_plus : path -> bool
}.

(** Modelled from the spec: [BIOS_SIZE] (gba/memory.h is missing), the size
    of a BIOS image, exactly 16,384 bytes. *)
Definition BIOS_SIZE : Z := 0x4000.

(** The address of [free], the cleanup callback of every image. *)
Definition free : nat := 0%nat.

Definition INT16_MAX : Z := 32767.
Definition INT16_MIN : Z := -32768.

(** *** Field updates *)

Definition set_paths (e : emulation) (q b : option path) : emulation :=
  {| bios_path := bios_path e; game_path := game_path e;
     qsave_path := q; backup_path := b; backup_file := backup_file e;
     enabled := enabled e; pause := pause e; speed := speed e;
     unbounded := unbounded e; backup_type := backup_type e;
     rtc_autodetect := rtc_autodetect e; rtc_enabled := rtc_enabled e |}.

Definition set_backup_file (e : emulation) (f : option path) : emulation :=
  {| bios_path := bios_path e; game_path := game_path e;
     qsave_path := qsave_path e; backup_path := backup_path e; backup_file := f;
     enabled := enabled e; pause := pause e; speed := speed e;
     unbounded := unbounded e; backup_type := backup_type e;
     rtc_autodetect := rtc_autodetect e; rtc_enabled := rtc_enabled e |}.

Definition set_enabled (e : emulation) (v : bool) : emulation :=
  {| bios_path := bios_path e; game_path := game_path e;
     qsave_path := qsave_path e; backup_path := backup_path e;
     backup_file := backup_file e;
     enabled := v; pause := pause e; speed := speed e;
     unbounded := unbounded e; backup_type := backup_type e;
     rtc_autodetect := rtc_autodetect e; rtc_enabled := rtc_enabled e |}.

Definition set_pause (e : emulation) (v : bool) : emulation :=
  {| bios_path := bios_path e; game_path := game_path e;
     qsave_path := qsave_path e; backup_path := backup_path e;
     backup_file := backup_file e;
     enabled := enabled e; pause := v; speed := speed e;
     unbounded := unbounded e; backup_type := backup_type e;
     rtc_autodetect := rtc_autodetect e; rtc_enabled := rtc_enabled e |}.

Definition set_unbounded (e : emulation) (v : bool) : emulation :=
  {| bios_path := bios_path e; game_path := game_path e;
     qsave_path := qsave_path e; backup_path := backup_path e;
     backup_file := backup_file e;
     enabled := enabled e; pause := pause e; speed := speed e;
     unbounded := v; backup_type := backup_type e;
     rtc_autodetect := rtc_autodetect e; rtc_enabled := rtc_enabled e |}.

Definition set_emulation (a : app) (e : emulation) : app :=
  {| app_emulation := e;
     joystick_right := joystick_right a; joystick_left := joystick_left a;
     joystick_down := joystick_down a; joystick_up := joystick_up a;
     errors := errors a; pushed := pushed a |}.

Definition set_joystick (a : app) (r l d u : bool) : app :=
  {| app_emulation := app_emulation a;
     joystick_right := r; joystick_left := l;
     joystick_down := d; joystick_up := u;
     errors := errors a; pushed := pushed a |}.

(** [gui_new_error(app, error_msg)] *)
Definition gui_new_error (a : app) (e : gui_error) : app :=
  {| app_emulation := app_emulation a;
     joystick_right := joystick_right a; joystick_left := joystick_left a;
     joystick_down := joystick_down a; joystick_up := joystick_up a;
     errors := errors a ++ [e]; pushed := pushed a |}.

(** [gba_message_push(app->emulation.gba, m)] *)
Definition push (a : app) (m : message) : app :=
  {| app_emulation := app_emulation a;
     joystick_right := joystick_right a; joystick_left := joystick_left a;
     joystick_down := joystick_down a; joystick_up := joystick_up a;
     errors := errors a; pushed := pushed a ++ [m] |}.

(** *** The loaders *)

Section Game.

Context `{FE : Frontend}.

(** The record a [NEW_MESSAGE_...] macro builds for a tag and its fields. *)
Definition NEW_MESSAGE (t : message_type) : message :=
  {| type := t; size := sizeof_message t |}.

(** [fread(data, 1, n, file)] into a buffer of [n] zero bytes from
    [calloc(1, n)]: the number of bytes delivered and the buffer. *)
Definition fread (f : file) (n : Z) : Z * list byte :=
  let k := Z.min n (Z.of_nat (length (file_bytes f))) in
  (k, take (Z.to_nat k) (file_bytes f) ++ replicate (Z.to_nat (n - k)) Byte.x00).

(** Each loader returns [true] on error. [NEW_MESSAGE_LOAD_BIOS] is given
    the buffer and the callback only; the size it records is taken to be
    [BIOS_SIZE], the size of the buffer. *)
Definition load_bios (a : app) : app * bool :=
  match fopen_rb (bios_path (app_emulation a)) with
  | None => (gui_new_error a ERR_OPEN_BIOS, true)
  | Some f =>
    if negb (file_len f =? 0x4000) then (gui_new_error a ERR_INVALID_BIOS, true)
    else
      let (n, data) := fread f BIOS_SIZE in
      if negb (n =? BIOS_SIZE) then (gui_new_error a ERR_READ_BIOS, true)
      else
        (push a (NEW_MESSAGE (MESSAGE_LOAD_BIOS
                   {| data := data; data_size := BIOS_SIZE; cleanup := Some free |})),
         false)
  end.

Definition load_rom (a : app) : app * bool :=
  match fopen_rb (game_path (app_emulation a)) with
  | None => (gui_new_error a ERR_OPEN_ROM, true)
  | Some f =>
    let file_len := file_len f in
    if (CART_SIZE <? file_len) || (file_len <? 192)
    then (gui_new_error a ERR_INVALID_ROM, true)
    else
      let (n, data) := fread f file_len in
      if negb (n =? file_len) then (gui_new_error a ERR_READ_ROM, true)
      else
        let rtc_state :=
          if rtc_autodetect (app_emulation a) then DEVICE_AUTO_DETECT
          else if rtc_enabled (app_emulation a) then DEVICE_ENABLED
               else DEVICE_DISABLED in
        let a := push a (NEW_MESSAGE (MESSAGE_LOAD_ROM
                   {| data := data; data_size := file_len; cleanup := Some free |})) in
        let a := push a (NEW_MESSAGE
                   (MESSAGE_BACKUP_TYPE (backup_type (app_emulation a)))) in
        let a := push a (NEW_MESSAGE (MESSAGE_RTC rtc_state)) in
        (a, false)
  end.

(** [fopen] on a null path fails, as the C library has it. The earlier
    save file, if one is open, is closed by the assignment of the new one. *)
Definition load_save (a : app) : app * bool :=
  let opened :=
    match backup_path (app_emulation a) with
    | Some p => fopen_rb_plus p
    | None => None
    end in
  match opened with
  | Some f =>
    let a := set_emulation a
               (set_backup_file (app_emulation a) (backup_path (app_emulation a))) in
    let file_len := file_len f in
    let (read_len, data) := fread f file_len in
    if negb (read_len =? file_len) then (a, false)
    else
      (push a (NEW_MESSAGE (MESSAGE_LOAD_BACKUP
                 {| data := data; data_size := file_len; cleanup := Some free |})),
       false)
  | None =>
    let created :=
      match backup_path (app_emulation a) with
      | Some p => fopen_wb_plus p
      | None => false
      end in
    if created
    then (set_emulation a
            (set_backup_file (app_emulation a) (backup_path (app_emulation a))),
          false)
    else (gui_new_error
            (set_emulation a (set_backup_file (app_emulation a) None))
            ERR_CREATE_SAVE,
          true)
  end.

(** *** The commands of the GUI *)

(** [app->emulation.speed * !app->emulation.unbounded] *)
Definition run_speed (a : app) : Z :=
  speed (app_emulation a) * (if unbounded (app_emulation a) then 0 else 1).

Definition gui_game_run (a : app) : app :=
  push a (NEW_MESSAGE (MESSAGE_RUN (run_speed a))).

Definition gui_game_pause (a : app) : app :=
  push a (NEW_MESSAGE MESSAGE_PAUSE).

Definition gui_game_stop (a : app) : app :=
  let a := set_emulation a (set_pause (set_enabled (app_emulation a) false) true) in
  let a := push a (NEW_MESSAGE MESSAGE_PAUSE) in
  push a (NEW_MESSAGE MESSAGE_RESET).

Definition gui_game_quicksave (a : app) : app :=
  push a (new_message_quicksave (qsave_path (app_emulation a))).

Definition gui_game_quickload (a : app) : app :=
  push a (new_message_quickload (qsave_path (app_emulation a))).

Definition gui_game_set_backup_type (a : app) : app :=
  push a (NEW_MESSAGE (MESSAGE_BACKUP_TYPE (backup_type (app_emulation a)))).

(** [strrchr(s, c) - s]: the index of the last [c] of [s]. *)
Fixpoint strrchr (s : path) (c : byte) : option nat :=
  match s with
  | [] => None
  | x :: s' =>
    match strrchr s' c with
    | Some i => Some (S i)
    | None => if Byte.eqb x c then Some O else None
    end
  end.

(** [".hds"] and [".sav"] *)
Definition dot : byte := Byte.x2e.
Definition hds : path := [Byte.x2e; Byte.x68; Byte.x64; Byte.x73].
Definition sav : path := [Byte.x2e; Byte.x73; Byte.x61; Byte.x76].

Definition base_len (game : path) : nat :=
  match strrchr game dot with
  | Some i => i
  | None => length game
  end.

Definition gui_game_reset (a : app) : app :=
  let a := gui_push_recent_roms a in
  let game := game_path (app_emulation a) in
  let a := set_emulation a
             (set_paths (app_emulation a)
                (Some (take (base_len game) game ++ hds))
                (Some (take (base_len game) game ++ sav))) in
  let a := push a (NEW_MESSAGE MESSAGE_PAUSE) in
  let a := push a (NEW_MESSAGE MESSAGE_RESET) in
  let (a, failed) := load_bios a in
  let (a, failed) := if failed then (a, true) else load_rom a in
  let (a, failed) := if failed then (a, true) else load_save a in
  if failed
  then set_emulation a (set_enabled (app_emulation a) false)
  else
    let a := set_emulation a (set_pause (set_enabled (app_emulation a) true) false) in
    let a := push a (NEW_MESSAGE MESSAGE_RESET) in
    gui_game_run a.

(** *** [gui_game_handle_events] *)

Definition key (a : app) (k : keys) (pressed : bool) : app :=
  push a (NEW_MESSAGE (MESSAGE_KEYINPUT k pressed)).

Definition gui_game_handle_events (a : app) (event : SDL_Event) : app :=
  match event with
  | SDL_KEYDOWN key_repeat sym =>
    if negb (key_repeat =? 0) then a
    else
      match sym with
      | SDLK_UP | SDLK_w => key a KEY_UP true
      | SDLK_DOWN | SDLK_s => key a KEY_DOWN true
      | SDLK_LEFT | SDLK_a => key a KEY_LEFT true
      | SDLK_RIGHT | SDLK_d => key a KEY_RIGHT true
      | SDLK_p => key a KEY_A true
      | SDLK_l => key a KEY_B true
      | SDLK_e => key a KEY_L true
      | SDLK_o => key a KEY_R true
      | SDLK_BACKSPACE => key a KEY_SELECT true
      | SDLK_RETURN => key a KEY_START true
      | _ => a
      end
  | SDL_KEYUP key_repeat sym =>
    if negb (key_repeat =? 0) then a
    else
      match sym with
      | SDLK_UP | SDLK_w => key a KEY_UP false
      | SDLK_DOWN | SDLK_s => key a KEY_DOWN false
      | SDLK_LEFT | SDLK_a => key a KEY_LEFT false
      | SDLK_RIGHT | SDLK_d => key a KEY_RIGHT false
      | SDLK_p => key a KEY_A false
      | SDLK_l => key a KEY_B false
      | SDLK_e => key a KEY_L false
      | SDLK_o => key a KEY_R false
      | SDLK_BACKSPACE => key a KEY_SELECT false
      | SDLK_RETURN => key a KEY_START false
      | SDLK_F1 =>
        let a := set_emulation a
                   (set_unbounded (app_emulation a)
                      (xorb (unbounded (app_emulation a)) true)) in
        push a (NEW_MESSAGE (MESSAGE_RUN (run_speed a)))
      | SDLK_F2 => gui_game_screenshot a
      | SDLK_F5 => gui_game_quicksave a
      | SDLK_F8 => gui_game_quickload a
      | SDLK_OTHER => a
      end
  | SDL_CONTROLLERBUTTONDOWN button =>
    match button with
    | SDL_CONTROLLER_BUTTON_B => key a KEY_B true
    | SDL_CONTROLLER_BUTTON_A => key a KEY_A true
    | SDL_CONTROLLER_BUTTON_Y => key a KEY_A true
    | SDL_CONTROLLER_BUTTON_X => key a KEY_B true
    | SDL_CONTROLLER_BUTTON_DPAD_LEFT => key a KEY_LEFT true
    | SDL_CONTROLLER_BUTTON_DPAD_RIGHT => key a KEY_RIGHT true
    | SDL_CONTROLLER_BUTTON_DPAD_UP => key a KEY_UP true
    | SDL_CONTROLLER_BUTTON_DPAD_DOWN => key a KEY_DOWN true
    | SDL_CONTROLLER_BUTTON_LEFTSHOULDER => key a KEY_L true
    | SDL_CONTROLLER_BUTTON_RIGHTSHOULDER => key a KEY_R true
    | SDL_CONTROLLER_BUTTON_START => key a KEY_START true
    | SDL_CONTROLLER_BUTTON_BACK => key a KEY_SELECT true
    | _ => a
    end
  | SDL_CONTROLLERBUTTONUP button =>
    match button with
    | SDL_CONTROLLER_BUTTON_B => key a KEY_B false
    | SDL_CONTROLLER_BUTTON_A => key a KEY_A false
    | SDL_CONTROLLER_BUTTON_Y => key a KEY_A false
    | SDL_CONTROLLER_BUTTON_X => key a KEY_B false
    | SDL_CONTROLLER_BUTTON_DPAD_LEFT => key a KEY_LEFT false
    | SDL_CONTROLLER_BUTTON_DPAD_RIGHT => key a KEY_RIGHT false
    | SDL_CONTROLLER_BUTTON_DPAD_UP => key a KEY_UP false
    | SDL_CONTROLLER_BUTTON_DPAD_DOWN => key a KEY_DOWN false
    | SDL_CONTROLLER_BUTTON_LEFTSHOULDER => key a KEY_L false
    | SDL_CONTROLLER_BUTTON_RIGHTSHOULDER => key a KEY_R false
    | SDL_CONTROLLER_BUTTON_START => key a KEY_START false
    | SDL_CONTROLLER_BUTTON_BACK => key a KEY_SELECT false
    | SDL_CONTROLLER_BUTTON_MISC1 =>
      if sdl_has_misc1 then gui_game_screenshot a else a
    | SDL_CONTROLLER_BUTTON_OTHER => a
    end
  | SDL_CONTROLLERAXISMOTION axis value =>
    let state_a := Z.quot INT16_MAX 2 <=? value in
    let state_b := value <=? Z.quot INT16_MIN 2 in
    if (axis =? 0) && negb (eqb state_a (joystick_right a)) then
      let a := key a KEY_RIGHT state_a in
      set_joystick a state_a (joystick_left a) (joystick_down a) (joystick_up a)
    else if (axis =? 0) && negb (eqb state_b (joystick_left a)) then
      let a := key a KEY_LEFT state_b in
      set_joystick a (joystick_right a) state_b (joystick_down a) (joystick_up a)
    else if (axis =? 1) && negb (eqb state_a (joystick_down a)) then
      let a := key a KEY_DOWN state_a in
      set_joystick a (joystick_right a) (joystick_left a) state_a (joystick_up a)
    else if (axis =? 1) && negb (eqb state_b (joystick_up a)) then
      let a := key a KEY_UP state_b in
      set_joystick a (joystick_right a) (joystick_left a) (joystick_down a) state_b
    else a
  | SDL_OTHER_EVENT => a
  end.

End Game.

End Gui.

(** ** Concrete states for the front-end *)

Module GuiSamples.

Import Bus Gba Gui Samples.

(** A core without memory. *)
Definition core0 : core :=
  {| Bus.memory := []; memory_size := 0; big_endian := false |}.

Fixpoint path_eqb (p q : path) : bool :=
  match p, q with
  | [], [] => true
  | x :: p', y :: q' => Byte.eqb x y && path_eqb p' q'
  | _, _ => false
  end.

(** ["b"] and ["g.gba"] *)
Definition bios_file : path := [Byte.x62].
Definition game_file : path := [Byte.x67; Byte.x2e; Byte.x67; Byte.x62; Byte.x61].

(** A desk with a BIOS of 16 KiB of [0xff], a ROM of 192 bytes and no save
    file yet, on a disk that lets the save file be created. *)
#[export] Instance desk : Frontend := {|
  sizeof_message := fun _ => 16;
  new_message_quicksave := fun p =>
    msg (MESSAGE_QUICKSAVE {| data := default [] p;
                              data_size := Z.of_nat (length (default [] p));
                              cleanup := None |});
  new_message_quickload := fun p =>
    msg (MESSAGE_QUICKLOAD {| data := default [] p;
                              data_size := Z.of_nat (length (default [] p));
                              cleanup := None |});
  gui_game_screenshot := fun a => a;
  gui_push_recent_roms := fun a => a;
  sdl_has_misc1 := true;
  fopen_rb := fun p =>
    if path_eqb p bios_file
    then Some {| file_len := 0x4000;
                 file_bytes := replicate (Z.to_nat 0x4000) Byte.xff |}
    else if path_eqb p game_file
         then Some {| file_len := 192;
                      file_bytes := replicate (Z.to_nat 192) Byte.x01 |}
         else None;
  fopen_rb_plus := fun _ => None;
  fopen_wb_plus := fun _ => true
|}.

Definition app0 : app :=
  {| app_emulation :=
       {| bios_path := bios_file; game_path := game_file;
          qsave_path := None; backup_path := None; backup_file := None;
          enabled := false; pause := true; Gui.speed := 1; unbounded := false;
          backup_type := BACKUP_SRAM;
          rtc_autodetect := true; Gui.rtc_enabled := false |};
     joystick_right := false; joystick_left := false;
     joystick_down := false; joystick_up := false;
     errors := []; pushed := [] |}.

(** The same desk with the stick held to the left. *)
Definition app_left : app := set_joystick app0 false true false false.

(** A ROM image of 192 bytes. *)
Definition rom_image : message_data :=
  {| data := replicate (Z.to_nat 192) Byte.x01;
     data_size := 192;
     cleanup := Some free |}.

End GuiSamples.

(** ** Properties of the memory bus *)

Module BusFacts.

Import Bus.

Lemma byte_to_Z_range (b : byte) : 0 <= byte_to_Z b < 256.
Proof.
  unfold byte_to_Z. pose proof (Byte.to_N_bounded b). lia.
Qed.

Lemma byte_to_of_Z (z : Z) : byte_to_Z (byte_of_Z z) = z mod 256.
Proof.
  unfold byte_to_Z, byte_of_Z.
  assert (Hr : 0 <= z mod 256 < 256) by (apply Z.mod_pos_bound; lia).
  destruct (Byte.of_N (Z.to_N (z mod 256))) as [b|] eqn:E.
  - apply Byte.to_of_N in E. simpl. rewrite E. lia.
  - apply Byte.of_N_None_iff in E. lia.
Qed.

Lemma lor_disjoint (x k m : Z) :
  0 <= m -> 0 <= x < 2 ^ m -> Z.lor x (k * 2 ^ m) = x + k * 2 ^ m.
Proof.
  intros Hm Hx.
  assert (Hland : Z.land x (k * 2 ^ m) = 0).
  { apply Z.bits_inj'. intros i Hi. rewrite Z.land_spec, Z.bits_0.
    destruct (Z.ltb_spec i m).
    - rewrite Z.mul_pow2_bits_low by lia. apply andb_false_r.
    - replace x with (x mod 2 ^ m) by (apply Z.mod_small; lia).
      rewrite Z.mod_pow2_bits_high by lia. reflexivity. }
  rewrite <- Z.lxor_lor by exact Hland.
  symmetry. apply Z.add_nocarry_lxor. exact Hland.
Qed.

Lemma rotate_is_ror32 (sh : shifter) (v n : Z) :
  0 <= v < 2 ^ 32 -> 0 < n < 32 ->
  Z.lor (shr32 v n) (shl32 sh v (32 - n)) = ror32 v n.
Proof.
  intros Hv Hn. unfold shr32, shl32, ror32, u32.
  destruct (Z.ltb_spec (32 - n) 32); [|lia].
  rewrite Z.shiftr_div_pow2, Z.shiftl_mul_pow2 by lia.
  replace (2 ^ 32) with (2 ^ n * 2 ^ (32 - n))
    by (rewrite <- Z.pow_add_r by lia; f_equal; lia).
  rewrite Z.mul_mod_distr_r by lia.
  apply lor_disjoint; [lia|].
  split; [apply Z.div_pos; lia|].
  apply Z.div_lt_upper_bound; [lia|].
  rewrite <- Z.pow_add_r by lia. replace (n + (32 - n)) with 32 by lia. lia.
Qed.

Lemma rotate_by_zero (sh : shifter) (v : Z) :
  0 <= v < 2 ^ 32 -> Z.lor (shr32 v 0) (shl32 sh v (32 - 0)) = v.
Proof.
  intros Hv. unfold shr32, shl32, u32.
  change (32 - 0 <? 32) with false. cbv iota.
  rewrite Z.shiftr_0_r.
  destruct sh.
  - change ((32 - 0) mod 32) with 0.
    rewrite Z.shiftl_0_r, Z.mod_small by lia. apply Z.lor_diag.
  - apply Z.lor_0_r.
Qed.

Lemma align2 (a : Z) : 0 <= a < 2 ^ 32 -> Z.land a 0xFFFFFFFE = a - a mod 2.
Proof.
  intros Ha.
  replace (a - a mod 2) with (2 * (a / 2)) by (pose proof (Z.div_mod a 2); lia).
  apply Z.bits_inj'. intros i Hi. rewrite Z.land_spec.
  destruct (Z.eq_dec i 0) as [->|Hne].
  - rewrite Z.testbit_even_0. apply andb_false_r.
  - replace i with (Z.succ (i - 1)) by lia.
    rewrite Z.testbit_even_succ by lia.
    change 0xFFFFFFFE with (2 * Z.ones 31).
    rewrite Z.testbit_even_succ by lia.
    rewrite <- Z.div2_div, Z.div2_spec, Z.shiftr_spec by lia.
    replace (i - 1 + 1) with (Z.succ (i - 1)) by lia.
    destruct (Z.ltb_spec (i - 1) 31).
    + rewrite Z.ones_spec_low by lia. apply andb_true_r.
    + rewrite Z.ones_spec_high by lia. rewrite andb_false_r.
      replace a with (a mod 2 ^ 32) by (apply Z.mod_small; lia).
      symmetry. apply Z.mod_pow2_bits_high. lia.
Qed.

Lemma size_sub_small (n k : Z) : k <= n < 2 ^ SIZE_BITS -> 0 <= k -> size_sub n k = n - k.
Proof. intros Hn Hk. unfold size_sub. apply Z.mod_small. lia. Qed.

Lemma load_bytes_two (m : list byte) (a : Z) (b0 b1 : byte) :
  0 <= a -> m !! Z.to_nat a = Some b0 -> m !! Z.to_nat (a + 1) = Some b1 ->
  load_bytes m a 2 = Some [b0; b1].
Proof.
  intros Ha H0 H1. unfold load_bytes.
  pose proof (lookup_lt_Some _ _ _ H1) as Hlt.
  destruct (Z.leb_spec 0 a); [|lia].
  destruct (Z.leb_spec (a + Z.of_nat 2) (Z.of_nat (length m))); [|lia].
  simpl. f_equal.
  rewrite (drop_S _ _ _ H0).
  replace (Z.to_nat (a + 1)) with (S (Z.to_nat a)) in H1 by lia.
  rewrite (drop_S _ _ _ H1). reflexivity.
Qed.

Lemma read8_in_range (c : core) (a : Z) :
  wf_core c -> 0 <= a < memory_size c ->
  exists b, memory c !! Z.to_nat a = Some b /\ core_bus_read8 c a = Ok b.
Proof.
  intros [Hsz _] Ha.
  destruct (lookup_lt_is_Some_2 (memory c) (Z.to_nat a)) as [b Hb]; [lia|].
  exists b. split; [exact Hb|].
  unfold core_bus_read8. destruct (Z.leb_spec (memory_size c) a); [lia|].
  rewrite Hb. reflexivity.
Qed.

(** C4: on a core whose [memory_size] is the size of its buffer, a 16-bit
    read at an in-range address takes the two bytes at the address aligned
    down to a halfword, weighs them by the endianness of the core into a
    halfword below [2 ^ 16], and returns it rotated right by 8 bits within 32
    bits when the address is odd, as it is when the address is even. *)
Theorem read16_rotates_odd_address (sh : shifter) (c : core) (a : Z) :
  wf_core c -> 0 <= a < 2 ^ 32 -> Z.land a 0xFFFFFFFE + 1 < memory_size c ->
  exists b0 b1 : byte,
    core_bus_read8 c (Z.land a 0xFFFFFFFE) = Ok b0 /\
    core_bus_read8 c (Z.land a 0xFFFFFFFE + 1) = Ok b1 /\
    let h := if big_endian c
             then 256 * byte_to_Z b0 + byte_to_Z b1
             else byte_to_Z b0 + 256 * byte_to_Z b1 in
    0 <= h < 2 ^ 16 /\
    core_bus_read16 sh c a = Ok (if Z.odd a then ror32 h 8 else h).
Proof.
  intros Hwf Ha Hin.
  assert (Hal : 0 <= Z.land a 0xFFFFFFFE)
    by (rewrite align2 by exact Ha; pose proof (Z.mod_pos_bound a 2); pose proof (Z.mod_le a 2); lia).
  set (a' := Z.land a 0xFFFFFFFE) in *.
  destruct (read8_in_range c a' Hwf) as (b0 & Hb0 & Hr0); [lia|].
  destruct (read8_in_range c (a' + 1) Hwf) as (b1 & Hb1 & Hr1); [lia|].
  exists b0, b1. split; [exact Hr0|]. split; [exact Hr1|].
  pose proof (byte_to_Z_range b0). pose proof (byte_to_Z_range b1).
  cbv zeta.
  set (h := if big_endian c then _ else _).
  assert (Hh : 0 <= h < 2 ^ 16) by (subst h; destruct (big_endian c); lia).
  split; [exact Hh|].
  unfold core_bus_read16. fold a'.
  destruct Hwf as [Hsz Hmax].
  rewrite size_sub_small by lia.
  destruct (Z.leb_spec (memory_size c - 1) a'); [lia|].
  unfold load_value. rewrite (load_bytes_two _ _ _ _ Hal Hb0 Hb1).
  assert (Hv : (if big_endian c then be_value else le_value) [b0; b1] = h).
  { subst h. destruct (big_endian c); unfold be_value; simpl; lia. }
  simpl fmap. rewrite Hv. f_equal.
  rewrite Zmod_odd. destruct (Z.odd a).
  - change (Z.shiftl 1 3) with 8. apply rotate_is_ror32; lia.
  - change (Z.shiftl 0 3) with 0. apply rotate_by_zero; lia.
Qed.

Lemma store_bytes_lookup (m : list byte) (a : Z) (bs : list byte) :
  0 <= a -> a + Z.of_nat (length bs) <= Z.of_nat (length m) ->
  exists m',
    store_bytes m a bs = Some m' /\
    length m' = length m /\
    (forall (k : nat) (b : byte),
       bs !! k = Some b -> m' !! Z.to_nat (a + Z.of_nat k) = Some b) /\
    (forall i : nat,
       (i < Z.to_nat a)%nat \/ (Z.to_nat a + length bs <= i)%nat -> m' !! i = m !! i).
Proof.
  intros Ha Hfit. eexists. unfold store_bytes.
  destruct (Z.leb_spec 0 a); [|lia].
  destruct (Z.leb_spec (a + Z.of_nat (length bs)) (Z.of_nat (length m))); [|lia].
  split; [reflexivity|].
  assert (Hta : length (take (Z.to_nat a) m) = Z.to_nat a)
    by (rewrite length_take; lia).
  split; [|split].
  - rewrite !length_app, Hta, length_drop. lia.
  - intros k b Hk. pose proof (lookup_lt_Some _ _ _ Hk).
    rewrite lookup_app_r by lia. rewrite Hta.
    replace (Z.to_nat (a + Z.of_nat k) - Z.to_nat a)%nat with k by lia.
    rewrite lookup_app_l by lia. exact Hk.
  - intros i [Hi|Hi].
    + rewrite lookup_app_l by lia. apply lookup_take_lt. lia.
    + rewrite lookup_app_r by lia. rewrite Hta.
      rewrite lookup_app_r by lia. rewrite lookup_drop. f_equal. lia.
Qed.

Lemma store_value_stored_at (c : core) (a : Z) (n : nat) (v : Z) (bs : list byte) :
  wf_core c -> 0 <= a -> a + Z.of_nat n <= memory_size c ->
  (if big_endian c then be_bytes else le_bytes) n v = bs -> length bs = n ->
  exists m',
    store_value (big_endian c) (memory c) a n v = Some m' /\
    stored_at c (set_memory c m') a bs.
Proof.
  intros [Hsz Hmax] Ha Hfit Hbs Hlen. unfold store_value. rewrite Hbs.
  destruct (store_bytes_lookup (memory c) a bs Ha) as (m' & Hst & Hl & Hin & Hout);
    [lia|].
  exists m'. split; [exact Hst|].
  split; [reflexivity|]. split; [reflexivity|]. split.
  - intros k b Hk. pose proof (lookup_lt_Some _ _ _ Hk).
    unfold core_bus_read8. simpl.
    destruct (Z.leb_spec (memory_size c) (a + Z.of_nat k)); [lia|].
    rewrite (Hin k b Hk). reflexivity.
  - intros i Hi Hfar. unfold core_bus_read8. simpl.
    rewrite Hout by lia. reflexivity.
Qed.

(** C3, amended: a 16-bit write stores its two bytes at [a] and [a + 1] and
    a 32-bit write its four bytes at [a] to [a + 3], whether [a] is aligned or
    not: the address is used as it comes and nothing else of the core
    changes. *)
Theorem writes_keep_the_address (c : core) (a v : Z) :
  wf_core c -> 0 <= a ->
  (a + 1 < memory_size c ->
   exists c',
     core_bus_write16 c a v = Ok c' /\
     stored_at c c' a
       (if big_endian c
        then [byte_of_Z (v / 2 ^ 8); byte_of_Z v]
        else [byte_of_Z v; byte_of_Z (v / 2 ^ 8)])) /\
  (a + 3 < memory_size c ->
   exists c',
     core_bus_write32 c a v = Ok c' /\
     stored_at c c' a
       (if big_endian c
        then [byte_of_Z (v / 2 ^ 24); byte_of_Z (v / 2 ^ 16);
              byte_of_Z (v / 2 ^ 8); byte_of_Z v]
        else [byte_of_Z v; byte_of_Z (v / 2 ^ 8);
              byte_of_Z (v / 2 ^ 16); byte_of_Z (v / 2 ^ 24)])).
Proof.
  intros Hwf Ha. pose proof Hwf as [Hsz Hmax]. split; intros Hin.
  - destruct (store_value_stored_at c a 2 v
                (if big_endian c
                 then [byte_of_Z (v / 2 ^ 8); byte_of_Z v]
                 else [byte_of_Z v; byte_of_Z (v / 2 ^ 8)]) Hwf Ha)
      as (m' & Hst & Hat); [lia | | |].
    + destruct (big_endian c); reflexivity.
    + destruct (big_endian c); reflexivity.
    + exists (set_memory c m'). split; [|exact Hat].
      unfold core_bus_write16. rewrite size_sub_small by lia.
      destruct (Z.leb_spec (memory_size c - 1) a); [lia|].
      rewrite Hst. reflexivity.
  - assert (H16 : v / 256 / 256 = v / 2 ^ 16) by (rewrite Z.div_div by lia; reflexivity).
    assert (H24 : v / 256 / 256 / 256 = v / 2 ^ 24)
      by (rewrite !Z.div_div by lia; reflexivity).
    destruct (store_value_stored_at c a 4 v
                (if big_endian c
                 then [byte_of_Z (v / 2 ^ 24); byte_of_Z (v / 2 ^ 16);
                       byte_of_Z (v / 2 ^ 8); byte_of_Z v]
                 else [byte_of_Z v; byte_of_Z (v / 2 ^ 8);
                       byte_of_Z (v / 2 ^ 16); byte_of_Z (v / 2 ^ 24)]) Hwf Ha)
      as (m' & Hst & Hat); [lia | | |].
    + destruct (big_endian c); unfold be_bytes; simpl; rewrite H24, H16; reflexivity.
    + destruct (big_endian c); reflexivity.
    + exists (set_memory c m'). split; [|exact Hat].
      unfold core_bus_write32. rewrite size_sub_small by lia.
      destruct (Z.leb_spec (memory_size c - 3) a); [lia|].
      rewrite Hst. reflexivity.
Qed.

(** C2, amended: at an address at or above [memory_size] the byte read and
    the byte write end in [panic]; so do the 16-bit and 32-bit reads and
    writes on a core of at least three bytes. No value is read and nothing is
    stored. *)
Theorem out_of_range_access_panics (sh : shifter) (c : core) (a : Z) :
  0 <= a < 2 ^ 32 -> memory_size c <= a ->
  core_bus_read8 c a = Panic /\
  (forall val : byte, core_bus_write8 c a val = Panic) /\
  (3 <= memory_size c ->
   core_bus_read16 sh c a = Panic /\
   core_bus_read32 sh c a = Panic /\
   (forall val : Z, core_bus_write16 c a val = Panic) /\
   (forall val : Z, core_bus_write32 c a val = Panic)).
Proof.
  intros Ha Hout.
  assert (Hal : a - 1 <= Z.land a 0xFFFFFFFE)
    by (rewrite align2 by exact Ha; pose proof (Z.mod_pos_bound a 2); lia).
  split; [|split].
  - unfold core_bus_read8. destruct (Z.leb_spec (memory_size c) a); [reflexivity|lia].
  - intros val. unfold core_bus_write8.
    destruct (Z.leb_spec (memory_size c) a); [reflexivity|lia].
  - intros Hms.
    assert (Hmax : memory_size c < 2 ^ SIZE_BITS) by (unfold SIZE_BITS; lia).
    unfold core_bus_read16, core_bus_read32, core_bus_write16, core_bus_write32.
    cbv zeta. rewrite !size_sub_small by lia.
    destruct (Z.leb_spec (memory_size c - 1) (Z.land a 0xFFFFFFFE)); [|lia].
    destruct (Z.leb_spec (memory_size c - 3) (Z.land a 0xFFFFFFFE)); [|lia].
    destruct (Z.leb_spec (memory_size c - 1) a); [|lia].
    destruct (Z.leb_spec (memory_size c - 3) a); [|lia].
    repeat split; reflexivity.
Qed.
(** *** The theorems at work on the sample core *)

Import Samples.

Lemma wf_core8 (big : bool) : wf_core (core8 big).
Proof. split; reflexivity. Defined.

Lemma read16_rotates_odd_address_witness :
  wf_core (core8 false) /\
  0 <= 1 < 2 ^ 32 /\
  Z.land 1 0xFFFFFFFE + 1 < memory_size (core8 false) /\
  exists b0 b1 : byte,
    core_bus_read8 (core8 false) 0 = Ok b0 /\
    core_bus_read8 (core8 false) 1 = Ok b1 /\
    0 <= byte_to_Z b0 + 256 * byte_to_Z b1 < 2 ^ 16 /\
    core_bus_read16 ShiftCountMasked (core8 false) 1 =
      Ok (ror32 (byte_to_Z b0 + 256 * byte_to_Z b1) 8).
Proof.
  assert (H1 : wf_core (core8 false)) by exact (wf_core8 false).
  assert (H2 : 0 <= 1 < 2 ^ 32) by lia.
  assert (H3 : Z.land 1 0xFFFFFFFE + 1 < memory_size (core8 false)) by reflexivity.
  repeat (split; [assumption|]).
  exact (read16_rotates_odd_address ShiftCountMasked (core8 false) 1 H1 H2 H3).
Defined.

(** C3 as the specification states it fails: the halfword written at
    address 1 lands at 1 and 2 and leaves the byte at 0, the word written at
    address 2 lands at 2 to 5; neither is the write at the aligned address. *)
Lemma unaligned_write_is_not_aligned_down :
  core_bus_write16 (core8 false) 1 0xBEEF <>
    core_bus_write16 (core8 false) (Z.land 1 0xFFFFFFFE) 0xBEEF /\
  core_bus_write32 (core8 false) 2 0xDEADBEEF <>
    core_bus_write32 (core8 false) (Z.land 2 0xFFFFFFFC) 0xDEADBEEF /\
  core_bus_write16 (core8 false) 1 0xBEEF =
    Ok (set_memory (core8 false)
          [Byte.x11; Byte.xef; Byte.xbe; Byte.x44;
           Byte.x55; Byte.x66; Byte.x77; Byte.x88]) /\
  core_bus_write32 (core8 false) 2 0xDEADBEEF =
    Ok (set_memory (core8 false)
          [Byte.x11; Byte.x22; Byte.xef; Byte.xbe;
           Byte.xad; Byte.xde; Byte.x77; Byte.x88]).
Proof.
  repeat split; try (vm_compute; reflexivity); vm_compute; discriminate.
Qed.

Lemma writes_keep_the_address_witness :
  wf_core (core8 false) /\
  0 <= 1 /\
  1 + 1 < memory_size (core8 false) /\
  1 + 3 < memory_size (core8 false) /\
  (exists c',
     core_bus_write16 (core8 false) 1 0xBEEF = Ok c' /\
     stored_at (core8 false) c' 1 [byte_of_Z 0xBEEF; byte_of_Z (0xBEEF / 2 ^ 8)]) /\
  (exists c',
     core_bus_write32 (core8 false) 1 0xBEEF = Ok c' /\
     stored_at (core8 false) c' 1
       [byte_of_Z 0xBEEF; byte_of_Z (0xBEEF / 2 ^ 8);
        byte_of_Z (0xBEEF / 2 ^ 16); byte_of_Z (0xBEEF / 2 ^ 24)]).
Proof.
  assert (H1 : wf_core (core8 false)) by exact (wf_core8 false).
  assert (H2 : 0 <= 1) by lia.
  assert (H3 : 1 + 1 < memory_size (core8 false)) by reflexivity.
  assert (H4 : 1 + 3 < memory_size (core8 false)) by reflexivity.
  repeat (split; [assumption|]).
  split.
  - exact (proj1 (writes_keep_the_address (core8 false) 1 0xBEEF H1 H2) H3).
  - exact (proj2 (writes_keep_the_address (core8 false) 1 0xBEEF H1 H2) H4).
Defined.

(** C2 as the specification states it fails: at address 8 of a core of eight
    bytes no read returns a value and the writes do not come back with the
    core; they end in [panic]. *)
Lemma out_of_range_access_is_no_open_bus :
  ~ (exists v, core_bus_read8 (core8 false) 8 = Ok v) /\
  ~ (exists v, core_bus_read16 ShiftCountMasked (core8 false) 8 = Ok v) /\
  ~ (exists v, core_bus_read32 ShiftCountMasked (core8 false) 8 = Ok v) /\
  core_bus_write8 (core8 false) 8 Byte.xff <> Ok (core8 false) /\
  core_bus_write16 (core8 false) 8 0xBEEF <> Ok (core8 false) /\
  core_bus_write32 (core8 false) 8 0xDEADBEEF <> Ok (core8 false).
Proof.
  repeat split; try (intros [v Hv]; vm_compute in Hv; discriminate Hv);
    vm_compute; discriminate.
Qed.

Lemma out_of_range_access_panics_witness :
  0 <= 8 < 2 ^ 32 /\
  memory_size (core8 false) <= 8 /\
  3 <= memory_size (core8 false) /\
  core_bus_read8 (core8 false) 8 = Panic /\
  (forall val : byte, core_bus_write8 (core8 false) 8 val = Panic) /\
  core_bus_read16 ShiftCountMasked (core8 false) 8 = Panic /\
  core_bus_read32 ShiftCountMasked (core8 false) 8 = Panic /\
  (forall val : Z, core_bus_write16 (core8 false) 8 val = Panic) /\
  (forall val : Z, core_bus_write32 (core8 false) 8 val = Panic).
Proof.
  assert (H1 : 0 <= 8 < 2 ^ 32) by lia.
  assert (H2 : memory_size (core8 false) <= 8) by (simpl; lia).
  assert (H3 : 3 <= memory_size (core8 false)) by (simpl; lia).
  repeat (split; [assumption|]).
  pose proof (out_of_range_access_panics ShiftCountMasked (core8 false) 8 H1 H2)
    as (R8 & W8 & Rest).
  destruct (Rest H3) as (R16 & R32 & W16 & W32).
  repeat split; assumption.
Defined.

(** C1 on the code: [core_bus_read32] clears bit 0 of the address only. At
    address 2 of the bytes [11 22 33 44 55 66 77 88] it loads the word at 2 and
    returns [0x44336655], at address 3 it loads the same word and returns
    [0x55443366]; the word at the aligned address 0 rotated by 16 and by 24
    bits is [0x22114433] and [0x33221144]. The property holds at address 1. *)
Theorem read32_clears_one_address_bit (sh : shifter) :
  core_bus_read32 sh (core8 false) (Z.land 2 0xFFFFFFFC) = Ok 0x44332211 /\
  core_bus_read32 sh (core8 false) 1 = Ok (ror32 0x44332211 (Z.land 1 3 * 8)) /\
  core_bus_read32 sh (core8 false) 2 = Ok 0x44336655 /\
  ror32 0x44332211 (Z.land 2 3 * 8) = 0x22114433 /\
  core_bus_read32 sh (core8 false) 3 = Ok 0x55443366 /\
  ror32 0x44332211 (Z.land 3 3 * 8) = 0x33221144.
Proof.
  destruct sh; vm_compute; repeat split.
Qed.

End BusFacts.

(** ** Properties of the run loop *)

Module GbaFacts.

Import Gba.

Section Loop.

Context {Hw Host : Type} `{HW : Hardware Hw Host}.

Implicit Types (M : machine Hw Host) (m : message) (buf : list message).

Ltac case_message m :=
  destruct m as [[ | d | d | d | t | | s | | k pr | d | d | f | c | dev] sz].

Lemma exec_message_not_exit m M :
  is_exit m = false -> exec_message m M = Running (apply_message M m).
Proof.
  intros Hm. unfold apply_message.
  destruct (exec_message m M) as [M'|M'|] eqn:E; try reflexivity; exfalso.
  - revert E. case_message m; try discriminate Hm; unfold exec_message; simpl;
      repeat match goal with |- context [if ?b then _ else _] => destruct b end;
      try discriminate. destruct dev; discriminate.
  - revert E. case_message m; try discriminate Hm; unfold exec_message; simpl;
      repeat match goal with |- context [if ?b then _ else _] => destruct b end;
      try discriminate. destruct dev; discriminate.
Qed.

Lemma apply_message_record m M :
  is_exit m = false ->
  apply_message M m =
  {| emu := emu (apply_message M m); mqueue := mqueue M;
     pace := pace (apply_message M m); host := host M;
     log := log M ++ cleanup_of m |}.
Proof.
  intros Hm. destruct M as [g q p h l].
  case_message m; try discriminate Hm;
    unfold apply_message, exec_message, cleanup_of, run_cleanup; simpl;
    repeat match goal with
           | |- context [cleanup ?d] => destruct (cleanup d)
           | |- context [if ?b then _ else _] => destruct b
           | |- context [match ?dev with DEVICE_AUTO_DETECT => _ | _ => _ end] => destruct dev
           end; simpl; rewrite ?app_nil_r; reflexivity.
Qed.

Lemma apply_message_frame m M1 M2 :
  emu M1 = emu M2 -> pace M1 = pace M2 ->
  emu (apply_message M1 m) = emu (apply_message M2 m) /\
  pace (apply_message M1 m) = pace (apply_message M2 m).
Proof.
  destruct M1 as [g1 q1 p1 h1 l1], M2 as [g2 q2 p2 h2 l2]. simpl.
  intros -> ->.
  case_message m;
    unfold apply_message, exec_message, run_cleanup; simpl;
    repeat match goal with
           | |- context [cleanup ?d] => destruct (cleanup d)
           | |- context [if ?b then _ else _] => destruct b
           | |- context [match ?dev with DEVICE_AUTO_DETECT => _ | _ => _ end] => destruct dev
           end; simpl; split; reflexivity.
Qed.

Lemma run_messages_frame buf M1 M2 :
  emu M1 = emu M2 -> pace M1 = pace M2 ->
  emu (run_messages buf M1) = emu (run_messages buf M2) /\
  pace (run_messages buf M1) = pace (run_messages buf M2).
Proof.
  revert M1 M2. induction buf as [|m buf IH]; intros M1 M2 He Hp; simpl.
  - split; assumption.
  - destruct (apply_message_frame m M1 M2 He Hp). apply IH; assumption.
Qed.

Lemma apply_message_fields m M :
  is_exit m = false ->
  mqueue (apply_message M m) = mqueue M /\
  host (apply_message M m) = host M /\
  log (apply_message M m) = log M ++ cleanup_of m.
Proof.
  intros Hm. rewrite (apply_message_record m M Hm). simpl. auto.
Qed.

Lemma run_messages_record buf M :
  existsb is_exit buf = false ->
  run_messages buf M =
  {| emu := emu (run_messages buf M); mqueue := mqueue M;
     pace := pace (run_messages buf M); host := host M;
     log := log M ++ cleanup_events buf |}.
Proof.
  unfold run_messages, cleanup_events.
  revert M. induction buf as [|m buf IH]; intros M Hex; simpl.
  - rewrite app_nil_r. destruct M; reflexivity.
  - simpl in Hex. apply orb_false_iff in Hex as [Hm Hbuf].
    rewrite (IH _ Hbuf) at 1.
    destruct (apply_message_fields m M Hm) as (-> & -> & ->).
    rewrite <- app_assoc. reflexivity.
Qed.

Lemma total_size_cons m buf : total_size (m :: buf) = size m + total_size buf.
Proof. reflexivity. Qed.

Lemma total_size_app buf1 buf2 :
  total_size (buf1 ++ buf2) = total_size buf1 + total_size buf2.
Proof.
  induction buf1 as [|m buf1 IH]; [reflexivity|].
  simpl app. rewrite !total_size_cons, IH. lia.
Qed.

Lemma length_le_total_size buf :
  Forall (fun m => 0 < size m) buf -> Z.of_nat (length buf) <= total_size buf.
Proof.
  induction 1 as [|m buf Hm _ IH]; [reflexivity|].
  rewrite total_size_cons. simpl length. lia.
Qed.

Lemma drain_prefix pre rest M :
  existsb is_exit pre = false ->
  mq_length (mqueue M) = Z.of_nat (length (pre ++ rest)) ->
  allocated_size (mqueue M) = total_size (pre ++ rest) ->
  Forall (fun m => 0 < size m) (pre ++ rest) ->
  total_size (pre ++ rest) < 2 ^ 64 ->
  drain (pre ++ rest) M =
  drain rest (set_mqueue (run_messages pre M)
                {| messages := messages (mqueue M);
                   mq_length := Z.of_nat (length rest);
                   allocated_size := total_size rest |}).
Proof.
  revert M. induction pre as [|m pre IH]; intros M Hex Hlen Hal Hpos Hmax.
  - destruct M as [g [ms len al] p h l]. simpl in *. subst. reflexivity.
  - simpl in Hex. apply orb_false_iff in Hex as [Hm Hpre].
    simpl app in *. rewrite total_size_cons in *.
    apply Forall_cons in Hpos as [Hsz Hpos].
    pose proof (length_le_total_size _ Hpos) as Hle.
    simpl length in Hlen.
    cbn [drain]. rewrite Hlen.
    destruct (Z.eqb_spec (Z.of_nat (S (length (pre ++ rest)))) 0) as [|_]; [lia|].
    rewrite (exec_message_not_exit m M Hm).
    destruct (apply_message_fields m M Hm) as (Hq & Hh & Hl).
    set (M1 := consume m (apply_message M m)).
    assert (Hq1 : mqueue M1 =
                  {| messages := messages (mqueue M);
                     mq_length := Z.of_nat (length (pre ++ rest));
                     allocated_size := total_size (pre ++ rest) |}).
    { subst M1. unfold consume. simpl. rewrite Hq, Hlen, Hal. unfold u64.
      rewrite !Z.mod_small by lia. f_equal; lia. }
    rewrite (IH M1 Hpre); rewrite ?Hq1; simpl; try (assumption || reflexivity || lia).
    f_equal.
    destruct (run_messages_frame pre M1 (apply_message M m)) as [He Hp];
      [reflexivity | reflexivity |].
    rewrite (run_messages_record pre M1 Hpre).
    change (run_messages (m :: pre) M) with (run_messages pre (apply_message M m)).
    rewrite (run_messages_record pre (apply_message M m) Hpre).
    unfold set_mqueue. simpl. rewrite He, Hp. reflexivity.
Qed.

Lemma buffer_prefix_total buf :
  Forall (fun m => 0 < size m) buf -> buffer_prefix (total_size buf) buf = Some buf.
Proof.
  induction 1 as [|m buf Hm Hpos IH]; [reflexivity|].
  pose proof (length_le_total_size _ Hpos).
  rewrite total_size_cons. cbn [buffer_prefix].
  destruct (Z.eqb_spec (size m + total_size buf) 0); [lia|].
  destruct (Z.ltb_spec 0 (size m)); [|lia].
  destruct (Z.leb_spec (size m) (size m + total_size buf)); [|lia].
  simpl andb. cbv iota.
  replace (size m + total_size buf - size m) with (total_size buf) by lia.
  rewrite IH. reflexivity.
Qed.

Lemma holds_queue_of buf :
  Forall (fun m => 0 < size m) buf -> total_size buf < 2 ^ 64 ->
  holds (queue_of buf) buf.
Proof. intros Hpos Hmax. repeat split; assumption. Qed.

Lemma holds_empty_queue : holds empty_queue [].
Proof.
  unfold holds, empty_queue. simpl.
  split; [reflexivity|]. split; [reflexivity|]. split; [reflexivity|].
  split; [constructor | reflexivity].
Qed.

Lemma push_one q buf m :
  holds q buf -> 0 < size m -> total_size (buf ++ [m]) < 2 ^ 64 ->
  gba_message_push q m = Some (queue_of (buf ++ [m])).
Proof.
  intros (Hbuf & Hlen & Hal & Hpos & _) Hm Hmax.
  pose proof (length_le_total_size _ Hpos).
  rewrite total_size_app, total_size_cons in Hmax.
  change (total_size []) with 0 in Hmax.
  unfold gba_message_push.
  destruct (Z.ltb_spec 0 (size m)); [|lia].
  rewrite Hbuf, Hal, (buffer_prefix_total _ Hpos), Hlen.
  unfold queue_of, u64. rewrite total_size_app, total_size_cons, length_app.
  change (total_size []) with 0. simpl length.
  rewrite !Z.mod_small by lia. do 2 f_equal; lia.
Qed.

Lemma push_all_holds batch : forall q buf,
  holds q buf ->
  Forall (fun m => 0 < size m) batch -> total_size (buf ++ batch) < 2 ^ 64 ->
  exists q', push_all batch q = Some q' /\ holds q' (buf ++ batch) /\
             (batch <> [] -> q' = queue_of (buf ++ batch)).
Proof.
  induction batch as [|m batch IH]; intros q buf Hq Hpos Hmax.
  - exists q. rewrite app_nil_r.
    split; [reflexivity|]. split; [exact Hq | congruence].
  - apply Forall_cons in Hpos as [Hm Hpos].
    pose proof (length_le_total_size _ Hpos).
    assert (Hmax1 : total_size (buf ++ [m]) < 2 ^ 64).
    { rewrite !total_size_app, !total_size_cons in *.
      change (total_size []) with 0. lia. }
    cbn [push_all]. rewrite (push_one q buf m Hq Hm Hmax1).
    assert (Hq1 : holds (queue_of (buf ++ [m])) (buf ++ [m])).
    { apply holds_queue_of; [|exact Hmax1].
      destruct Hq as (_ & _ & _ & Hp & _).
      apply Forall_app. split; [exact Hp|]. constructor; [exact Hm|constructor]. }
    replace (buf ++ m :: batch) with ((buf ++ [m]) ++ batch) in *
      by (rewrite <- app_assoc; reflexivity).
    destruct (IH _ _ Hq1 Hpos Hmax) as (q' & Hpush & Hholds & Heq).
    exists q'. split; [exact Hpush|]. split; [exact Hholds|].
    intros _. destruct batch as [|m' batch'].
    + simpl in Hpush. injection Hpush as <-. rewrite app_nil_r. reflexivity.
    + apply Heq. discriminate.
Qed.

Lemma drain_all buf M :
  holds (mqueue M) buf -> existsb is_exit buf = false ->
  drain buf M =
  Running (set_mqueue (run_messages buf M)
             {| messages := messages (mqueue M); mq_length := 0; allocated_size := 0 |}).
Proof.
  intros (Hbuf & Hlen & Hal & Hpos & Hmax) Hex.
  rewrite <- (app_nil_r buf) at 1.
  rewrite drain_prefix; rewrite ?app_nil_r; try assumption.
  reflexivity.
Qed.

Lemma run_messages_locked buf M q :
  existsb is_exit buf = false ->
  run_messages buf (emit (set_mqueue M q) EvLock) =
  {| emu := emu (run_messages buf M); mqueue := q;
     pace := pace (run_messages buf M); host := host M;
     log := (log M ++ [EvLock]) ++ cleanup_events buf |}.
Proof.
  intros Hex. rewrite (run_messages_record _ _ Hex).
  destruct (run_messages_frame buf (emit (set_mqueue M q) EvLock) M) as [-> ->];
    reflexivity.
Qed.

(** C7, amended: a turn of the loop whose batch holds no Exit applies every
    message of the batch in the order of the pushes before any emulation,
    empties the queue, and then runs the scheduler for [CYCLES_PER_FRAME]
    cycles exactly when the state is Run; after a batch that ends with Pause
    the state is Pause and no cycle is run. *)
Theorem iteration_drains_then_runs_frame M batch :
  mqueue M = empty_queue ->
  Forall (fun m => 0 < size m) batch ->
  total_size batch < 2 ^ 64 ->
  existsb is_exit batch = false ->
  drains_then_runs_frame M batch /\
  (forall pre sz,
     batch = pre ++ [{| type := MESSAGE_PAUSE; size := sz |}] ->
     state (emu (run_messages batch M)) = GBA_STATE_PAUSE /\
     forall n, ~ In (EvSchedRunFor n) (frame_events (state (emu (run_messages batch M))))).
Proof.
  intros Hq Hpos Hmax Hex. split.
  - destruct (push_all_holds batch (mqueue M) [] ) as (q & Hpush & Hholds & _);
      [rewrite Hq; apply holds_empty_queue | exact Hpos | exact Hmax |].
    simpl app in Hholds.
    exists q. split; [exact Hpush|].
    unfold gba_run_iteration.
    set (M1 := emit (set_mqueue M q) EvLock).
    assert (Hd : drain (default [] (messages (mqueue M1))) M1 =
                 Running (set_mqueue (run_messages batch M1)
                            {| messages := messages q; mq_length := 0;
                               allocated_size := 0 |})).
    { destruct Hholds as (Hbuf & Hrest). subst M1. simpl mqueue. rewrite Hbuf.
      apply (drain_all batch (emit (set_mqueue M q) EvLock)); [|exact Hex].
      simpl mqueue. split; assumption. }
    rewrite Hd. subst M1. rewrite (run_messages_locked _ _ _ Hex).
    unfold after_frame, emit, set_mqueue, set_emu, empty_queue, frame_events.
    simpl. f_equal.
    destruct (state (emu (run_messages batch M))); simpl;
      rewrite <- ?app_assoc; reflexivity.
  - intros pre sz ->. unfold run_messages. rewrite fold_left_app. simpl.
    split; [reflexivity|].
    intros n [Hin|[Hin|[]]]; discriminate Hin.
Qed.

(** C9: when the batch holds an Exit, [gba_run] returns as soon as the drain
    reaches it: only the messages pushed before it were applied and only
    their cleanup callbacks called, the buffer of the queue is still
    allocated and holds the whole batch, the Exit included. *)
Theorem exit_returns_at_once M pre ex post later :
  mqueue M = empty_queue ->
  Forall (fun m => 0 < size m) (pre ++ ex :: post) ->
  total_size (pre ++ ex :: post) < 2 ^ 64 ->
  existsb is_exit pre = false ->
  is_exit ex = true ->
  gba_run_loop ((pre ++ ex :: post) :: later) M =
  Returned
    {| emu := emu (run_messages pre M);
       mqueue := {| messages := Some (pre ++ ex :: post);
                    mq_length := Z.of_nat (length (ex :: post));
                    allocated_size := total_size (ex :: post) |};
       pace := pace (run_messages pre M);
       host := host M;
       log := log M ++ [EvLock] ++ cleanup_events pre ++ [EvUnlock] |}.
Proof.
  intros Hq Hpos Hmax Hpre Hexit.
  destruct (push_all_holds (pre ++ ex :: post) (mqueue M) [])
    as (q & Hpush & Hholds & Hqeq);
    [rewrite Hq; apply holds_empty_queue | exact Hpos | exact Hmax |].
  simpl app in Hholds, Hqeq.
  rewrite Hqeq in Hpush by (destruct pre; discriminate). clear Hqeq Hholds q.
  cbn [gba_run_loop]. rewrite Hpush. unfold gba_run_iteration.
  set (q := queue_of (pre ++ ex :: post)).
  set (M1 := emit (set_mqueue M q) EvLock).
  change (default [] (messages (mqueue M1))) with (pre ++ ex :: post).
  rewrite (drain_prefix pre (ex :: post) M1 Hpre);
    [| reflexivity | reflexivity | exact Hpos | exact Hmax].
  subst M1. rewrite (run_messages_locked _ _ _ Hpre).
  cbn [drain]. unfold set_mqueue. simpl mqueue. simpl mq_length.
  destruct (Z.eqb_spec (Z.of_nat (S (length post))) 0) as [|_]; [lia|].
  destruct ex as [[ | | | | | | | | | | | | | ] sz]; try discriminate Hexit.
  unfold exec_message, emit. simpl.
  rewrite <- !app_assoc. reflexivity.
Qed.

(** C6: once emulation has started, a BackupType or an Rtc message leaves
    every part of the machine as it was, and with it the backup storage type
    and source and the two RTC flags. *)
Theorem started_ignores_backup_type_and_rtc M t dev sz sz' :
  started (emu M) = true ->
  exec_message {| type := MESSAGE_BACKUP_TYPE t; size := sz |} M = Running M /\
  exec_message {| type := MESSAGE_RTC dev; size := sz' |} M = Running M.
Proof.
  intros Hs. unfold exec_message. simpl. rewrite Hs. split; reflexivity.
Qed.

(** C8: a KeyInput message for a button writes the negation of [pressed] in
    the KEYINPUT bit of that button and leaves the bits of the nine other
    buttons as they were, [io_scan_keypad_irq] being a function that does not
    write KEYINPUT. *)
Theorem keyinput_is_active_low M k pressed sz :
  (forall g : gba Hw, io_keyinput (io_scan_keypad_irq g) = io_keyinput g) ->
  exists M',
    exec_message {| type := MESSAGE_KEYINPUT k pressed; size := sz |} M = Running M' /\
    key_bit k (io_keyinput (emu M')) = negb pressed /\
    forall k', k' <> k ->
      key_bit k' (io_keyinput (emu M')) = key_bit k' (io_keyinput (emu M)).
Proof.
  intros Hscan. eexists. split; [reflexivity|].
  simpl. rewrite Hscan. simpl. split.
  - destruct k; reflexivity.
  - intros k' Hne. destruct k, k'; try reflexivity; contradiction.
Qed.

(** A BackupType or an Rtc message on an emulator that has not started.
    The Rtc message writes the two flags its device state stands for and
    nothing else. The BackupType message hands [mem_backup_storage_init] the
    state [mem_backup_storage_detect] returns when the type is the automatic
    detection, and otherwise the state with the type of the message, the
    manual source and nothing else changed. *)
Lemma rtc_message_applied M dev sz :
  started (emu M) = false ->
  exists M',
    exec_message {| type := MESSAGE_RTC dev; size := sz |} M = Running M' /\
    rtc_auto_detect (emu M') = match dev with DEVICE_AUTO_DETECT => true | _ => false end /\
    rtc_enabled (emu M') = match dev with DEVICE_ENABLED => true | _ => false end /\
    same_but_rtc (emu M) (emu M') /\
    same_but_emu M M'.
Proof.
  intros Hs. unfold exec_message. cbn [type]. rewrite Hs.
  destruct dev; eexists; (split; [reflexivity|]); repeat split.
Qed.

Lemma backup_type_message_applied M t sz :
  started (emu M) = false ->
  exists M' g,
    exec_message {| type := MESSAGE_BACKUP_TYPE t; size := sz |} M = Running M' /\
    emu M' = mem_backup_storage_init g /\
    same_but_emu M M' /\
    if backup_storage_types_eqb t BACKUP_AUTO_DETECT
    then g = mem_backup_storage_detect (emu M)
    else backup_storage_type (mem g) = t /\
         backup_storage_source (mem g) = BACKUP_SOURCE_MANUAL /\
         same_but_backup_type (emu M) g.
Proof.
  intros Hs. unfold exec_message. cbn [type]. rewrite Hs.
  eexists. eexists. split; [reflexivity|]. split; [reflexivity|].
  split; [repeat split|].
  destruct (backup_storage_types_eqb t BACKUP_AUTO_DETECT); [reflexivity|].
  repeat split.
Qed.

(** C10: [gba_reset], and so a Reset message, clears [started], whatever the
    state before. An Rtc message that comes next is applied: the two RTC
    flags take the values of its device state and nothing else changes. A
    BackupType message that comes next is applied: [mem_backup_storage_init]
    runs on the reset state after [mem_backup_storage_detect], or on the reset
    state with the type of the message and the manual source. *)
Theorem reset_clears_started M t dev sz sz' sz'' :
  let g0 := gba_reset (emu M) in
  started g0 = false /\
  exec_message {| type := MESSAGE_RESET; size := sz |} M = Running (after_reset M) /\
  emu (after_reset M) = g0 /\
  same_but_emu M (after_reset M) /\
  (exists M',
     exec_message {| type := MESSAGE_RTC dev; size := sz' |} (after_reset M) = Running M' /\
     rtc_auto_detect (emu M') = match dev with DEVICE_AUTO_DETECT => true | _ => false end /\
     rtc_enabled (emu M') = match dev with DEVICE_ENABLED => true | _ => false end /\
     same_but_rtc g0 (emu M') /\
     same_but_emu M M') /\
  (exists M' g,
     exec_message {| type := MESSAGE_BACKUP_TYPE t; size := sz'' |} (after_reset M)
       = Running M' /\
     emu M' = mem_backup_storage_init g /\
     same_but_emu M M' /\
     if backup_storage_types_eqb t BACKUP_AUTO_DETECT
     then g = mem_backup_storage_detect g0
     else backup_storage_type (mem g) = t /\
          backup_storage_source (mem g) = BACKUP_SOURCE_MANUAL /\
          same_but_backup_type g0 g).
Proof.
  cbv zeta.
  assert (Hs : started (emu (after_reset M)) = false) by reflexivity.
  split; [reflexivity|]. split; [reflexivity|]. split; [reflexivity|].
  split; [repeat split|]. split.
  - exact (rtc_message_applied (after_reset M) dev sz' Hs).
  - exact (backup_type_message_applied (after_reset M) t sz'' Hs).
Qed.

(** What a LoadBios message leaves in the BIOS region when the region and
    the image are both [n] bytes long and [BIOS_MASK < n]: the bytes of the
    image below [BIOS_MASK], then the bytes the region already had. *)
Lemma load_bios_stops_at_mask M d sz :
  BIOS_MASK <= data_size d ->
  exists M',
    exec_message {| type := MESSAGE_LOAD_BIOS d; size := sz |} M = Running M' /\
    bios (mem (emu M')) =
      take (Z.to_nat BIOS_MASK) (data d) ++
      drop (Z.to_nat BIOS_MASK) (bios (mem (emu M))).
Proof.
  intros Hsz. eexists. split; [reflexivity|].
  unfold run_cleanup. destruct (cleanup d); simpl;
    unfold memcpy, memset; rewrite Z.min_r by exact Hsz;
    rewrite drop_app_length' by (rewrite length_replicate; reflexivity);
    reflexivity.
Qed.

End Loop.
(** *** The theorems at work on the sample board *)

Import Samples.

Lemma iteration_drains_then_runs_frame_witness :
  mqueue machine0 = empty_queue /\
  Forall (fun m => 0 < size m) batch0 /\
  total_size batch0 < 2 ^ 64 /\
  existsb is_exit batch0 = false /\
  drains_then_runs_frame machine0 batch0.
Proof.
  assert (H1 : mqueue machine0 = empty_queue) by reflexivity.
  assert (H2 : Forall (fun m => 0 < size m) batch0)
    by (repeat constructor).
  assert (H3 : total_size batch0 < 2 ^ 64) by reflexivity.
  assert (H4 : existsb is_exit batch0 = false) by reflexivity.
  repeat (split; [assumption|]).
  exact (proj1 (iteration_drains_then_runs_frame machine0 batch0 H1 H2 H3 H4)).
Defined.

(** C7 as the specification states it fails on a batch with an Exit: with
    the state Run, the turn ends in the return of [gba_run], the Pause behind
    the Exit is still in the queue and the scheduler was not run. *)
Lemma exit_batch_is_not_drained :
  ~ drains_then_runs_frame running0 [msg MESSAGE_EXIT; msg MESSAGE_PAUSE] /\
  exists R,
    gba_run_loop [[msg MESSAGE_EXIT; msg MESSAGE_PAUSE]] running0 = Returned R /\
    state (emu R) = GBA_STATE_RUN /\
    log R = [EvLock; EvUnlock] /\
    mq_length (mqueue R) = 2.
Proof.
  split.
  - intros (q & Hpush & Hrun). vm_compute in Hpush. injection Hpush as <-.
    vm_compute in Hrun. discriminate Hrun.
  - eexists. split; [vm_compute; reflexivity|]. repeat split.
Qed.

Lemma exit_returns_at_once_witness :
  mqueue machine0 = empty_queue /\
  Forall (fun m => 0 < size m)
         ([msg (MESSAGE_KEYINPUT KEY_A true)] ++ msg MESSAGE_EXIT :: [msg MESSAGE_PAUSE]) /\
  total_size ([msg (MESSAGE_KEYINPUT KEY_A true)] ++ msg MESSAGE_EXIT :: [msg MESSAGE_PAUSE])
    < 2 ^ 64 /\
  existsb is_exit [msg (MESSAGE_KEYINPUT KEY_A true)] = false /\
  is_exit (msg MESSAGE_EXIT) = true /\
  gba_run_loop
    [[msg (MESSAGE_KEYINPUT KEY_A true); msg MESSAGE_EXIT; msg MESSAGE_PAUSE]] machine0 =
  Returned
    {| emu := set_io_keyinput gba0 (set_key KEY_A false released);
       mqueue := {| messages := Some [msg (MESSAGE_KEYINPUT KEY_A true);
                                      msg MESSAGE_EXIT; msg MESSAGE_PAUSE];
                    mq_length := 2;
                    allocated_size := 32 |};
       pace := pace machine0;
       host := 0;
       log := [EvLock; EvUnlock] |}.
Proof.
  assert (H1 : mqueue machine0 = empty_queue) by reflexivity.
  assert (H2 : Forall (fun m => 0 < size m)
                 ([msg (MESSAGE_KEYINPUT KEY_A true)] ++ msg MESSAGE_EXIT :: [msg MESSAGE_PAUSE]))
    by (repeat constructor).
  assert (H3 : total_size
                 ([msg (MESSAGE_KEYINPUT KEY_A true)] ++ msg MESSAGE_EXIT :: [msg MESSAGE_PAUSE])
               < 2 ^ 64) by reflexivity.
  assert (H4 : existsb is_exit [msg (MESSAGE_KEYINPUT KEY_A true)] = false) by reflexivity.
  assert (H5 : is_exit (msg MESSAGE_EXIT) = true) by reflexivity.
  repeat (split; [assumption|]).
  exact (exit_returns_at_once machine0 [msg (MESSAGE_KEYINPUT KEY_A true)]
           (msg MESSAGE_EXIT) [msg MESSAGE_PAUSE] [] H1 H2 H3 H4 H5).
Defined.

Lemma started_ignores_backup_type_and_rtc_witness :
  started (emu running0) = true /\
  exec_message (msg (MESSAGE_BACKUP_TYPE BACKUP_SRAM)) running0 = Running running0 /\
  exec_message (msg (MESSAGE_RTC DEVICE_ENABLED)) running0 = Running running0.
Proof.
  assert (H1 : started (emu running0) = true) by reflexivity.
  split; [assumption|].
  exact (started_ignores_backup_type_and_rtc running0 BACKUP_SRAM DEVICE_ENABLED 16 16 H1).
Defined.

Lemma keyinput_is_active_low_witness :
  (forall g : gba Z, io_keyinput (io_scan_keypad_irq g) = io_keyinput g) /\
  exists M',
    exec_message (msg (MESSAGE_KEYINPUT KEY_START true)) machine0 = Running M' /\
    key_bit KEY_START (io_keyinput (emu M')) = negb true /\
    forall k', k' <> KEY_START ->
      key_bit k' (io_keyinput (emu M')) = key_bit k' (io_keyinput (emu machine0)).
Proof.
  assert (H1 : forall g : gba Z, io_keyinput (io_scan_keypad_irq g) = io_keyinput g)
    by (intros g; reflexivity).
  split; [assumption|].
  exact (keyinput_is_active_low machine0 KEY_START true 16 H1).
Defined.

(** C5 on the code: a LoadBios message with an image of 16,384 bytes [0xff]
    on the zeroed BIOS region copies the first 16,383 bytes; the byte at
    offset [0x3FFF] of the region is still zero and the region differs from
    the image. *)
Theorem load_bios_misses_last_byte :
  match gba_run [[msg (MESSAGE_LOAD_BIOS bios_image)]] machine0 with
  | Running R =>
    Z.of_nat (length (data bios_image)) = 16384 /\
    data_size bios_image = 16384 /\
    Z.of_nat (length (bios (mem (emu R)))) = 16384 /\
    take (Z.to_nat 16383) (bios (mem (emu R))) = take (Z.to_nat 16383) (data bios_image) /\
    data bios_image !! Z.to_nat 16383 = Some Byte.xff /\
    bios (mem (emu R)) !! Z.to_nat 16383 = Some Byte.x00 /\
    bios (mem (emu R)) <> data bios_image
  | _ => False
  end.
Proof.
  vm_compute. repeat (split; [reflexivity|]).
  intros H. apply (f_equal (fun l => l !! Z.to_nat 16383)) in H.
  vm_compute in H. discriminate H.
Qed.

End GbaFacts.

(** ** Further properties of the memory bus *)

Module BusMore.

Import Bus BusFacts.

Lemma le_value_bound (bs : list byte) : 0 <= le_value bs < 256 ^ Z.of_nat (length bs).
Proof.
  induction bs as [|b bs IH]; [simpl; lia|].
  cbn [le_value length]. rewrite Nat2Z.inj_succ, Z.pow_succ_r by lia.
  pose proof (byte_to_Z_range b). lia.
Qed.

Lemma length_le_bytes (n : nat) (v : Z) : length (le_bytes n v) = n.
Proof. revert v. induction n as [|n IH]; intros v; simpl; [reflexivity|]. rewrite IH. reflexivity. Qed.

Lemma le_value_le_bytes (n : nat) (v : Z) : le_value (le_bytes n v) = v mod 256 ^ Z.of_nat n.
Proof.
  revert v. induction n as [|n IH]; intros v.
  - simpl. rewrite Z.mod_1_r. reflexivity.
  - cbn [le_bytes le_value]. rewrite IH, byte_to_of_Z.
    rewrite Nat2Z.inj_succ, Z.pow_succ_r by lia.
    rewrite Z.rem_mul_r by lia. reflexivity.
Qed.

Lemma value_of_bytes (big : bool) (n : nat) (v : Z) :
  (if big then be_value else le_value) ((if big then be_bytes else le_bytes) n v)
  = v mod 256 ^ Z.of_nat n.
Proof.
  destruct big; unfold be_value, be_bytes; rewrite ?rev_involutive;
    apply le_value_le_bytes.
Qed.

Lemma length_bytes_of (big : bool) (n : nat) (v : Z) :
  length ((if big then be_bytes else le_bytes) n v) = n.
Proof.
  destruct big; unfold be_bytes; rewrite ?length_rev; apply length_le_bytes.
Qed.

Lemma load_bytes_store_bytes (m m' : list byte) (a : Z) (bs : list byte) :
  store_bytes m a bs = Some m' ->
  load_bytes m' a (length bs) = Some bs /\ length m' = length m.
Proof.
  unfold store_bytes, load_bytes.
  destruct (Z.leb_spec 0 a); [|discriminate].
  destruct (Z.leb_spec (a + Z.of_nat (length bs)) (Z.of_nat (length m))); [|discriminate].
  simpl. intros [= <-].
  assert (Hta : length (take (Z.to_nat a) m) = Z.to_nat a) by (rewrite length_take; lia).
  assert (Hlen : length (take (Z.to_nat a) m ++ bs ++ drop (Z.to_nat a + length bs) m)
                 = length m).
  { rewrite !length_app, Hta, length_drop. lia. }
  rewrite Hlen.
  destruct (Z.leb_spec (a + Z.of_nat (length bs)) (Z.of_nat (length m))); [|lia].
  split; [|reflexivity]. f_equal.
  rewrite drop_app_length' by (symmetry; exact Hta).
  apply take_app_length.
Qed.

Lemma load_store_value (big : bool) (m m' : list byte) (a : Z) (n : nat) (v : Z) :
  store_value big m a n v = Some m' ->
  load_value big m' a n = Some (v mod 256 ^ Z.of_nat n) /\ length m' = length m.
Proof.
  unfold store_value, load_value. intros Hst.
  destruct (load_bytes_store_bytes _ _ _ _ Hst) as [Hld Hlen].
  rewrite length_bytes_of in Hld. rewrite Hld. simpl.
  rewrite value_of_bytes. split; [reflexivity | exact Hlen].
Qed.

Lemma store_value_fits (big : bool) (m : list byte) (a : Z) (n : nat) (v : Z) :
  0 <= a -> a + Z.of_nat n <= Z.of_nat (length m) ->
  exists m', store_value big m a n v = Some m'.
Proof.
  intros Ha Hfit. unfold store_value, store_bytes. rewrite length_bytes_of.
  destruct (Z.leb_spec 0 a); [|lia].
  destruct (Z.leb_spec (a + Z.of_nat n) (Z.of_nat (length m))); [|lia].
  simpl. eexists. reflexivity.
Qed.

Lemma wf_set_memory (c : core) (m' : list byte) :
  wf_core c -> length m' = length (memory c) -> wf_core (set_memory c m').
Proof. intros [Hsz Hmax] Hlen. split; simpl; [rewrite Hlen|]; assumption. Qed.

(** X1: on a core whose [memory_size] is the size of its buffer, a byte written
    at an address below [memory_size] is read back at that address, the bytes
    at all other addresses are unchanged, and the core stays well formed. *)
Theorem write8_read8_round_trip (c : core) (a : Z) (val : byte) :
  wf_core c -> 0 <= a < memory_size c ->
  exists c',
    core_bus_write8 c a val = Ok c' /\
    wf_core c' /\
    core_bus_read8 c' a = Ok val /\
    forall i, 0 <= i -> i <> a -> core_bus_read8 c' i = core_bus_read8 c i.
Proof.
  intros Hwf Ha. pose proof Hwf as [Hsz Hmax].
  exists (set_memory c (<[Z.to_nat a := val]> (memory c))).
  unfold core_bus_write8.
  destruct (Z.leb_spec (memory_size c) a); [lia|].
  destruct (Nat.ltb_spec (Z.to_nat a) (length (memory c))); [|lia].
  split; [reflexivity|]. split.
  - apply wf_set_memory; [exact Hwf | apply length_insert].
  - unfold core_bus_read8. simpl. split.
    + destruct (Z.leb_spec (memory_size c) a); [lia|].
      rewrite list_lookup_insert_eq by lia. reflexivity.
    + intros i Hi Hne. rewrite list_lookup_insert_ne by lia. reflexivity.
Qed.

(** X2: a halfword written at an even in-range address is read back by
    [core_bus_read16] as the value modulo [2 ^ 16], whatever the endianness of
    the core and the host behaviour of the shift by 32. *)
Theorem write16_read16_round_trip (sh : shifter) (c : core) (a v : Z) :
  wf_core c -> 0 <= a < 2 ^ 32 -> a mod 2 = 0 -> a + 1 < memory_size c ->
  exists c',
    core_bus_write16 c a v = Ok c' /\
    wf_core c' /\
    core_bus_read16 sh c' a = Ok (v mod 2 ^ 16).
Proof.
  intros Hwf Ha Heven Hin. pose proof Hwf as [Hsz Hmax].
  destruct (store_value_fits (big_endian c) (memory c) a 2 v) as [m' Hst]; [lia|lia|].
  destruct (load_store_value _ _ _ _ _ _ Hst) as [Hld Hlen].
  exists (set_memory c m'). unfold core_bus_write16.
  rewrite size_sub_small by lia.
  destruct (Z.leb_spec (memory_size c - 1) a); [lia|].
  rewrite Hst. split; [reflexivity|].
  split; [apply wf_set_memory; assumption|].
  unfold core_bus_read16. rewrite align2 by exact Ha. rewrite Heven, Z.sub_0_r.
  simpl memory_size. simpl big_endian. simpl memory.
  rewrite size_sub_small by lia.
  destruct (Z.leb_spec (memory_size c - 1) a); [lia|].
  rewrite Hld. f_equal. change (Z.shiftl 0 3) with 0.
  apply rotate_by_zero.
  change (256 ^ Z.of_nat 2) with (2 ^ 16).
  pose proof (Z.mod_pos_bound v (2 ^ 16)). lia.
Qed.

Lemma align2_succ (a : Z) : 0 <= a -> a + 1 < 2 ^ 32 -> a mod 2 = 0 ->
  Z.land (a + 1) 0xFFFFFFFE = a.
Proof.
  intros Ha Hb Heven. rewrite align2 by lia.
  replace ((a + 1) mod 2) with 1; [lia|].
  rewrite Z.add_mod, Heven by lia. reflexivity.
Qed.

(** X3: a word written at a word-aligned in-range address is read back by
    [core_bus_read32] as the value modulo [2 ^ 32], and one byte further as
    that word rotated right by 8 bits. *)
Theorem write32_read32_round_trip (sh : shifter) (c : core) (a v : Z) :
  wf_core c -> 0 <= a -> a + 1 < 2 ^ 32 -> a mod 4 = 0 -> a + 3 < memory_size c ->
  exists c',
    core_bus_write32 c a v = Ok c' /\
    wf_core c' /\
    core_bus_read32 sh c' a = Ok (v mod 2 ^ 32) /\
    core_bus_read32 sh c' (a + 1) = Ok (ror32 (v mod 2 ^ 32) 8).
Proof.
  intros Hwf Ha Hb Hal Hin. pose proof Hwf as [Hsz Hmax].
  assert (Heven : a mod 2 = 0).
  { rewrite (Z.div_mod a 4) by lia. rewrite Hal, Z.add_0_r.
    replace (4 * (a / 4)) with ((2 * (a / 4)) * 2) by lia. apply Z.mod_mul. lia. }
  destruct (store_value_fits (big_endian c) (memory c) a 4 v) as [m' Hst]; [lia|lia|].
  destruct (load_store_value _ _ _ _ _ _ Hst) as [Hld Hlen].
  change (256 ^ Z.of_nat 4) with (2 ^ 32) in Hld.
  pose proof (Z.mod_pos_bound v (2 ^ 32)) as Hv.
  exists (set_memory c m'). unfold core_bus_write32.
  rewrite size_sub_small by lia.
  destruct (Z.leb_spec (memory_size c - 3) a); [lia|].
  rewrite Hst. split; [reflexivity|].
  split; [apply wf_set_memory; assumption|].
  unfold core_bus_read32. rewrite align2_succ by assumption.
  rewrite align2 by lia. rewrite Heven, Z.sub_0_r.
  simpl memory_size. simpl big_endian. simpl memory.
  rewrite size_sub_small by lia.
  destruct (Z.leb_spec (memory_size c - 3) a); [lia|].
  rewrite Hld. split; f_equal.
  - rewrite Hal. change (Z.shiftl 0 3) with 0. apply rotate_by_zero. lia.
  - replace ((a + 1) mod 4) with 1 by (rewrite Z.add_mod, Hal by lia; reflexivity).
    change (Z.shiftl 1 3) with 8. apply rotate_is_ror32; lia.
Qed.


Lemma ror32_by_zero (w : Z) : ror32 w 0 = w.
Proof.
  unfold ror32. rewrite Z.pow_0_r, Z.div_1_r, Z.mod_1_r. lia.
Qed.

Lemma ror32_bound (w n : Z) :
  0 <= w < 2 ^ 32 -> 0 <= n <= 32 -> 0 <= ror32 w n < 2 ^ 32.
Proof.
  intros Hw Hn. unfold ror32.
  assert (Hp : 0 < 2 ^ n) by (apply Z.pow_pos_nonneg; lia).
  assert (Hq : 0 < 2 ^ (32 - n)) by (apply Z.pow_pos_nonneg; lia).
  assert (Hpq : 2 ^ n * 2 ^ (32 - n) = 2 ^ 32)
    by (rewrite <- Z.pow_add_r by lia; f_equal; lia).
  pose proof (Z.mod_pos_bound w (2 ^ n) Hp) as Hm.
  assert (Hd : 0 <= w / 2 ^ n < 2 ^ (32 - n)).
  { split; [apply Z.div_pos; lia|]. apply Z.div_lt_upper_bound; lia. }
  split; [nia|].
  assert ((w mod 2 ^ n) * 2 ^ (32 - n) <= (2 ^ n - 1) * 2 ^ (32 - n)) by nia.
  nia.
Qed.

Lemma rotate_any (sh : shifter) (w k : Z) :
  0 <= w < 2 ^ 32 -> 0 <= k < 4 ->
  Z.lor (shr32 w (Z.shiftl k 3)) (shl32 sh w (32 - Z.shiftl k 3)) = ror32 w (8 * k).
Proof.
  intros Hw Hk. rewrite Z.shiftl_mul_pow2 by lia. change (2 ^ 3) with 8.
  replace (k * 8) with (8 * k) by lia.
  destruct (Z.eq_dec k 0) as [->|Hne].
  - change (8 * 0) with 0. rewrite ror32_by_zero. apply rotate_by_zero. exact Hw.
  - apply rotate_is_ror32; lia.
Qed.

Lemma load_value_bound (big : bool) (m : list byte) (a : Z) (n : nat) (w : Z) :
  load_value big m a n = Some w -> 0 <= w < 256 ^ Z.of_nat n.
Proof.
  unfold load_value, load_bytes.
  destruct (Z.leb_spec 0 a); [|discriminate].
  destruct (Z.leb_spec (a + Z.of_nat n) (Z.of_nat (length m))); [|discriminate].
  simpl. intros [= <-].
  assert (Hlen : length (take n (drop (Z.to_nat a) m)) = n)
    by (rewrite length_take, length_drop; lia).
  destruct big; unfold be_value.
  - pose proof (le_value_bound (rev (take n (drop (Z.to_nat a) m)))) as Hb.
    rewrite length_rev, Hlen in Hb. exact Hb.
  - pose proof (le_value_bound (take n (drop (Z.to_nat a) m))) as Hb.
    rewrite Hlen in Hb. exact Hb.
Qed.

(** X4: a 32-bit read takes the four bytes that start at the address with
    bit 0 cleared, weighs them by the endianness of the core and rotates the
    word right by 8 times the address modulo 4. *)
Theorem read32_rotates_word_at_even_address (sh : shifter) (c : core) (a : Z) :
  wf_core c -> 0 <= a < 2 ^ 32 -> Z.land a 0xFFFFFFFE + 3 < memory_size c ->
  exists bs : list byte,
    length bs = 4%nat /\
    (forall (k : nat) (b : byte),
       bs !! k = Some b ->
       core_bus_read8 c (Z.land a 0xFFFFFFFE + Z.of_nat k) = Ok b) /\
    core_bus_read32 sh c a =
      Ok (ror32 ((if big_endian c then be_value else le_value) bs) (8 * (a mod 4))).
Proof.
  intros Hwf Ha Hin. pose proof Hwf as [Hsz Hmax].
  assert (Hal : 0 <= Z.land a 0xFFFFFFFE)
    by (rewrite align2 by exact Ha; pose proof (Z.mod_pos_bound a 2); pose proof (Z.mod_le a 2); lia).
  set (a' := Z.land a 0xFFFFFFFE) in *.
  set (bs := take 4 (drop (Z.to_nat a') (memory c))).
  assert (Hlen : length bs = 4%nat)
    by (subst bs; rewrite length_take, length_drop; lia).
  assert (Hld : load_value (big_endian c) (memory c) a' 4 =
                Some ((if big_endian c then be_value else le_value) bs)).
  { unfold load_value, load_bytes.
    destruct (Z.leb_spec 0 a'); [|lia].
    destruct (Z.leb_spec (a' + Z.of_nat 4) (Z.of_nat (length (memory c)))); [|lia].
    reflexivity. }
  exists bs. split; [exact Hlen|]. split.
  - intros k b Hk. pose proof (lookup_lt_Some _ _ _ Hk) as Hlt.
    subst bs. rewrite lookup_take_lt in Hk by lia. rewrite lookup_drop in Hk.
    unfold core_bus_read8.
    destruct (Z.leb_spec (memory_size c) (a' + Z.of_nat k)); [lia|].
    replace (Z.to_nat (a' + Z.of_nat k)) with (Z.to_nat a' + k)%nat by lia.
    rewrite Hk. reflexivity.
  - unfold core_bus_read32. fold a'. rewrite size_sub_small by lia.
    destruct (Z.leb_spec (memory_size c - 3) a'); [lia|].
    rewrite Hld. f_equal. apply rotate_any.
    + pose proof (load_value_bound _ _ _ _ _ Hld) as Hb.
      change (256 ^ Z.of_nat 4) with (2 ^ 32) in Hb. exact Hb.
    + apply Z.mod_pos_bound. lia.
Qed.

(** X5: what [core_bus_read16] or [core_bus_read32] returns is a 32-bit
    value. *)
Theorem reads_return_32_bits (sh : shifter) (c : core) (a v : Z) :
  core_bus_read16 sh c a = Ok v \/ core_bus_read32 sh c a = Ok v ->
  0 <= v < 2 ^ 32.
Proof.
  unfold core_bus_read16, core_bus_read32. cbv zeta. intros [H|H].
  - destruct (_ <=? _); [discriminate|].
    destruct (load_value _ _ _ 2) as [w|] eqn:Hld; [|discriminate].
    injection H as <-.
    pose proof (load_value_bound _ _ _ _ _ Hld) as Hb.
    change (256 ^ Z.of_nat 2) with (2 ^ 16) in Hb.
    assert (Hk : 0 <= a mod 2 < 4) by (pose proof (Z.mod_pos_bound a 2); lia).
    rewrite rotate_any by lia. apply ror32_bound; lia.
  - destruct (_ <=? _); [discriminate|].
    destruct (load_value _ _ _ 4) as [w|] eqn:Hld; [|discriminate].
    injection H as <-.
    pose proof (load_value_bound _ _ _ _ _ Hld) as Hb.
    change (256 ^ Z.of_nat 4) with (2 ^ 32) in Hb.
    assert (Hk : 0 <= a mod 4 < 4) by (apply Z.mod_pos_bound; lia).
    rewrite rotate_any by lia. apply ror32_bound; lia.
Qed.


Lemma load_value_fits (big : bool) (m : list byte) (a : Z) (n : nat) :
  0 <= a -> a + Z.of_nat n <= Z.of_nat (length m) ->
  exists w, load_value big m a n = Some w.
Proof.
  intros Ha Hfit. unfold load_value, load_bytes.
  destruct (Z.leb_spec 0 a); [|lia].
  destruct (Z.leb_spec (a + Z.of_nat n) (Z.of_nat (length m))); [|lia].
  simpl. eexists. reflexivity.
Qed.

Lemma load_value_outside (big : bool) (m : list byte) (a : Z) (n : nat) :
  Z.of_nat (length m) < a + Z.of_nat n -> load_value big m a n = None.
Proof.
  intros Hout. unfold load_value, load_bytes.
  destruct (Z.leb_spec (a + Z.of_nat n) (Z.of_nat (length m))); [lia|].
  rewrite andb_false_r. reflexivity.
Qed.

Lemma store_value_outside (big : bool) (m : list byte) (a : Z) (n : nat) (v : Z) :
  Z.of_nat (length m) < a + Z.of_nat n -> store_value big m a n v = None.
Proof.
  intros Hout. unfold store_value, store_bytes. rewrite length_bytes_of.
  destruct (Z.leb_spec (a + Z.of_nat n) (Z.of_nat (length m))); [lia|].
  rewrite andb_false_r. reflexivity.
Qed.

Lemma align2_bounds (a : Z) : 0 <= a < 2 ^ 32 ->
  0 <= Z.land a 0xFFFFFFFE <= a /\ a - 1 <= Z.land a 0xFFFFFFFE.
Proof.
  intros Ha. rewrite align2 by exact Ha.
  pose proof (Z.mod_pos_bound a 2). pose proof (Z.mod_le a 2). lia.
Qed.

(** X6: on a well-formed core of at least three bytes every access either
    returns, when all the bytes it touches lie below [memory_size], or ends in
    [panic]; none reaches outside the buffer. The bytes touched start at the
    address for the byte accesses and the writes, and at the address with bit 0
    cleared for the 16-bit and 32-bit reads. *)
Theorem accesses_stay_in_buffer (sh : shifter) (c : core) (a : Z) :
  wf_core c -> 3 <= memory_size c -> 0 <= a < 2 ^ 32 ->
  (if a <? memory_size c
   then (exists b, core_bus_read8 c a = Ok b) /\
        (forall val, exists c', core_bus_write8 c a val = Ok c')
   else core_bus_read8 c a = Panic /\
        (forall val, core_bus_write8 c a val = Panic)) /\
  (if Z.land a 0xFFFFFFFE + 1 <? memory_size c
   then exists v, core_bus_read16 sh c a = Ok v
   else core_bus_read16 sh c a = Panic) /\
  (if Z.land a 0xFFFFFFFE + 3 <? memory_size c
   then exists v, core_bus_read32 sh c a = Ok v
   else core_bus_read32 sh c a = Panic) /\
  (if a + 1 <? memory_size c
   then forall val, exists c', core_bus_write16 c a val = Ok c'
   else forall val, core_bus_write16 c a val = Panic) /\
  (if a + 3 <? memory_size c
   then forall val, exists c', core_bus_write32 c a val = Ok c'
   else forall val, core_bus_write32 c a val = Panic).
Proof.
  intros Hwf Hms Ha. pose proof Hwf as [Hsz Hmax].
  destruct (align2_bounds a Ha) as [Hal Hal'].
  unfold core_bus_read8, core_bus_write8, core_bus_read16, core_bus_read32,
    core_bus_write16, core_bus_write32. cbv zeta.
  rewrite !size_sub_small by lia.
  set (a' := Z.land a 0xFFFFFFFE) in *.
  repeat split.
  - destruct (Z.ltb_spec a (memory_size c)).
    + destruct (Z.leb_spec (memory_size c) a); [lia|].
      destruct (lookup_lt_is_Some_2 (memory c) (Z.to_nat a)) as [b Hb]; [lia|].
      rewrite Hb. split; [eexists; reflexivity|].
      intros val. destruct (Nat.ltb_spec (Z.to_nat a) (length (memory c))); [|lia].
      eexists. reflexivity.
    + destruct (Z.leb_spec (memory_size c) a); [|lia]. split; reflexivity.
  - destruct (Z.ltb_spec (a' + 1) (memory_size c)).
    + destruct (Z.leb_spec (memory_size c - 1) a'); [lia|].
      destruct (load_value_fits (big_endian c) (memory c) a' 2) as [w ->]; [lia|lia|].
      eexists. reflexivity.
    + destruct (Z.leb_spec (memory_size c - 1) a'); [reflexivity|lia].
  - destruct (Z.ltb_spec (a' + 3) (memory_size c)).
    + destruct (Z.leb_spec (memory_size c - 3) a'); [lia|].
      destruct (load_value_fits (big_endian c) (memory c) a' 4) as [w ->]; [lia|lia|].
      eexists. reflexivity.
    + destruct (Z.leb_spec (memory_size c - 3) a'); [reflexivity|lia].
  - destruct (Z.ltb_spec (a + 1) (memory_size c)); intros val.
    + destruct (Z.leb_spec (memory_size c - 1) a); [lia|].
      destruct (store_value_fits (big_endian c) (memory c) a 2 val) as [m' ->]; [lia|lia|].
      eexists. reflexivity.
    + destruct (Z.leb_spec (memory_size c - 1) a); [reflexivity|lia].
  - destruct (Z.ltb_spec (a + 3) (memory_size c)); intros val.
    + destruct (Z.leb_spec (memory_size c - 3) a); [lia|].
      destruct (store_value_fits (big_endian c) (memory c) a 4 val) as [m' ->]; [lia|lia|].
      eexists. reflexivity.
    + destruct (Z.leb_spec (memory_size c - 3) a); [reflexivity|lia].
Qed.

(** X7: on a core of fewer than three bytes [memory_size - 3] wraps around:
    the guard of the 32-bit accesses never fires and they reach outside the
    buffer at every address; the same holds for the 16-bit accesses on a core
    of no byte. *)
Theorem small_core_escapes_the_guard (sh : shifter) (c : core) (a : Z) :
  wf_core c -> memory_size c < 3 -> 0 <= a < 2 ^ 32 ->
  core_bus_read32 sh c a = Undefined /\
  (forall val, core_bus_write32 c a val = Undefined) /\
  (memory_size c = 0 ->
   core_bus_read16 sh c a = Undefined /\
   forall val, core_bus_write16 c a val = Undefined).
Proof.
  intros [Hsz Hmax] Hms Ha.
  destruct (align2_bounds a Ha) as [Hal Hal'].
  assert (H3 : size_sub (memory_size c) 3 = memory_size c - 3 + 2 ^ 64).
  { unfold size_sub, SIZE_BITS.
    rewrite <- (Z.mod_add _ 1) by lia. rewrite Z.mod_small by lia. lia. }
  unfold core_bus_read32, core_bus_write32, core_bus_read16, core_bus_write16.
  cbv zeta. rewrite H3.
  set (a' := Z.land a 0xFFFFFFFE) in *.
  destruct (Z.leb_spec (memory_size c - 3 + 2 ^ 64) a'); [lia|].
  destruct (Z.leb_spec (memory_size c - 3 + 2 ^ 64) a); [lia|].
  rewrite load_value_outside by lia.
  split; [reflexivity|]. split.
  - intros val. rewrite store_value_outside by lia. reflexivity.
  - intros Hzero.
    assert (Hwrap : size_sub (memory_size c) 1 = 2 ^ 64 - 1)
      by (rewrite Hzero; reflexivity).
    rewrite Hwrap.
    destruct (Z.leb_spec (2 ^ 64 - 1) a'); [lia|].
    destruct (Z.leb_spec (2 ^ 64 - 1) a); [lia|].
    rewrite load_value_outside by lia.
    split; [reflexivity|].
    intros val. rewrite store_value_outside by lia. reflexivity.
Qed.

(** *** The further properties on the sample cores *)

Import Samples GuiSamples.

Lemma write8_read8_round_trip_witness :
  wf_core (core8 false) /\
  0 <= 3 < memory_size (core8 false) /\
  exists c',
    core_bus_write8 (core8 false) 3 Byte.xab = Ok c' /\
    wf_core c' /\
    core_bus_read8 c' 3 = Ok Byte.xab /\
    forall i, 0 <= i -> i <> 3 -> core_bus_read8 c' i = core_bus_read8 (core8 false) i.
Proof.
  assert (H1 : wf_core (core8 false)) by exact (wf_core8 false).
  assert (H2 : 0 <= 3 < memory_size (core8 false)) by (simpl; lia).
  repeat (split; [assumption|]).
  exact (write8_read8_round_trip (core8 false) 3 Byte.xab H1 H2).
Defined.

Lemma write16_read16_round_trip_witness :
  wf_core (core8 true) /\
  0 <= 6 < 2 ^ 32 /\
  6 mod 2 = 0 /\
  6 + 1 < memory_size (core8 true) /\
  exists c',
    core_bus_write16 (core8 true) 6 0x1BEEF = Ok c' /\
    wf_core c' /\
    core_bus_read16 ShiftCountWide c' 6 = Ok (0x1BEEF mod 2 ^ 16).
Proof.
  assert (H1 : wf_core (core8 true)) by exact (wf_core8 true).
  assert (H2 : 0 <= 6 < 2 ^ 32) by lia.
  assert (H3 : 6 mod 2 = 0) by reflexivity.
  assert (H4 : 6 + 1 < memory_size (core8 true)) by (simpl; lia).
  repeat (split; [assumption|]).
  exact (write16_read16_round_trip ShiftCountWide (core8 true) 6 0x1BEEF H1 H2 H3 H4).
Defined.

Lemma write32_read32_round_trip_witness :
  wf_core (core8 false) /\
  0 <= 4 /\
  4 + 1 < 2 ^ 32 /\
  4 mod 4 = 0 /\
  4 + 3 < memory_size (core8 false) /\
  exists c',
    core_bus_write32 (core8 false) 4 0xDEADBEEF = Ok c' /\
    wf_core c' /\
    core_bus_read32 ShiftCountMasked c' 4 = Ok (0xDEADBEEF mod 2 ^ 32) /\
    core_bus_read32 ShiftCountMasked c' (4 + 1) = Ok (ror32 (0xDEADBEEF mod 2 ^ 32) 8).
Proof.
  assert (H1 : wf_core (core8 false)) by exact (wf_core8 false).
  assert (H2 : 0 <= 4) by lia.
  assert (H3 : 4 + 1 < 2 ^ 32) by lia.
  assert (H4 : 4 mod 4 = 0) by reflexivity.
  assert (H5 : 4 + 3 < memory_size (core8 false)) by (simpl; lia).
  repeat (split; [assumption|]).
  exact (write32_read32_round_trip ShiftCountMasked (core8 false) 4 0xDEADBEEF
           H1 H2 H3 H4 H5).
Defined.

Lemma read32_rotates_word_at_even_address_witness :
  wf_core (core8 false) /\
  0 <= 3 < 2 ^ 32 /\
  Z.land 3 0xFFFFFFFE + 3 < memory_size (core8 false) /\
  exists bs : list byte,
    length bs = 4%nat /\
    (forall (k : nat) (b : byte),
       bs !! k = Some b ->
       core_bus_read8 (core8 false) (Z.land 3 0xFFFFFFFE + Z.of_nat k) = Ok b) /\
    core_bus_read32 ShiftCountMasked (core8 false) 3 =
      Ok (ror32 (le_value bs) (8 * (3 mod 4))).
Proof.
  assert (H1 : wf_core (core8 false)) by exact (wf_core8 false).
  assert (H2 : 0 <= 3 < 2 ^ 32) by lia.
  assert (H3 : Z.land 3 0xFFFFFFFE + 3 < memory_size (core8 false)) by reflexivity.
  repeat (split; [assumption|]).
  exact (read32_rotates_word_at_even_address ShiftCountMasked (core8 false) 3 H1 H2 H3).
Defined.

Lemma reads_return_32_bits_witness :
  (core_bus_read16 ShiftCountMasked (core8 false) 1 = Ok 0x11000022 \/
   core_bus_read32 ShiftCountMasked (core8 false) 1 = Ok 0x11000022) /\
  0 <= 0x11000022 < 2 ^ 32.
Proof.
  assert (H1 : core_bus_read16 ShiftCountMasked (core8 false) 1 = Ok 0x11000022 \/
               core_bus_read32 ShiftCountMasked (core8 false) 1 = Ok 0x11000022)
    by (left; vm_compute; reflexivity).
  split; [assumption|].
  exact (reads_return_32_bits ShiftCountMasked (core8 false) 1 0x11000022 H1).
Defined.

Lemma accesses_stay_in_buffer_witness :
  wf_core (core8 false) /\
  3 <= memory_size (core8 false) /\
  0 <= 6 < 2 ^ 32 /\
  ((exists b, core_bus_read8 (core8 false) 6 = Ok b) /\
   (forall val, exists c', core_bus_write8 (core8 false) 6 val = Ok c')) /\
  (exists v, core_bus_read16 ShiftCountMasked (core8 false) 6 = Ok v) /\
  core_bus_read32 ShiftCountMasked (core8 false) 6 = Panic /\
  (forall val, exists c', core_bus_write16 (core8 false) 6 val = Ok c') /\
  (forall val, core_bus_write32 (core8 false) 6 val = Panic).
Proof.
  assert (H1 : wf_core (core8 false)) by exact (wf_core8 false).
  assert (H2 : 3 <= memory_size (core8 false)) by (simpl; lia).
  assert (H3 : 0 <= 6 < 2 ^ 32) by lia.
  repeat (split; [assumption|]).
  exact (accesses_stay_in_buffer ShiftCountMasked (core8 false) 6 H1 H2 H3).
Defined.

Lemma small_core_escapes_the_guard_witness :
  wf_core core0 /\
  memory_size core0 < 3 /\
  0 <= 0 < 2 ^ 32 /\
  core_bus_read32 ShiftCountMasked core0 0 = Undefined /\
  (forall val, core_bus_write32 core0 0 val = Undefined) /\
  (memory_size core0 = 0 ->
   core_bus_read16 ShiftCountMasked core0 0 = Undefined /\
   forall val, core_bus_write16 core0 0 val = Undefined).
Proof.
  assert (H1 : wf_core core0) by (split; reflexivity).
  assert (H2 : memory_size core0 < 3) by (simpl; lia).
  assert (H3 : 0 <= 0 < 2 ^ 32) by lia.
  repeat (split; [assumption|]).
  exact (small_core_escapes_the_guard ShiftCountMasked core0 0 H1 H2 H3).
Defined.

End BusMore.

(** ** Further properties of the run loop *)

Module GbaMore.

Import Gba GbaViews GbaFacts.

Section Loop.

Context {Hw Host : Type} `{HW : Hardware Hw Host}.

Implicit Types (M : machine Hw Host) (m : message) (buf : list message).

Lemma limit_fps_fields M :
  emu (limit_fps M) = emu M /\
  mqueue (limit_fps M) = mqueue M /\
  log (limit_fps M) = log M.
Proof.
  unfold limit_fps.
  destruct (speed (emu M) =? 0); destruct (hs_tick_count (host M)) as [now h].
  - simpl. auto.
  - destruct (_ <? _); [destruct (hs_tick_count _)|]; simpl; auto.
Qed.

Lemma after_frame_fields M batch :
  mqueue (after_frame M batch) = empty_queue /\
  log (after_frame M batch) =
    log M ++ [EvLock] ++ cleanup_events batch
          ++ frame_events (state (emu (run_messages batch M))).
Proof.
  unfold after_frame. cbv zeta.
  destruct (limit_fps_fields
              {| emu := match state (emu (run_messages batch M)) with
                        | GBA_STATE_RUN =>
                          sched_run_for (emu (run_messages batch M)) CYCLES_PER_FRAME
                        | GBA_STATE_PAUSE => emu (run_messages batch M)
                        end;
                 mqueue := empty_queue;
                 pace := pace (run_messages batch M);
                 host := host M;
                 log := log M ++ [EvLock] ++ cleanup_events batch
                              ++ frame_events (state (emu (run_messages batch M))) |})
    as (_ & -> & ->).
  split; reflexivity.
Qed.

Lemma turn_without_exit M batch :
  mqueue M = empty_queue -> pushable batch -> existsb is_exit batch = false ->
  exists q,
    push_all batch (mqueue M) = Some q /\
    gba_run_iteration (set_mqueue M q) = Running (after_frame M batch).
Proof.
  intros Hq [Hpos Hmax] Hex.
  destruct (push_all_holds batch (mqueue M) []) as (q & Hpush & Hholds & _);
    [rewrite Hq; apply holds_empty_queue | exact Hpos | exact Hmax |].
  simpl app in Hholds.
  exists q. split; [exact Hpush|].
  unfold gba_run_iteration.
  set (M1 := emit (set_mqueue M q) EvLock).
  assert (Hd : drain (default [] (messages (mqueue M1))) M1 =
               Running (set_mqueue (run_messages batch M1)
                          {| messages := messages q; mq_length := 0;
                             allocated_size := 0 |})).
  { destruct Hholds as (Hbuf & Hrest). subst M1. simpl mqueue. rewrite Hbuf.
    apply (drain_all batch (emit (set_mqueue M q) EvLock)); [|exact Hex].
    simpl mqueue. split; assumption. }
  rewrite Hd. subst M1. rewrite (run_messages_locked _ _ _ Hex).
  unfold after_frame, emit, set_mqueue, set_emu, empty_queue, frame_events.
  simpl. f_equal.
  destruct (state (emu (run_messages batch M))); simpl;
    rewrite <- ?app_assoc; reflexivity.
Qed.

Lemma turn_with_exit M pre ex post :
  mqueue M = empty_queue -> pushable (pre ++ ex :: post) ->
  existsb is_exit pre = false -> is_exit ex = true ->
  exists q,
    push_all (pre ++ ex :: post) (mqueue M) = Some q /\
    gba_run_iteration (set_mqueue M q) = Returned (at_exit M pre ex post).
Proof.
  intros Hq [Hpos Hmax] Hpre Hexit.
  destruct (push_all_holds (pre ++ ex :: post) (mqueue M) [])
    as (q & Hpush & Hholds & Hqeq);
    [rewrite Hq; apply holds_empty_queue | exact Hpos | exact Hmax |].
  simpl app in Hholds, Hqeq.
  rewrite Hqeq in Hpush by (destruct pre; discriminate). clear Hqeq Hholds q.
  eexists. split; [exact Hpush|]. unfold gba_run_iteration.
  set (q := queue_of (pre ++ ex :: post)).
  set (M1 := emit (set_mqueue M q) EvLock).
  change (default [] (messages (mqueue M1))) with (pre ++ ex :: post).
  rewrite (drain_prefix pre (ex :: post) M1 Hpre);
    [| reflexivity | reflexivity | exact Hpos | exact Hmax].
  subst M1. rewrite (run_messages_locked _ _ _ Hpre).
  cbn [drain]. unfold set_mqueue. simpl mqueue. simpl mq_length.
  destruct (Z.eqb_spec (Z.of_nat (S (length post))) 0) as [|_]; [lia|].
  destruct ex as [[ | | | | | | | | | | | | | ] sz]; try discriminate Hexit.
  unfold exec_message, emit, at_exit. simpl.
  rewrite <- !app_assoc. reflexivity.
Qed.

Lemma frames_keep_queue_empty batches M :
  mqueue M = empty_queue -> mqueue (fold_left after_frame batches M) = empty_queue.
Proof.
  revert M. induction batches as [|b bs IH]; intros M Hq; [exact Hq|].
  simpl. apply IH. apply after_frame_fields.
Qed.

Lemma loop_without_exit batches M :
  mqueue M = empty_queue ->
  Forall (fun b => pushable b /\ existsb is_exit b = false) batches ->
  gba_run_loop batches M = Running (fold_left after_frame batches M).
Proof.
  revert M. induction batches as [|b bs IH]; intros M Hq Hall; [reflexivity|].
  apply Forall_cons in Hall as [[Hb Hex] Hall].
  destruct (turn_without_exit M b Hq Hb Hex) as (q & Hpush & Hrun).
  cbn [gba_run_loop fold_left]. rewrite Hpush, Hrun.
  apply IH; [apply after_frame_fields | exact Hall].
Qed.

(** X8: as long as no batch holds an Exit, [gba_run] goes through the
    batches turn by turn, each turn being [after_frame] on the machine the
    turn before left, and leaves the queue empty. *)
Theorem frames_compose batches M :
  mqueue M = empty_queue ->
  Forall (fun b => pushable b /\ existsb is_exit b = false) batches ->
  gba_run_loop batches M = Running (fold_left after_frame batches M) /\
  mqueue (fold_left after_frame batches M) = empty_queue.
Proof.
  intros Hq Hall. split.
  - apply loop_without_exit; assumption.
  - apply frames_keep_queue_empty. exact Hq.
Qed.

(** X9: [gba_run] returns in the first turn whose batch holds an Exit,
    after the complete turns before it; the batches pushed later are never
    looked at. *)
Theorem first_exit_ends_the_loop front pre ex post later M :
  mqueue M = empty_queue ->
  Forall (fun b => pushable b /\ existsb is_exit b = false) front ->
  pushable (pre ++ ex :: post) ->
  existsb is_exit pre = false -> is_exit ex = true ->
  gba_run_loop (front ++ (pre ++ ex :: post) :: later) M =
  Returned (at_exit (fold_left after_frame front M) pre ex post).
Proof.
  revert M. induction front as [|b bs IH]; intros M Hq Hall Hb Hpre Hex.
  - destruct (turn_with_exit M pre ex post Hq Hb Hpre Hex) as (q & Hpush & Hrun).
    simpl app. cbn [gba_run_loop fold_left]. rewrite Hpush, Hrun. reflexivity.
  - apply Forall_cons in Hall as [[Hb0 Hex0] Hall].
    destruct (turn_without_exit M b Hq Hb0 Hex0) as (q & Hpush & Hrun).
    simpl app. cbn [gba_run_loop fold_left]. rewrite Hpush, Hrun.
    apply IH; try assumption. apply after_frame_fields.
Qed.

Lemma lock_walk_app (held : bool) (l1 l2 : list event) :
  lock_walk held (l1 ++ l2) =
  match lock_walk held l1 with
  | Some held' => lock_walk held' l2
  | None => None
  end.
Proof.
  revert held. induction l1 as [|e l1 IH]; intros held; [reflexivity|].
  simpl. destruct e, held; try reflexivity; apply IH.
Qed.

Lemma lock_walk_cleanup_events buf : lock_walk true (cleanup_events buf) = Some true.
Proof.
  unfold cleanup_events. induction buf as [|m buf IH]; [reflexivity|].
  simpl. rewrite lock_walk_app.
  assert (Hm : lock_walk true (cleanup_of m) = Some true).
  { unfold cleanup_of. destruct (type m); try reflexivity;
      destruct (cleanup d); reflexivity. }
  rewrite Hm. exact IH.
Qed.

Lemma split_first_exit buf :
  existsb is_exit buf = true ->
  exists pre ex post,
    buf = pre ++ ex :: post /\ existsb is_exit pre = false /\ is_exit ex = true.
Proof.
  induction buf as [|m buf IH]; [discriminate|].
  simpl. destruct (is_exit m) eqn:Hm.
  - intros _. exists [], m, buf. repeat split. exact Hm.
  - simpl. intros Hex. destruct (IH Hex) as (pre & ex & post & -> & Hpre & Hexit).
    exists (m :: pre), ex, post. repeat split; [|exact Hexit].
    simpl. rewrite Hm. exact Hpre.
Qed.

Lemma frame_events_calls (st : gba_states) :
  frame_events st =
  [EvFreeQueue; EvUnlock]
  ++ (if match st with GBA_STATE_RUN => true | GBA_STATE_PAUSE => false end
      then [EvSchedRunFor CYCLES_PER_FRAME] else []).
Proof. destruct st; reflexivity. Qed.

Lemma lock_walk_turn M batch :
  lock_walk false (log M) = Some false ->
  lock_walk false (log (after_frame M batch)) = Some false.
Proof.
  intros Hlock. destruct (after_frame_fields M batch) as [_ Hlog].
  rewrite Hlog, lock_walk_app, Hlock. simpl.
  rewrite lock_walk_app, lock_walk_cleanup_events.
  destruct (state (emu (run_messages batch M))); reflexivity.
Qed.

(** X10: whatever the batches, Exit or not, [gba_run] does not leave the
    buffer of the queue, and its calls are, turn by turn and for the batch of
    that turn: the lock, the cleanup callbacks of the batch in the order of
    the pushes, the release of the buffer, the unlock and at most one run of
    the scheduler for [CYCLES_PER_FRAME]. The turn that meets an Exit is the
    lock, the cleanup callbacks of the records before the Exit and the
    unlock, and no turn follows it. So the lock is taken once a turn, the
    callbacks and the release of the buffer happen under it, the scheduler
    runs outside it, and it is not held when the loop stops or returns. *)
Theorem loop_keeps_lock_discipline batches M :
  mqueue M = empty_queue ->
  Forall pushable batches ->
  lock_walk false (log M) = Some false ->
  match gba_run_loop batches M with
  | Running R =>
    Forall (fun b => existsb is_exit b = false) batches /\
    (exists frames : list bool,
       length frames = length batches /\
       log R = log M ++ concat (zip_with turn_calls batches frames)) /\
    lock_walk false (log R) = Some false
  | Returned R =>
    (exists front pre ex post later (frames : list bool),
       batches = front ++ (pre ++ ex :: post) :: later /\
       Forall (fun b => existsb is_exit b = false) front /\
       existsb is_exit pre = false /\ is_exit ex = true /\
       length frames = length front /\
       log R = log M ++ concat (zip_with turn_calls front frames) ++ exit_calls pre) /\
    lock_walk false (log R) = Some false
  | Undefined => False
  end.
Proof.
  revert M. induction batches as [|b bs IH]; intros M Hq Hall Hlock.
  - cbn [gba_run_loop]. split; [constructor|]. split; [|exact Hlock].
    exists []. split; [reflexivity|]. simpl. rewrite app_nil_r. reflexivity.
  - apply Forall_cons in Hall as [Hb Hall].
    destruct (existsb is_exit b) eqn:Hex.
    + destruct (split_first_exit b Hex) as (pre & ex & post & -> & Hpre & Hexit).
      destruct (turn_with_exit M pre ex post Hq Hb Hpre Hexit) as (q & Hpush & Hrun).
      cbn [gba_run_loop]. rewrite Hpush, Hrun. unfold at_exit. cbn [log]. split.
      * exists [], pre, ex, post, bs, [].
        repeat (split; [first [reflexivity | assumption | constructor]|]).
        reflexivity.
      * rewrite lock_walk_app, Hlock. simpl.
        rewrite lock_walk_app, lock_walk_cleanup_events. reflexivity.
    + destruct (turn_without_exit M b Hq Hb Hex) as (q & Hpush & Hrun).
      cbn [gba_run_loop]. rewrite Hpush, Hrun.
      destruct (after_frame_fields M b) as [Hq' Hlog].
      specialize (IH (after_frame M b) Hq' Hall (lock_walk_turn M b Hlock)).
      set (fr := match state (emu (run_messages b M)) with
                 | GBA_STATE_RUN => true | GBA_STATE_PAUSE => false end).
      assert (Hturn : log (after_frame M b) = log M ++ turn_calls b fr).
      { rewrite Hlog, frame_events_calls. reflexivity. }
      destruct (gba_run_loop bs (after_frame M b)) as [R|R|]; [| |exact IH].
      * destruct IH as (Hno & (frames & Hlen & HR) & Hwalk).
        split; [constructor; assumption|]. split; [|exact Hwalk].
        exists (fr :: frames). split; [simpl; rewrite Hlen; reflexivity|].
        rewrite HR, Hturn. cbn [zip_with concat]. rewrite <- app_assoc. reflexivity.
      * destruct IH as ((front & pre & ex & post & later & frames
                         & -> & Hno & Hpre & Hexit & Hlen & HR) & Hwalk).
        split; [|exact Hwalk].
        exists (b :: front), pre, ex, post, later, (fr :: frames).
        split; [reflexivity|]. split; [constructor; assumption|].
        split; [exact Hpre|]. split; [exact Hexit|].
        split; [simpl; rewrite Hlen; reflexivity|].
        rewrite HR, Hturn. cbn [zip_with concat]. rewrite <- !app_assoc. reflexivity.
Qed.

Lemma key_message_keyinput M k pressed sz :
  (forall g : gba Hw, io_keyinput (io_scan_keypad_irq g) = io_keyinput g) ->
  io_keyinput (emu (apply_message M {| type := MESSAGE_KEYINPUT k pressed; size := sz |}))
  = set_key k (negb pressed) (io_keyinput (emu M)).
Proof.
  intros Hscan. unfold apply_message, exec_message.
  cbn [type emu set_emu]. rewrite Hscan. reflexivity.
Qed.

(** X11: a KeyInput press clears the bit of the button; the release that
    follows sets it and leaves the bits of the nine other buttons as they
    were before the press. The pair restores the whole KEYINPUT register
    exactly when the button was up before the press: on a button that was
    already down it leaves the button up. [io_scan_keypad_irq] is a function
    that does not write KEYINPUT. *)
Theorem press_then_release_restores_keyinput M k sz sz' :
  (forall g : gba Hw, io_keyinput (io_scan_keypad_irq g) = io_keyinput g) ->
  let pressed_M := run_messages [{| type := MESSAGE_KEYINPUT k true; size := sz |}] M in
  let released_M :=
    run_messages [{| type := MESSAGE_KEYINPUT k true; size := sz |};
                  {| type := MESSAGE_KEYINPUT k false; size := sz' |}] M in
  key_bit k (io_keyinput (emu pressed_M)) = false /\
  key_bit k (io_keyinput (emu released_M)) = true /\
  (forall k', k' <> k ->
     key_bit k' (io_keyinput (emu released_M)) = key_bit k' (io_keyinput (emu M))) /\
  (io_keyinput (emu released_M) = io_keyinput (emu M) <->
   key_bit k (io_keyinput (emu M)) = true).
Proof.
  intros Hscan. cbv zeta. unfold run_messages. cbn [fold_left].
  rewrite !(key_message_keyinput _ _ _ _ Hscan).
  destruct (io_keyinput (emu M)) as [a b se st r l u d rr ll].
  split; [destruct k; reflexivity|]. split; [destruct k; reflexivity|]. split.
  - intros k' Hne. destruct k, k'; try reflexivity; contradiction.
  - destruct k; simpl; (split; [intros H; congruence | intros ->; reflexivity]).
Qed.

(** X12: a Pause does not clear [started]: after Run then Pause, a
    BackupType and an Rtc message still leave the memory fields and the two
    RTC flags as they were. *)
Theorem pause_keeps_started M s t dev sz1 sz2 sz3 sz4 :
  let R := run_messages [{| type := MESSAGE_RUN s; size := sz1 |};
                         {| type := MESSAGE_PAUSE; size := sz2 |};
                         {| type := MESSAGE_BACKUP_TYPE t; size := sz3 |};
                         {| type := MESSAGE_RTC dev; size := sz4 |}] M in
  started (emu R) = true /\
  state (emu R) = GBA_STATE_PAUSE /\
  mem (emu R) = mem (emu M) /\
  rtc_auto_detect (emu R) = rtc_auto_detect (emu M) /\
  rtc_enabled (emu R) = rtc_enabled (emu M).
Proof.
  cbv zeta. unfold run_messages. cbn [fold_left].
  set (M1 := apply_message M {| type := MESSAGE_RUN s; size := sz1 |}).
  set (M2 := apply_message M1 {| type := MESSAGE_PAUSE; size := sz2 |}).
  assert (H1 : started (emu M1) = true /\ mem (emu M1) = mem (emu M) /\
               rtc_auto_detect (emu M1) = rtc_auto_detect (emu M) /\
               rtc_enabled (emu M1) = rtc_enabled (emu M)).
  { subst M1. unfold apply_message, exec_message. cbn [type].
    destruct (s =? 0); repeat split; reflexivity. }
  destruct H1 as (Hs1 & Hm1 & Ha1 & He1).
  assert (H2 : emu M2 = set_state (emu M1) GBA_STATE_PAUSE) by reflexivity.
  assert (Hs2 : started (emu M2) = true) by (rewrite H2; exact Hs1).
  assert (H3 : apply_message M2 {| type := MESSAGE_BACKUP_TYPE t; size := sz3 |} = M2)
    by (unfold apply_message, exec_message; cbn [type]; rewrite Hs2; reflexivity).
  rewrite H3.
  assert (H4 : apply_message M2 {| type := MESSAGE_RTC dev; size := sz4 |} = M2)
    by (unfold apply_message, exec_message; cbn [type]; rewrite Hs2; reflexivity).
  rewrite H4, H2. cbn [started state mem rtc_auto_detect rtc_enabled set_state].
  repeat split; assumption || reflexivity.
Qed.

Lemma pad_after_copy (old src : list byte) (n cap : Z) :
  0 <= n <= cap -> n <= Z.of_nat (length src) ->
  memcpy (memset old Byte.x00 cap) src n =
  take (Z.to_nat n) src ++ replicate (Z.to_nat (cap - n)) Byte.x00
    ++ drop (Z.to_nat cap) old.
Proof.
  intros Hn Hsrc. unfold memcpy, memset. f_equal.
  rewrite drop_app_le by (rewrite length_replicate; lia).
  f_equal. rewrite drop_replicate. f_equal. lia.
Qed.

(** X13: a LoadRom message sets [rom_size] to the payload size capped at
    [CART_SIZE] and leaves in the ROM region that many payload bytes followed
    by zeros up to [CART_SIZE], so nothing of an earlier ROM stays;
    [db_lookup_game] is a function that writes neither. *)
Theorem load_rom_pads_with_zeros M d sz :
  (forall g : gba Hw, rom (mem (db_lookup_game g)) = rom (mem g) /\
                      rom_size (mem (db_lookup_game g)) = rom_size (mem g)) ->
  data_size d = Z.of_nat (length (data d)) ->
  exists M',
    exec_message {| type := MESSAGE_LOAD_ROM d; size := sz |} M = Running M' /\
    rom_size (mem (emu M')) = Z.min (data_size d) CART_SIZE /\
    rom (mem (emu M')) =
      take (Z.to_nat (rom_size (mem (emu M')))) (data d)
      ++ replicate (Z.to_nat (CART_SIZE - rom_size (mem (emu M')))) Byte.x00
      ++ drop (Z.to_nat CART_SIZE) (rom (mem (emu M))).
Proof.
  intros Hdb Hsz.
  assert (Hn : 0 <= Z.min (data_size d) CART_SIZE <= CART_SIZE)
    by (unfold CART_SIZE; lia).
  set (g := set_mem (emu M)
              (set_rom (set_rom_size (mem (emu M)) (Z.min (data_size d) CART_SIZE))
                 (memcpy (memset (rom (mem (emu M))) Byte.x00 CART_SIZE) (data d)
                    (Z.min (data_size d) CART_SIZE)))).
  assert (Hemu : emu (run_cleanup d (set_emu M g)) = g)
    by (unfold run_cleanup; destruct (cleanup d); reflexivity).
  exists (set_emu (run_cleanup d (set_emu M g))
            (db_lookup_game (emu (run_cleanup d (set_emu M g))))).
  split; [reflexivity|].
  cbn [emu set_emu]. rewrite Hemu.
  destruct (Hdb g) as [-> ->]. subst g.
  cbn [mem set_mem rom rom_size set_rom set_rom_size].
  split; [reflexivity|]. apply pad_after_copy; lia.
Qed.

(** X14: a LoadBios message leaves in the BIOS region the payload bytes
    below [BIOS_MASK], then zeros up to [BIOS_MASK]; the byte at offset
    [BIOS_MASK] of a region of [BIOS_MASK + 1] bytes is never written. *)
Theorem load_bios_pads_below_the_mask M d sz :
  data_size d = Z.of_nat (length (data d)) ->
  exists M',
    exec_message {| type := MESSAGE_LOAD_BIOS d; size := sz |} M = Running M' /\
    bios (mem (emu M')) =
      take (Z.to_nat (Z.min (data_size d) BIOS_MASK)) (data d)
      ++ replicate (Z.to_nat (BIOS_MASK - Z.min (data_size d) BIOS_MASK)) Byte.x00
      ++ drop (Z.to_nat BIOS_MASK) (bios (mem (emu M))) /\
    (length (bios (mem (emu M))) = Z.to_nat (BIOS_MASK + 1) ->
     length (bios (mem (emu M'))) = Z.to_nat (BIOS_MASK + 1) /\
     bios (mem (emu M')) !! Z.to_nat BIOS_MASK = bios (mem (emu M)) !! Z.to_nat BIOS_MASK).
Proof.
  intros Hsz.
  assert (Hn : 0 <= Z.min (data_size d) BIOS_MASK <= BIOS_MASK)
    by (unfold BIOS_MASK; lia).
  assert (Hbios : forall M',
            exec_message {| type := MESSAGE_LOAD_BIOS d; size := sz |} M = Running M' ->
            bios (mem (emu M')) =
            memcpy (memset (bios (mem (emu M))) Byte.x00 BIOS_MASK) (data d)
              (Z.min (data_size d) BIOS_MASK)).
  { intros M'. unfold exec_message, run_cleanup. cbn [type].
    destruct (cleanup d); intros [= <-]; reflexivity. }
  eexists. split; [reflexivity|].
  rewrite (Hbios _ eq_refl). rewrite pad_after_copy by lia.
  split; [reflexivity|]. intros Hlen.
  assert (Htake : length (take (Z.to_nat (Z.min (data_size d) BIOS_MASK)) (data d))
                  = Z.to_nat (Z.min (data_size d) BIOS_MASK))
    by (rewrite length_take; lia).
  split.
  - rewrite !length_app, Htake, length_replicate, length_drop, Hlen. lia.
  - rewrite lookup_app_r by lia. rewrite lookup_app_r by (rewrite length_replicate; lia).
    rewrite lookup_drop, Htake, length_replicate. f_equal. lia.
Qed.

End Loop.

(** X15: [gba_message_push], called for each message of a batch, appends
    the batch to the queue in the order of the calls, adds their number to
    [length] and their sizes to [allocated_size]. *)
Theorem pushes_append_in_order (q : message_queue) (buf batch : list message) :
  holds q buf ->
  Forall (fun m => 0 < size m) batch ->
  total_size (buf ++ batch) < 2 ^ 64 ->
  exists q',
    push_all batch q = Some q' /\
    holds q' (buf ++ batch) /\
    mq_length q' = mq_length q + Z.of_nat (length batch) /\
    allocated_size q' = allocated_size q + total_size batch.
Proof.
  intros Hq Hpos Hmax.
  destruct (push_all_holds batch q buf Hq Hpos Hmax) as (q' & Hpush & Hholds & _).
  exists q'. split; [exact Hpush|]. split; [exact Hholds|].
  destruct Hq as (_ & Hl & Ha & _). destruct Hholds as (_ & Hl' & Ha' & _).
  rewrite Hl', Ha', Hl, Ha, length_app, total_size_app. lia.
Qed.

(** *** The further properties on the sample board *)

Import Samples GuiSamples.

Lemma frames_compose_witness :
  mqueue machine0 = empty_queue /\
  Forall (fun b => pushable b /\ existsb is_exit b = false)
         [batch0; [msg (MESSAGE_RUN 0)]] /\
  gba_run_loop [batch0; [msg (MESSAGE_RUN 0)]] machine0 =
    Running (fold_left after_frame [batch0; [msg (MESSAGE_RUN 0)]] machine0) /\
  mqueue (fold_left after_frame [batch0; [msg (MESSAGE_RUN 0)]] machine0) = empty_queue.
Proof.
  assert (H1 : mqueue machine0 = empty_queue) by reflexivity.
  assert (H2 : Forall (fun b => pushable b /\ existsb is_exit b = false)
                 [batch0; [msg (MESSAGE_RUN 0)]])
    by (repeat constructor).
  repeat (split; [assumption|]).
  exact (frames_compose [batch0; [msg (MESSAGE_RUN 0)]] machine0 H1 H2).
Defined.

Lemma first_exit_ends_the_loop_witness :
  mqueue machine0 = empty_queue /\
  Forall (fun b => pushable b /\ existsb is_exit b = false) [batch0] /\
  pushable ([msg MESSAGE_PAUSE] ++ msg MESSAGE_EXIT :: [msg MESSAGE_RESET]) /\
  existsb is_exit [msg MESSAGE_PAUSE] = false /\
  is_exit (msg MESSAGE_EXIT) = true /\
  gba_run_loop
    ([batch0] ++ ([msg MESSAGE_PAUSE] ++ msg MESSAGE_EXIT :: [msg MESSAGE_RESET])
             :: [[msg (MESSAGE_RUN 1)]]) machine0 =
  Returned (at_exit (fold_left after_frame [batch0] machine0)
              [msg MESSAGE_PAUSE] (msg MESSAGE_EXIT) [msg MESSAGE_RESET]).
Proof.
  assert (H1 : mqueue machine0 = empty_queue) by reflexivity.
  assert (H2 : Forall (fun b => pushable b /\ existsb is_exit b = false) [batch0])
    by (repeat constructor).
  assert (H3 : pushable ([msg MESSAGE_PAUSE] ++ msg MESSAGE_EXIT :: [msg MESSAGE_RESET]))
    by (repeat constructor).
  assert (H4 : existsb is_exit [msg MESSAGE_PAUSE] = false) by reflexivity.
  assert (H5 : is_exit (msg MESSAGE_EXIT) = true) by reflexivity.
  repeat (split; [assumption|]).
  exact (first_exit_ends_the_loop [batch0] [msg MESSAGE_PAUSE] (msg MESSAGE_EXIT)
           [msg MESSAGE_RESET] [[msg (MESSAGE_RUN 1)]] machine0 H1 H2 H3 H4 H5).
Defined.

Lemma loop_keeps_lock_discipline_witness :
  mqueue machine0 = empty_queue /\
  Forall pushable [batch0; [msg (MESSAGE_LOAD_BIOS bios_image); msg MESSAGE_EXIT]] /\
  lock_walk false (log machine0) = Some false /\
  match gba_run_loop [batch0; [msg (MESSAGE_LOAD_BIOS bios_image); msg MESSAGE_EXIT]]
                     machine0 with
  | Running R =>
    Forall (fun b => existsb is_exit b = false)
           [batch0; [msg (MESSAGE_LOAD_BIOS bios_image); msg MESSAGE_EXIT]] /\
    (exists frames : list bool,
       length frames
         = length [batch0; [msg (MESSAGE_LOAD_BIOS bios_image); msg MESSAGE_EXIT]] /\
       log R = log machine0 ++
         concat (zip_with turn_calls
                   [batch0; [msg (MESSAGE_LOAD_BIOS bios_image); msg MESSAGE_EXIT]]
                   frames)) /\
    lock_walk false (log R) = Some false
  | Returned R =>
    (exists front pre ex post later (frames : list bool),
       [batch0; [msg (MESSAGE_LOAD_BIOS bios_image); msg MESSAGE_EXIT]]
         = front ++ (pre ++ ex :: post) :: later /\
       Forall (fun b => existsb is_exit b = false) front /\
       existsb is_exit pre = false /\ is_exit ex = true /\
       length frames = length front /\
       log R = log machine0 ++ concat (zip_with turn_calls front frames)
                 ++ exit_calls pre) /\
    lock_walk false (log R) = Some false
  | Undefined => False
  end.
Proof.
  assert (H1 : mqueue machine0 = empty_queue) by reflexivity.
  assert (H2 : Forall pushable
                 [batch0; [msg (MESSAGE_LOAD_BIOS bios_image); msg MESSAGE_EXIT]])
    by (repeat constructor).
  assert (H3 : lock_walk false (log machine0) = Some false) by reflexivity.
  repeat (split; [assumption|]).
  exact (loop_keeps_lock_discipline
           [batch0; [msg (MESSAGE_LOAD_BIOS bios_image); msg MESSAGE_EXIT]]
           machine0 H1 H2 H3).
Defined.

Lemma press_then_release_restores_keyinput_witness :
  (forall g : gba Z, io_keyinput (io_scan_keypad_irq g) = io_keyinput g) /\
  key_bit KEY_B (io_keyinput (emu (run_messages
     [{| type := MESSAGE_KEYINPUT KEY_B true; size := 16 |}] machine0))) = false /\
  key_bit KEY_B (io_keyinput (emu (run_messages
     [{| type := MESSAGE_KEYINPUT KEY_B true; size := 16 |};
      {| type := MESSAGE_KEYINPUT KEY_B false; size := 16 |}] machine0))) = true /\
  (forall k', k' <> KEY_B ->
     key_bit k' (io_keyinput (emu (run_messages
       [{| type := MESSAGE_KEYINPUT KEY_B true; size := 16 |};
        {| type := MESSAGE_KEYINPUT KEY_B false; size := 16 |}] machine0)))
     = key_bit k' (io_keyinput (emu machine0))) /\
  (io_keyinput (emu (run_messages
     [{| type := MESSAGE_KEYINPUT KEY_B true; size := 16 |};
      {| type := MESSAGE_KEYINPUT KEY_B false; size := 16 |}] machine0))
   = io_keyinput (emu machine0) <->
   key_bit KEY_B (io_keyinput (emu machine0)) = true).
Proof.
  assert (H1 : forall g : gba Z, io_keyinput (io_scan_keypad_irq g) = io_keyinput g)
    by (intros g; reflexivity).
  split; [assumption|].
  exact (press_then_release_restores_keyinput machine0 KEY_B 16 16 H1).
Defined.

Lemma load_rom_pads_with_zeros_witness :
  (forall g : gba Z, rom (mem (db_lookup_game g)) = rom (mem g) /\
                     rom_size (mem (db_lookup_game g)) = rom_size (mem g)) /\
  data_size rom_image = Z.of_nat (length (data rom_image)) /\
  exists M',
    exec_message {| type := MESSAGE_LOAD_ROM rom_image; size := 16 |} machine0
      = Running M' /\
    rom_size (mem (emu M')) = Z.min (data_size rom_image) CART_SIZE /\
    rom (mem (emu M')) =
      take (Z.to_nat (rom_size (mem (emu M')))) (data rom_image)
      ++ replicate (Z.to_nat (CART_SIZE - rom_size (mem (emu M')))) Byte.x00
      ++ drop (Z.to_nat CART_SIZE) (rom (mem (emu machine0))).
Proof.
  assert (H1 : forall g : gba Z, rom (mem (db_lookup_game g)) = rom (mem g) /\
                                 rom_size (mem (db_lookup_game g)) = rom_size (mem g))
    by (intros g; split; reflexivity).
  assert (H2 : data_size rom_image = Z.of_nat (length (data rom_image)))
    by reflexivity.
  repeat (split; [assumption|]).
  exact (load_rom_pads_with_zeros machine0 rom_image 16 H1 H2).
Defined.

Lemma load_bios_pads_below_the_mask_witness :
  data_size rom_image = Z.of_nat (length (data rom_image)) /\
  exists M',
    exec_message {| type := MESSAGE_LOAD_BIOS rom_image; size := 16 |} machine0
      = Running M' /\
    bios (mem (emu M')) =
      take (Z.to_nat (Z.min (data_size rom_image) BIOS_MASK)) (data rom_image)
      ++ replicate (Z.to_nat (BIOS_MASK - Z.min (data_size rom_image) BIOS_MASK)) Byte.x00
      ++ drop (Z.to_nat BIOS_MASK) (bios (mem (emu machine0))) /\
    (length (bios (mem (emu machine0))) = Z.to_nat (BIOS_MASK + 1) ->
     length (bios (mem (emu M'))) = Z.to_nat (BIOS_MASK + 1) /\
     bios (mem (emu M')) !! Z.to_nat BIOS_MASK
       = bios (mem (emu machine0)) !! Z.to_nat BIOS_MASK).
Proof.
  assert (H1 : data_size rom_image = Z.of_nat (length (data rom_image)))
    by reflexivity.
  split; [assumption|].
  exact (load_bios_pads_below_the_mask machine0 rom_image 16 H1).
Defined.

Lemma pushes_append_in_order_witness :
  holds (queue_of [msg MESSAGE_PAUSE]) [msg MESSAGE_PAUSE] /\
  Forall (fun m => 0 < size m) batch0 /\
  total_size ([msg MESSAGE_PAUSE] ++ batch0) < 2 ^ 64 /\
  exists q',
    push_all batch0 (queue_of [msg MESSAGE_PAUSE]) = Some q' /\
    holds q' ([msg MESSAGE_PAUSE] ++ batch0) /\
    mq_length q' = mq_length (queue_of [msg MESSAGE_PAUSE]) + Z.of_nat (length batch0) /\
    allocated_size q' = allocated_size (queue_of [msg MESSAGE_PAUSE]) + total_size batch0.
Proof.
  assert (H1 : holds (queue_of [msg MESSAGE_PAUSE]) [msg MESSAGE_PAUSE])
    by (repeat split; repeat constructor).
  assert (H2 : Forall (fun m => 0 < size m) batch0) by (repeat constructor).
  assert (H3 : total_size ([msg MESSAGE_PAUSE] ++ batch0) < 2 ^ 64) by reflexivity.
  repeat (split; [assumption|]).
  exact (pushes_append_in_order (queue_of [msg MESSAGE_PAUSE]) [msg MESSAGE_PAUSE]
           batch0 H1 H2 H3).
Defined.



End GbaMore.

(** ** Properties of the front-end *)

Module GuiFacts.

Import Gba GbaViews GbaFacts Gui.

Section Events.

Context `{FE : Frontend}.

Implicit Types (a b : app) (m : message).

(** X16: every key of the keyboard that presses a button releases that same
    button; the only keys whose press does nothing are F1, F2, F5, F8 and the
    keys the handler does not name; repeated key events do nothing. *)
Theorem keyboard_release_matches_press (sym : SDL_Keycode) :
  ((exists k, forall a,
      gui_game_handle_events a (SDL_KEYDOWN 0 sym) = key a k true /\
      gui_game_handle_events a (SDL_KEYUP 0 sym) = key a k false)
   \/
   ((forall a, gui_game_handle_events a (SDL_KEYDOWN 0 sym) = a) /\
    In sym [SDLK_F1; SDLK_F2; SDLK_F5; SDLK_F8; SDLK_OTHER])) /\
  (forall a key_repeat,
     key_repeat <> 0 ->
     gui_game_handle_events a (SDL_KEYDOWN key_repeat sym) = a /\
     gui_game_handle_events a (SDL_KEYUP key_repeat sym) = a).
Proof.
  split.
  - destruct sym;
      try (left; eexists; intros a; split; reflexivity);
      right; (split; [intros a; reflexivity | simpl; tauto]).
  - intros a r Hr. simpl.
    destruct (Z.eqb_spec r 0) as [|_]; [contradiction|]. split; reflexivity.
Qed.

(** X17: every controller button that presses a GBA button releases that
    same button; only MISC1 and the buttons the handler does not name press
    nothing. *)
Theorem controller_release_matches_press (button : SDL_GameControllerButton) :
  (exists k, forall a,
     gui_game_handle_events a (SDL_CONTROLLERBUTTONDOWN button) = key a k true /\
     gui_game_handle_events a (SDL_CONTROLLERBUTTONUP button) = key a k false)
  \/
  ((forall a, gui_game_handle_events a (SDL_CONTROLLERBUTTONDOWN button) = a) /\
   In button [SDL_CONTROLLER_BUTTON_MISC1; SDL_CONTROLLER_BUTTON_OTHER]).
Proof.
  destruct button;
    try (left; eexists; intros a; split; reflexivity);
    right; (split; [intros a; reflexivity | simpl; tauto]).
Qed.

Lemma set_unbounded_twice (e : emulation) :
  set_unbounded (set_unbounded e (xorb (unbounded e) true))
    (xorb (xorb (unbounded e) true) true) = e.
Proof. destruct e as [? ? ? ? ? ? ? ? u ? ? ?]. destruct u; reflexivity. Qed.

(** X18: releasing F1 flips [unbounded] and pushes a Run message whose
    speed is 0 when the emulation becomes unbounded and the configured speed
    otherwise; releasing it again restores the emulation settings. *)
Theorem f1_toggles_unbounded a :
  let a1 := gui_game_handle_events a (SDL_KEYUP 0 SDLK_F1) in
  let a2 := gui_game_handle_events a1 (SDL_KEYUP 0 SDLK_F1) in
  unbounded (app_emulation a1) = negb (unbounded (app_emulation a)) /\
  pushed a1 = pushed a ++
    [NEW_MESSAGE (MESSAGE_RUN (if unbounded (app_emulation a)
                               then speed (app_emulation a) else 0))] /\
  app_emulation a2 = app_emulation a /\
  pushed a2 = pushed a1 ++
    [NEW_MESSAGE (MESSAGE_RUN (if unbounded (app_emulation a)
                               then 0 else speed (app_emulation a)))].
Proof.
  cbv zeta. simpl. unfold run_speed. simpl.
  rewrite set_unbounded_twice.
  destruct (unbounded (app_emulation a)); simpl;
    rewrite ?Z.mul_1_r, ?Z.mul_0_r; repeat split; reflexivity.
Qed.

(** X19: when the stick goes from held left to beyond the right threshold in
    one event, the handler pushes the press of Right only and Left stays held;
    a second event with the same value pushes the release of Left, and a third
    changes nothing. *)
Theorem axis_swing_leaves_opposite_direction_held a value :
  Z.quot INT16_MAX 2 <= value ->
  joystick_left a = true -> joystick_right a = false ->
  let a1 := gui_game_handle_events a (SDL_CONTROLLERAXISMOTION 0 value) in
  let a2 := gui_game_handle_events a1 (SDL_CONTROLLERAXISMOTION 0 value) in
  pushed a1 = pushed a ++ [NEW_MESSAGE (MESSAGE_KEYINPUT KEY_RIGHT true)] /\
  joystick_right a1 = true /\ joystick_left a1 = true /\
  pushed a2 = pushed a1 ++ [NEW_MESSAGE (MESSAGE_KEYINPUT KEY_LEFT false)] /\
  joystick_right a2 = true /\ joystick_left a2 = false /\
  gui_game_handle_events a2 (SDL_CONTROLLERAXISMOTION 0 value) = a2.
Proof.
  intros Hv Hl Hr. cbv zeta.
  assert (Ha : (Z.quot INT16_MAX 2 <=? value) = true) by (apply Z.leb_le; exact Hv).
  assert (Hb : (value <=? Z.quot INT16_MIN 2) = false).
  { apply Z.leb_gt. unfold INT16_MAX, INT16_MIN in *.
    change (Z.quot 32767 2) with 16383 in Hv. change (Z.quot (-32768) 2) with (-16384). lia. }
  unfold gui_game_handle_events. rewrite Ha, Hb, Hr. simpl.
  rewrite Hl. simpl. repeat split; reflexivity.
Qed.

(** X20: after two axis events with the same axis and value the flags of
    that axis agree with the value (at or above [INT16_MAX / 2], at or below
    [INT16_MIN / 2]) and a further such event changes nothing. *)
Theorem axis_settles_in_two_events a axis value :
  let ev := SDL_CONTROLLERAXISMOTION axis value in
  let a2 := gui_game_handle_events (gui_game_handle_events a ev) ev in
  gui_game_handle_events a2 ev = a2 /\
  (axis = 0 ->
   joystick_right a2 = (Z.quot INT16_MAX 2 <=? value) /\
   joystick_left a2 = (value <=? Z.quot INT16_MIN 2)) /\
  (axis = 1 ->
   joystick_down a2 = (Z.quot INT16_MAX 2 <=? value) /\
   joystick_up a2 = (value <=? Z.quot INT16_MIN 2)).
Proof.
  cbv zeta. unfold gui_game_handle_events.
  generalize (Z.quot INT16_MAX 2 <=? value) as sa.
  generalize (value <=? Z.quot INT16_MIN 2) as sb. intros sb sa.
  destruct a as [e jr jl jd ju errs msgs]. cbn [joystick_right joystick_left
    joystick_down joystick_up key push set_joystick].
  destruct (Z.eqb_spec axis 0) as [H0|H0]; [|destruct (Z.eqb_spec axis 1) as [H1|H1]].
  - subst axis. change (0 =? 1) with false. cbn [andb].
    split; [|split; [intros _ | intros Hx; discriminate Hx]];
      destruct sa, sb, jr, jl; reflexivity || (split; reflexivity).
  - subst axis. cbn [andb].
    split; [|split; [intros Hx; discriminate Hx | intros _]];
      destruct sa, sb, jd, ju; reflexivity || (split; reflexivity).
  - cbn [andb]. split; [reflexivity|]. split; intros Hx; contradiction.
Qed.

(** *** The loaders *)

Ltac fail_case :=
  cbn [fst snd]; split; [reflexivity|]; split; [reflexivity | eexists; reflexivity].

Lemma fread_whole (f : file) (n : Z) (k : Z) (buf : list byte) :
  fread f n = (k, buf) -> k = n ->
  buf = take (Z.to_nat n) (file_bytes f) /\
  n <= Z.of_nat (length (file_bytes f)) /\
  (0 <= n -> Z.of_nat (length buf) = n).
Proof.
  unfold fread. intros [= <- <-] Hk. rewrite Hk.
  rewrite Z.sub_diag. change (Z.to_nat 0) with 0%nat. cbn [replicate].
  rewrite app_nil_r. split; [reflexivity|]. split; [lia|].
  intros Hn. rewrite length_take. lia.
Qed.

(** X21: [load_bios] never changes the emulation settings; when it fails it
    pushes nothing and reports one error; when it succeeds it reports none
    and pushes one LoadBios message whose buffer is the first 16,384 bytes
    of a file whose length is 16,384, with [free] as cleanup. *)
Theorem load_bios_pushes_a_whole_image a :
  let r := load_bios a in
  app_emulation (fst r) = app_emulation a /\
  (if snd r
   then pushed (fst r) = pushed a /\ exists e, errors (fst r) = errors a ++ [e]
   else errors (fst r) = errors a /\
        exists f d,
          fopen_rb (bios_path (app_emulation a)) = Some f /\
          file_len f = 0x4000 /\
          data d = take (Z.to_nat 0x4000) (file_bytes f) /\
          Z.of_nat (length (data d)) = 0x4000 /\
          data_size d = 0x4000 /\
          cleanup d = Some free /\
          pushed (fst r) = pushed a ++ [NEW_MESSAGE (MESSAGE_LOAD_BIOS d)]).
Proof.
  cbv zeta. unfold load_bios.
  destruct (fopen_rb _) as [f|] eqn:Hf; [|fail_case].
  destruct (Z.eqb_spec (file_len f) 0x4000) as [Hlen|Hlen]; cbn [negb]; [|fail_case].
  destruct (fread f BIOS_SIZE) as [n buf] eqn:Hrd.
  destruct (Z.eqb_spec n BIOS_SIZE) as [Hn|Hn]; cbn [negb]; [|fail_case].
  destruct (fread_whole _ _ _ _ Hrd Hn) as (Hbuf & _ & Hblen).
  specialize (Hblen ltac:(unfold BIOS_SIZE; lia)).
  cbn [fst snd]. split; [reflexivity|]. split; [reflexivity|].
  exists f, {| data := buf; data_size := BIOS_SIZE; cleanup := Some free |}.
  split; [reflexivity|]. split; [exact Hlen|].
  cbn [data data_size cleanup]. repeat split; try reflexivity; assumption.
Qed.

(** X22: [load_rom] pushes nothing and reports one error on failure; on
    success the file has between 192 and [CART_SIZE] bytes and it pushes, in
    this order, LoadRom with the whole file, BackupType with the configured
    type, and Rtc with the configured state. *)
Theorem load_rom_checks_the_size a :
  let r := load_rom a in
  app_emulation (fst r) = app_emulation a /\
  (if snd r
   then pushed (fst r) = pushed a /\ exists e, errors (fst r) = errors a ++ [e]
   else errors (fst r) = errors a /\
        exists f d,
          fopen_rb (game_path (app_emulation a)) = Some f /\
          192 <= file_len f <= CART_SIZE /\
          data d = take (Z.to_nat (file_len f)) (file_bytes f) /\
          Z.of_nat (length (data d)) = file_len f /\
          data_size d = file_len f /\
          cleanup d = Some free /\
          pushed (fst r) = pushed a ++
            [NEW_MESSAGE (MESSAGE_LOAD_ROM d);
             NEW_MESSAGE (MESSAGE_BACKUP_TYPE (backup_type (app_emulation a)));
             NEW_MESSAGE (MESSAGE_RTC
                (if rtc_autodetect (app_emulation a) then DEVICE_AUTO_DETECT
                 else if rtc_enabled (app_emulation a) then DEVICE_ENABLED
                      else DEVICE_DISABLED))]).
Proof.
  cbv zeta. unfold load_rom.
  destruct (fopen_rb _) as [f|] eqn:Hf; [|fail_case].
  destruct (Z.ltb_spec CART_SIZE (file_len f)); cbn [orb]; [fail_case|].
  destruct (Z.ltb_spec (file_len f) 192); [fail_case|].
  destruct (fread f (file_len f)) as [n buf] eqn:Hrd.
  destruct (Z.eqb_spec n (file_len f)) as [Hn|Hn]; cbn [negb]; [|fail_case].
  destruct (fread_whole _ _ _ _ Hrd Hn) as (Hbuf & _ & Hblen).
  specialize (Hblen ltac:(lia)).
  cbn [fst snd]. split; [reflexivity|]. split; [reflexivity|].
  exists f, {| data := buf; data_size := file_len f; cleanup := Some free |}.
  split; [reflexivity|]. split; [lia|].
  cbn [data data_size cleanup]. repeat split; try reflexivity; try assumption.
  unfold push. cbn [pushed app_emulation]. rewrite <- ?app_assoc. reflexivity.
Qed.

(** X23: [load_save] fails exactly when the save file can neither be opened
    nor created; otherwise it reports no error and keeps the file open; it
    pushes at most one message, a LoadBackup with the whole file, and none
    when the file is new or could not be read in full. *)
Theorem load_save_fails_only_without_a_file a :
  let r := load_save a in
  (snd r = true <->
   (match backup_path (app_emulation a) with
    | Some p => fopen_rb_plus p = None /\ fopen_wb_plus p = false
    | None => True
    end)) /\
  (snd r = false ->
   errors (fst r) = errors a /\
   backup_file (app_emulation (fst r)) = backup_path (app_emulation a)) /\
  (pushed (fst r) = pushed a \/
   exists p f d,
     backup_path (app_emulation a) = Some p /\ fopen_rb_plus p = Some f /\
     file_len f <= Z.of_nat (length (file_bytes f)) /\
     data d = take (Z.to_nat (file_len f)) (file_bytes f) /\
     data_size d = file_len f /\
     pushed (fst r) = pushed a ++ [NEW_MESSAGE (MESSAGE_LOAD_BACKUP d)]).
Proof.
  cbv zeta. unfold load_save.
  destruct (backup_path (app_emulation a)) as [p|] eqn:Hp.
  - destruct (fopen_rb_plus p) as [f|] eqn:Hf.
    + destruct (fread f (file_len f)) as [n buf] eqn:Hrd.
      destruct (Z.eqb_spec n (file_len f)) as [Hn|Hn]; cbn [negb fst snd].
      * split; [split; [discriminate | intros [? _]; discriminate]|].
        split; [intros _; split; reflexivity|].
        right.
        exists p, f, {| data := buf; data_size := file_len f; cleanup := Some free |}.
        split; [reflexivity|]. split; [exact Hf|].
        destruct (fread_whole _ _ _ _ Hrd Hn) as (Hbuf & Hle & _).
        split; [exact Hle|]. cbn [data data_size].
        split; [exact Hbuf|]. split; reflexivity.
      * split; [split; [discriminate | intros [? _]; discriminate]|].
        split; [intros _; split; reflexivity|]. left. reflexivity.
    + destruct (fopen_wb_plus p) eqn:Hc; cbn [fst snd].
      * split; [split; [discriminate | intros [_ ?]; discriminate]|].
        split; [intros _; split; reflexivity|]. left. reflexivity.
      * split; [split; [intros _; split; reflexivity | reflexivity]|].
        split; [discriminate|]. left. reflexivity.
  - cbn [fst snd]. split; [split; [intros _; exact I | reflexivity]|].
    split; [discriminate|]. left. reflexivity.
Qed.

(** *** [gui_game_reset] *)

Lemma load_bios_shape a :
  app_emulation (fst (load_bios a)) = app_emulation a /\
  exists ms,
    pushed (fst (load_bios a)) = pushed a ++ ms /\
    if snd (load_bios a) then ms = []
    else exists d, ms = [NEW_MESSAGE (MESSAGE_LOAD_BIOS d)].
Proof.
  unfold load_bios.
  destruct (fopen_rb _) as [f|];
    [|split; [reflexivity|]; exists []; rewrite app_nil_r; split; reflexivity].
  destruct (negb (file_len f =? 0x4000));
    [split; [reflexivity|]; exists []; rewrite app_nil_r; split; reflexivity|].
  destruct (fread f BIOS_SIZE) as [n buf].
  destruct (negb (n =? BIOS_SIZE));
    [split; [reflexivity|]; exists []; rewrite app_nil_r; split; reflexivity|].
  split; [reflexivity|]. eexists. split; [reflexivity|]. eexists. reflexivity.
Qed.

Lemma load_rom_shape a :
  app_emulation (fst (load_rom a)) = app_emulation a /\
  exists ms,
    pushed (fst (load_rom a)) = pushed a ++ ms /\
    if snd (load_rom a) then ms = []
    else exists d st,
        ms = [NEW_MESSAGE (MESSAGE_LOAD_ROM d);
              NEW_MESSAGE (MESSAGE_BACKUP_TYPE (backup_type (app_emulation a)));
              NEW_MESSAGE (MESSAGE_RTC st)].
Proof.
  unfold load_rom.
  destruct (fopen_rb _) as [f|];
    [|split; [reflexivity|]; exists []; rewrite app_nil_r; split; reflexivity].
  destruct ((CART_SIZE <? file_len f) || (file_len f <? 192));
    [split; [reflexivity|]; exists []; rewrite app_nil_r; split; reflexivity|].
  destruct (fread f (file_len f)) as [n buf].
  destruct (negb (n =? file_len f));
    [split; [reflexivity|]; exists []; rewrite app_nil_r; split; reflexivity|].
  split; [reflexivity|]. eexists. split.
  - unfold push. cbn [fst pushed app_emulation]. rewrite <- !app_assoc. reflexivity.
  - cbn [snd]. eexists. eexists. reflexivity.
Qed.

Lemma load_save_shape a :
  set_backup_file (app_emulation (fst (load_save a))) (backup_file (app_emulation a))
    = app_emulation a /\
  exists ms,
    pushed (fst (load_save a)) = pushed a ++ ms /\
    (ms = [] \/ snd (load_save a) = false /\
                exists d, ms = [NEW_MESSAGE (MESSAGE_LOAD_BACKUP d)]).
Proof.
  assert (Heta : forall e f, set_backup_file (set_backup_file e f) (backup_file e) = e)
    by (intros [] ?; reflexivity).
  unfold load_save.
  destruct (match backup_path (app_emulation a) with
            | Some p => fopen_rb_plus p | None => None end) as [f|].
  - destruct (fread f (file_len f)) as [n buf].
    destruct (negb (n =? file_len f)); cbn [fst snd].
    + split; [apply Heta|]. exists []. rewrite app_nil_r. split; [reflexivity | left; reflexivity].
    + split; [apply Heta|]. eexists. split; [reflexivity|]. right.
      split; [reflexivity|]. eexists. reflexivity.
  - destruct (match backup_path (app_emulation a) with
              | Some p => fopen_wb_plus p | None => false end); cbn [fst snd].
    + split; [apply Heta|]. exists []. rewrite app_nil_r. split; [reflexivity | left; reflexivity].
    + split; [apply Heta|]. exists []. rewrite app_nil_r. split; [reflexivity | left; reflexivity].
Qed.

Lemma strrchr_absent (s : path) (c : byte) :
  ~ In c s -> strrchr s c = None.
Proof.
  induction s as [|x s IH]; [reflexivity|].
  intros Hin. simpl. rewrite IH by (intros H; apply Hin; right; exact H).
  destruct (Byte.eqb x c) eqn:E; [|reflexivity].
  exfalso. apply Hin. left. apply Byte.byte_dec_bl. exact E.
Qed.

Lemma strrchr_last (stem ext : path) (c : byte) :
  ~ In c ext -> strrchr (stem ++ c :: ext) c = Some (length stem).
Proof.
  intros Hin. induction stem as [|x stem IH].
  - simpl. rewrite (strrchr_absent _ _ Hin).
    rewrite (Byte.byte_dec_lb eq_refl). reflexivity.
  - simpl. rewrite IH. reflexivity.
Qed.

(** What the three loaders leave of the emulation and add to the queue
    when they run one after the other as in [gui_game_reset]. *)
Lemma loaders_shape a :
  let r1 := load_bios a in
  let r2 := if snd r1 then (fst r1, true) else load_rom (fst r1) in
  let r3 := if snd r2 then (fst r2, true) else load_save (fst r2) in
  set_backup_file (app_emulation (fst r3)) (backup_file (app_emulation a))
    = app_emulation a /\
  exists loads,
    pushed (fst r3) = pushed a ++ loads /\
    if snd r3
    then loads = [] \/
         (exists d1, loads = [NEW_MESSAGE (MESSAGE_LOAD_BIOS d1)]) \/
         (exists d1 d2 st,
            loads = [NEW_MESSAGE (MESSAGE_LOAD_BIOS d1);
                     NEW_MESSAGE (MESSAGE_LOAD_ROM d2);
                     NEW_MESSAGE (MESSAGE_BACKUP_TYPE (backup_type (app_emulation a)));
                     NEW_MESSAGE (MESSAGE_RTC st)])
    else exists d1 d2 st rest,
        loads = [NEW_MESSAGE (MESSAGE_LOAD_BIOS d1);
                 NEW_MESSAGE (MESSAGE_LOAD_ROM d2);
                 NEW_MESSAGE (MESSAGE_BACKUP_TYPE (backup_type (app_emulation a)));
                 NEW_MESSAGE (MESSAGE_RTC st)] ++ rest /\
        (rest = [] \/ exists d3, rest = [NEW_MESSAGE (MESSAGE_LOAD_BACKUP d3)]).
Proof.
  assert (Heta : forall e : emulation, set_backup_file e (backup_file e) = e)
    by (intros []; reflexivity).
  cbv zeta.
  destruct (load_bios_shape a) as (He1 & ms1 & Hp1 & Hs1).
  destruct (load_bios a) as [a2 f1]. cbn [fst snd] in *.
  destruct f1; cbn [fst snd].
  { subst ms1. split; [rewrite He1; apply Heta|].
    exists []. split; [exact Hp1 | left; reflexivity]. }
  destruct Hs1 as [d1 ->].
  destruct (load_rom_shape a2) as (He2 & ms2 & Hp2 & Hs2).
  destruct (load_rom a2) as [a3 f2]. cbn [fst snd] in *.
  destruct f2; cbn [fst snd].
  { subst ms2. split; [rewrite He2, He1; apply Heta|].
    eexists. split; [rewrite Hp2, Hp1, app_nil_r; reflexivity|].
    right. left. eexists. reflexivity. }
  destruct Hs2 as (d2 & st & ->). rewrite He1 in Hp2.
  destruct (load_save_shape a3) as (He3 & ms3 & Hp3 & Hs3).
  rewrite He2, He1 in He3.
  destruct (load_save a3) as [a4 f3]. cbn [fst snd] in *.
  split; [exact He3|].
  eexists. split; [rewrite Hp3, Hp2, Hp1, <- !app_assoc; reflexivity|].
  destruct f3.
  - destruct Hs3 as [->|[Hf _]]; [|discriminate Hf].
    right. right. exists d1, d2, st. reflexivity.
  - exists d1, d2, st, ms3. split; [reflexivity|].
    destruct Hs3 as [->|[_ [d3 ->]]]; [left; reflexivity | right; eexists; reflexivity].
Qed.

(** X24: [gui_game_reset] pushes Pause and Reset, then what the loaders
    push, and then Reset and Run exactly when it enables the emulation; enabled,
    the loads are LoadBios, LoadRom, BackupType, Rtc and at most one
    LoadBackup; disabled, they are a prefix cut after a loader. *)
Theorem gui_game_reset_message_order a :
  let a0 := gui_push_recent_roms a in
  let r := gui_game_reset a in
  exists loads,
    pushed r =
      pushed a0 ++ [NEW_MESSAGE MESSAGE_PAUSE; NEW_MESSAGE MESSAGE_RESET] ++ loads
      ++ (if enabled (app_emulation r)
          then [NEW_MESSAGE MESSAGE_RESET; NEW_MESSAGE (MESSAGE_RUN (run_speed a0))]
          else []) /\
    if enabled (app_emulation r)
    then pause (app_emulation r) = false /\
         exists d1 d2 st rest,
           loads = [NEW_MESSAGE (MESSAGE_LOAD_BIOS d1);
                    NEW_MESSAGE (MESSAGE_LOAD_ROM d2);
                    NEW_MESSAGE (MESSAGE_BACKUP_TYPE (backup_type (app_emulation a0)));
                    NEW_MESSAGE (MESSAGE_RTC st)] ++ rest /\
           (rest = [] \/ exists d3, rest = [NEW_MESSAGE (MESSAGE_LOAD_BACKUP d3)])
    else loads = [] \/
         (exists d1, loads = [NEW_MESSAGE (MESSAGE_LOAD_BIOS d1)]) \/
         (exists d1 d2 st,
            loads = [NEW_MESSAGE (MESSAGE_LOAD_BIOS d1);
                     NEW_MESSAGE (MESSAGE_LOAD_ROM d2);
                     NEW_MESSAGE (MESSAGE_BACKUP_TYPE (backup_type (app_emulation a0)));
                     NEW_MESSAGE (MESSAGE_RTC st)]).
Proof.
  cbv zeta. unfold gui_game_reset.
  set (a0 := gui_push_recent_roms a).
  set (a1 := push (push (set_emulation a0 _) _) _).
  destruct (loaders_shape a1) as (He & loads & Hp & Hs). cbv zeta in He, Hp, Hs.
  destruct (load_bios a1) as [a2 f1]. cbn [fst snd] in *.
  destruct (if f1 then (a2, true) else load_rom a2) as [a3 f2]. cbn [fst snd] in *.
  destruct (if f2 then (a3, true) else load_save a3) as [a4 f3]. cbn [fst snd] in *.
  assert (Hspeed : run_speed a4 = run_speed a0).
  { unfold run_speed. apply (f_equal speed) in He as Hsp.
    apply (f_equal unbounded) in He as Hun.
    destruct (app_emulation a4); simpl in Hsp, Hun. simpl.
    rewrite Hsp, Hun. reflexivity. }
  exists loads. destruct f3.
  - cbn [enabled app_emulation set_emulation set_enabled pushed].
    split; [|exact Hs].
    rewrite Hp. subst a1. unfold push. cbn [pushed].
    rewrite app_nil_r, <- !app_assoc. reflexivity.
  - unfold gui_game_run, push, run_speed.
    cbn [enabled pause app_emulation set_emulation set_enabled set_pause pushed
         speed unbounded].
    split; [|split; [reflexivity | exact Hs]].
    fold (run_speed a4). rewrite Hspeed, Hp. subst a1. unfold push. cbn [pushed].
    rewrite <- !app_assoc. reflexivity.
Qed.

(** X25: [gui_game_reset] sets the quicksave and save paths to the game
    path cut at its last dot, or whole when it has none, followed by [.hds]
    and [.sav]; the cut is at the last dot even when a directory separator
    follows it. *)
Theorem gui_game_reset_derives_the_paths a :
  let game := game_path (app_emulation (gui_push_recent_roms a)) in
  let r := gui_game_reset a in
  qsave_path (app_emulation r) = Some (take (base_len game) game ++ hds) /\
  backup_path (app_emulation r) = Some (take (base_len game) game ++ sav) /\
  (forall stem ext,
     game = stem ++ dot :: ext -> ~ In dot ext ->
     take (base_len game) game = stem) /\
  (~ In dot game -> take (base_len game) game = game).
Proof.
  cbv zeta. split; [|split; [|split]].
  - unfold gui_game_reset.
    set (a0 := gui_push_recent_roms a).
    set (a1 := push (push (set_emulation a0 _) _) _).
    destruct (loaders_shape a1) as (He & _). cbv zeta in He.
    destruct (load_bios a1) as [a2 f1]. cbn [fst snd] in *.
    destruct (if f1 then (a2, true) else load_rom a2) as [a3 f2]. cbn [fst snd] in *.
    destruct (if f2 then (a3, true) else load_save a3) as [a4 f3]. cbn [fst snd] in *.
    apply (f_equal qsave_path) in He.
    destruct f3; destruct (app_emulation a4); simpl in *; exact He.
  - unfold gui_game_reset.
    set (a0 := gui_push_recent_roms a).
    set (a1 := push (push (set_emulation a0 _) _) _).
    destruct (loaders_shape a1) as (He & _). cbv zeta in He.
    destruct (load_bios a1) as [a2 f1]. cbn [fst snd] in *.
    destruct (if f1 then (a2, true) else load_rom a2) as [a3 f2]. cbn [fst snd] in *.
    destruct (if f2 then (a3, true) else load_save a3) as [a4 f3]. cbn [fst snd] in *.
    apply (f_equal backup_path) in He.
    destruct f3; destruct (app_emulation a4); simpl in *; exact He.
  - intros stem ext -> Hin. unfold base_len.
    rewrite (strrchr_last _ _ _ Hin). apply take_app_length.
  - intros Hin. unfold base_len. rewrite (strrchr_absent _ _ Hin).
    apply firstn_all.
Qed.

End Events.



(** *** The properties on the sample desk *)

Import Samples GuiSamples.

Lemma axis_swing_leaves_opposite_direction_held_witness :
  Z.quot INT16_MAX 2 <= 20000 /\
  joystick_left app_left = true /\
  joystick_right app_left = false /\
  pushed (gui_game_handle_events app_left (SDL_CONTROLLERAXISMOTION 0 20000))
    = pushed app_left ++ [NEW_MESSAGE (MESSAGE_KEYINPUT KEY_RIGHT true)] /\
  joystick_right (gui_game_handle_events app_left (SDL_CONTROLLERAXISMOTION 0 20000))
    = true /\
  joystick_left (gui_game_handle_events app_left (SDL_CONTROLLERAXISMOTION 0 20000))
    = true.
Proof.
  assert (H1 : Z.quot INT16_MAX 2 <= 20000) by (vm_compute; discriminate).
  assert (H2 : joystick_left app_left = true) by reflexivity.
  assert (H3 : joystick_right app_left = false) by reflexivity.
  repeat (split; [assumption|]).
  pose proof (axis_swing_leaves_opposite_direction_held app_left 20000 H1 H2 H3)
    as (P1 & P2 & P3 & _).
  repeat split; assumption.
Defined.

End GuiFacts.

(** ** The front-end and the emulator together *)

Module EndToEnd.

Import Gba GbaViews GbaFacts GbaMore Gui.

Section Together.

Context {Hw Host : Type} `{HW : Hardware Hw Host} `{FE : Frontend}.

Implicit Types (M : machine Hw Host) (a : app).

Lemma load_bios_accepted a :
  snd (load_bios a) = false ->
  exists f d,
    fopen_rb (bios_path (app_emulation a)) = Some f /\
    data d = take (Z.to_nat 0x4000) (file_bytes f) /\
    Z.of_nat (length (data d)) = 0x4000 /\
    data_size d = 0x4000 /\
    fst (load_bios a) = push a (NEW_MESSAGE (MESSAGE_LOAD_BIOS d)).
Proof.
  unfold load_bios.
  destruct (fopen_rb _) as [f|] eqn:Hf; [|discriminate].
  destruct (Z.eqb_spec (file_len f) 0x4000) as [Hlen|Hlen]; cbn [negb]; [|discriminate].
  destruct (fread f BIOS_SIZE) as [n buf] eqn:Hrd.
  destruct (Z.eqb_spec n BIOS_SIZE) as [Hn|Hn]; cbn [negb]; [|discriminate].
  intros _.
  unfold fread in Hrd. injection Hrd as Hk Hbuf. rewrite Hk, Hn in Hbuf.
  rewrite Z.sub_diag in Hbuf. change (Z.to_nat 0) with 0%nat in Hbuf.
  cbn [replicate] in Hbuf. rewrite app_nil_r in Hbuf.
  exists f, {| data := buf; data_size := BIOS_SIZE; cleanup := Some free |}.
  split; [reflexivity|]. cbn [data data_size fst].
  split; [symmetry; exact Hbuf|]. split; [|split; reflexivity].
  rewrite <- Hbuf, length_take. unfold BIOS_SIZE in *. lia.
Qed.

(** X26: whatever BIOS file [load_bios] accepts, the LoadBios message it
    pushes makes the emulator install the first 16,383 bytes of the file and
    leave the byte at offset [0x3FFF] of the BIOS region as it was. *)
Theorem loaded_bios_never_gets_its_last_byte a M :
  snd (load_bios a) = false ->
  length (bios (mem (emu M))) = Z.to_nat 0x4000 ->
  exists f m M',
    fopen_rb (bios_path (app_emulation a)) = Some f /\
    Z.of_nat (length (file_bytes f)) >= 0x4000 /\
    pushed (fst (load_bios a)) = pushed a ++ [m] /\
    exec_message m M = Running M' /\
    take (Z.to_nat 0x3FFF) (bios (mem (emu M'))) = take (Z.to_nat 0x3FFF) (file_bytes f) /\
    bios (mem (emu M')) !! Z.to_nat 0x3FFF = bios (mem (emu M)) !! Z.to_nat 0x3FFF.
Proof.
  intros Hok Hlen.
  destruct (load_bios_accepted a Hok) as (f & d & Hf & Hd & Hdl & Hds & Hpush).
  destruct (load_bios_stops_at_mask M d (sizeof_message (MESSAGE_LOAD_BIOS d)))
    as (M' & Hexec & Hbios); [rewrite Hds; unfold BIOS_MASK; lia|].
  change (Z.to_nat BIOS_MASK) with (Z.to_nat 0x3FFF) in Hbios.
  assert (Hfl : (Z.to_nat 0x4000 <= length (file_bytes f))%nat).
  { rewrite Hd, length_take in Hdl. lia. }
  assert (Htl : length (take (Z.to_nat 0x3FFF) (data d)) = Z.to_nat 0x3FFF)
    by (rewrite length_take; lia).
  exists f, (NEW_MESSAGE (MESSAGE_LOAD_BIOS d)), M'.
  split; [exact Hf|]. split; [lia|].
  split; [rewrite Hpush; reflexivity|]. split; [exact Hexec|].
  rewrite Hbios. split.
  - rewrite take_app_length' by (symmetry; exact Htl).
    rewrite Hd, take_take. f_equal; lia.
  - rewrite lookup_app_r by lia. rewrite Htl, Nat.sub_diag, lookup_drop.
    f_equal; lia.
Qed.


(** X28: for every key other than F1, F2, F5 and F8, the messages the
    handler pushes for a press and the release that follows, run by the
    emulator in that order on a KEYINPUT with no button down, leave KEYINPUT
    as it was. *)
Theorem key_tap_restores_keyinput a sym M :
  (forall g : gba Hw, io_keyinput (io_scan_keypad_irq g) = io_keyinput g) ->
  (forall k, key_bit k (io_keyinput (emu M)) = true) ->
  ~ In sym [SDLK_F1; SDLK_F2; SDLK_F5; SDLK_F8] ->
  let a2 := gui_game_handle_events
              (gui_game_handle_events a (SDL_KEYDOWN 0 sym)) (SDL_KEYUP 0 sym) in
  exists ms,
    pushed a2 = pushed a ++ ms /\
    io_keyinput (emu (run_messages ms M)) = io_keyinput (emu M).
Proof.
  intros Hscan Hup Hsym. cbv zeta.
  assert (Htap : forall k,
            io_keyinput (emu (run_messages
              [NEW_MESSAGE (MESSAGE_KEYINPUT k true);
               NEW_MESSAGE (MESSAGE_KEYINPUT k false)] M)) = io_keyinput (emu M)).
  { intros k. unfold run_messages, NEW_MESSAGE. cbn [fold_left].
    rewrite !(key_message_keyinput _ _ _ _ Hscan).
    specialize (Hup k).
    destruct (io_keyinput (emu M)) as [ka kb kse kst kr kl ku kd krr kll].
    destruct k; simpl in *; subst; reflexivity. }
  destruct sym;
    try (exfalso; apply Hsym; simpl; tauto);
    try (eexists; split;
         [unfold gui_game_handle_events, key, push; cbn [Z.eqb negb pushed];
          rewrite <- app_assoc; reflexivity
         | apply Htap]).
  exists []. split; [simpl; rewrite app_nil_r; reflexivity | reflexivity].
Qed.

(** X29: [gui_game_set_backup_type] pushes one BackupType message with
    the configured type. An emulator that has started ignores it: the machine
    stays as it is. Pushed after [gui_game_stop] it lies behind a Pause and a
    Reset; these leave [started] false, the reset being run on the state with
    [state] set to Pause, and the BackupType message is then applied:
    [mem_backup_storage_init] runs after [mem_backup_storage_detect] when the
    type is the automatic detection, and otherwise on the reset state with the
    configured type and the manual source. *)
Theorem backup_type_is_taken_after_a_stop a M :
  started (emu M) = true ->
  let t := backup_type (app_emulation a) in
  let bt := NEW_MESSAGE (MESSAGE_BACKUP_TYPE t) in
  let stop := [NEW_MESSAGE MESSAGE_PAUSE; NEW_MESSAGE MESSAGE_RESET] in
  let g0 := emu (run_messages stop M) in
  pushed (gui_game_set_backup_type a) = pushed a ++ [bt] /\
  exec_message bt M = Running M /\
  pushed (gui_game_set_backup_type (gui_game_stop a)) = pushed a ++ stop ++ [bt] /\
  started g0 = false /\
  (exists gp, g0 = gba_reset gp /\ state gp = GBA_STATE_PAUSE /\
              same_but_state (emu M) gp) /\
  (exists g,
     emu (run_messages (stop ++ [bt]) M) = mem_backup_storage_init g /\
     if backup_storage_types_eqb t BACKUP_AUTO_DETECT
     then g = mem_backup_storage_detect g0
     else backup_storage_type (mem g) = t /\
          backup_storage_source (mem g) = BACKUP_SOURCE_MANUAL /\
          same_but_backup_type g0 g).
Proof.
  intros Hs. cbv zeta.
  set (t := backup_type (app_emulation a)).
  set (R := run_messages [NEW_MESSAGE MESSAGE_PAUSE; NEW_MESSAGE MESSAGE_RESET] M).
  assert (Hs0 : started (emu R) = false) by reflexivity.
  split; [reflexivity|]. split.
  { unfold exec_message, NEW_MESSAGE. cbn [type]. rewrite Hs. reflexivity. }
  split.
  { unfold gui_game_set_backup_type, gui_game_stop, push.
    cbn [pushed app_emulation set_emulation]. rewrite <- !app_assoc. reflexivity. }
  split; [exact Hs0|]. split.
  { eexists. split; [reflexivity|]. split; [reflexivity | repeat split]. }
  destruct (backup_type_message_applied R t (sizeof_message (MESSAGE_BACKUP_TYPE t)) Hs0)
    as (M' & g & Hexec & Hemu & _ & Hg).
  exists g. split; [|exact Hg].
  change (run_messages ([NEW_MESSAGE MESSAGE_PAUSE; NEW_MESSAGE MESSAGE_RESET]
                          ++ [NEW_MESSAGE (MESSAGE_BACKUP_TYPE t)]) M)
    with (apply_message R (NEW_MESSAGE (MESSAGE_BACKUP_TYPE t))).
  unfold apply_message, NEW_MESSAGE at 1. rewrite Hexec. exact Hemu.
Qed.

End Together.

(** *** The properties on the sample desk and board *)

Import Samples GuiSamples.

Lemma loaded_bios_never_gets_its_last_byte_witness :
  snd (load_bios app0) = false /\
  length (bios (mem (emu machine0))) = Z.to_nat 0x4000 /\
  exists f m M',
    fopen_rb (bios_path (app_emulation app0)) = Some f /\
    Z.of_nat (length (file_bytes f)) >= 0x4000 /\
    pushed (fst (load_bios app0)) = pushed app0 ++ [m] /\
    exec_message m machine0 = Running M' /\
    take (Z.to_nat 0x3FFF) (bios (mem (emu M'))) = take (Z.to_nat 0x3FFF) (file_bytes f) /\
    bios (mem (emu M')) !! Z.to_nat 0x3FFF = bios (mem (emu machine0)) !! Z.to_nat 0x3FFF.
Proof.
  assert (H1 : snd (load_bios app0) = false) by (vm_compute; reflexivity).
  assert (H2 : length (bios (mem (emu machine0))) = Z.to_nat 0x4000)
    by (vm_compute; reflexivity).
  repeat (split; [assumption|]).
  exact (loaded_bios_never_gets_its_last_byte app0 machine0 H1 H2).
Defined.


Lemma key_tap_restores_keyinput_witness :
  (forall g : gba Z, io_keyinput (io_scan_keypad_irq g) = io_keyinput g) /\
  (forall k, key_bit k (io_keyinput (emu machine0)) = true) /\
  ~ In SDLK_p [SDLK_F1; SDLK_F2; SDLK_F5; SDLK_F8] /\
  exists ms,
    pushed (gui_game_handle_events
              (gui_game_handle_events app0 (SDL_KEYDOWN 0 SDLK_p)) (SDL_KEYUP 0 SDLK_p))
      = pushed app0 ++ ms /\
    io_keyinput (emu (run_messages ms machine0)) = io_keyinput (emu machine0).
Proof.
  assert (H1 : forall g : gba Z, io_keyinput (io_scan_keypad_irq g) = io_keyinput g)
    by (intros g; reflexivity).
  assert (H2 : forall k, key_bit k (io_keyinput (emu machine0)) = true)
    by (intros k; destruct k; reflexivity).
  assert (H3 : ~ In SDLK_p [SDLK_F1; SDLK_F2; SDLK_F5; SDLK_F8])
    by (simpl; intros [H|[H|[H|[H|[]]]]]; discriminate H).
  repeat (split; [assumption|]).
  exact (key_tap_restores_keyinput app0 SDLK_p machine0 H1 H2 H3).
Defined.

Lemma backup_type_is_taken_after_a_stop_witness :
  started (emu running0) = true /\
  let t := backup_type (app_emulation app0) in
  let bt := NEW_MESSAGE (MESSAGE_BACKUP_TYPE t) in
  let stop := [NEW_MESSAGE MESSAGE_PAUSE; NEW_MESSAGE MESSAGE_RESET] in
  let g0 := emu (run_messages stop running0) in
  pushed (gui_game_set_backup_type app0) = pushed app0 ++ [bt] /\
  exec_message bt running0 = Running running0 /\
  pushed (gui_game_set_backup_type (gui_game_stop app0)) = pushed app0 ++ stop ++ [bt] /\
  started g0 = false /\
  (exists gp, g0 = gba_reset gp /\ state gp = GBA_STATE_PAUSE /\
              same_but_state (emu running0) gp) /\
  (exists g,
     emu (run_messages (stop ++ [bt]) running0) = mem_backup_storage_init g /\
     if backup_storage_types_eqb t BACKUP_AUTO_DETECT
     then g = mem_backup_storage_detect g0
     else backup_storage_type (mem g) = t /\
          backup_storage_source (mem g) = BACKUP_SOURCE_MANUAL /\
          same_but_backup_type g0 g).
Proof.
  assert (H1 : started (emu running0) = true) by reflexivity.
  split; [assumption|].
  exact (backup_type_is_taken_after_a_stop app0 running0 H1).
Defined.

End EndToEnd.
